(** * The [up] session supervisor of okteto (cmd/up.go)

    A shallow embedding of [RunUp], [UpContext.Activate],
    [UpContext.WaitUntilExitOrInterrupt], [UpContext.devMode],
    [UpContext.startSync], [UpContext.runCommand] and [UpContext.shutdown].

    The Go code talks to the cluster, to the sync engine, to the terminal and
    to the user.  Every such call is modelled by
    - an [Event] appended to a trace, in program order, and
    - a field of an oracle ([World]) giving what the call answered.
    The [UpContext] struct is threaded as explicit state.  A computation can
    finish, panic (nil dereference), block for ever on a channel, or exhaust
    the script of oracle answers. *)

From Stdlib Require Import List String Bool Arith Lia.
Import ListNotations.
Local Open Scope string_scope.
Local Open Scope list_scope.

(** ** Errors

    A Go [error] is an interface value; [nil] is [None] in [option error].
    [ErrLostConnection] and [ErrCommandFailed] are the two sentinels of
    pkg/errors that cmd/up.go compares with [==]. *)
Inductive error : Type :=
| ErrLostConnection
| ErrCommandFailed
| Errorf (msg : string)        (* fmt.Errorf *)
| ErrExternal (code : nat).   (* an error value made by a collaborator *)

Definition error_eqb (a b : error) : bool :=
  match a, b with
  | ErrLostConnection, ErrLostConnection => true
  | ErrCommandFailed, ErrCommandFailed => true
  | Errorf m, Errorf n => String.eqb m n
  | ErrExternal i, ErrExternal j => Nat.eqb i j
  | _, _ => false
  end.

(** Go's [(T, error)] results where the value is only read when the error is
    nil. *)
Inductive result (A : Type) : Type :=
| Ok (a : A)
| Err (e : error).
Arguments Ok {A} a.
Arguments Err {A} e.

(** ** Data of the session *)

(** model.Forward *)
Record Forward : Type := { Local : nat; Remote : nat }.

(** model.Dev, the fields cmd/up.go reads or writes. *)
Record Dev : Type := {
  Name : string;
  Namespace : string;
  Image : string;
  DevContainer : string;          (* Dev.Container *)
  Volumes : list string;
  Forwards : list Forward;        (* Dev.Forward *)
  Command : list string
}.

Definition set_Namespace (d : Dev) (ns : string) : Dev :=
  {| Name := Name d; Namespace := ns; Image := Image d;
     DevContainer := DevContainer d; Volumes := Volumes d;
     Forwards := Forwards d; Command := Command d |}.

(** A cancellable context is named by the number of the
    [context.WithCancel] call that made it. *)
Definition CtxId : Type := nat.

(** forward.PortForwardManager: what the supervisor knows of it is the
    context it was built with. *)
Record PortForwardManager : Type := { pfmContext : option CtxId }.

(** The two managers of a session. *)
Inductive Which : Type := DevFwd | SyncFwd.

(** syncthing.Syncthing, the fields cmd/up.go reads or writes. *)
Record Syncthing : Type := {
  RemotePort : nat;
  RemoteGUIPort : nat;
  Type_ : string
}.

Definition set_Type (s : Syncthing) (t : string) : Syncthing :=
  {| RemotePort := RemotePort s; RemoteGUIPort := RemoteGUIPort s; Type_ := t |}.

(** The saved terminal state returned by term.SaveState. *)
Definition TermState : Type := nat.

(** sync.WaitGroup: a handle. *)
Inductive WaitGroup : Type := MkWaitGroup.

(** UpContext.  Pointer and func fields are [option]s: [None] is nil.  The
    [Exit] channel has capacity 1: [None] is the empty buffer.  The per
    iteration channels [Running], [Disconnect] and [ErrChan] are read
    through the oracle (see [Signal]); the struct keeps whether they were
    made. *)
Record UpContext : Type := {
  Context : option CtxId;
  Cancel : option CtxId;
  WG : option WaitGroup;
  dev : Dev;                                (* up.Dev *)
  DevPod : string;
  SyncPod : string;
  Container : string;
  DevForwarder : option PortForwardManager;
  SyncForwarder : option PortForwardManager;
  Channels : bool;                          (* Disconnect, Running, ErrChan made *)
  Exit : option (option error);
  Sy : option Syncthing;
  ctxCounter : nat                          (* contexts made so far *)
}.

(** The two pod labels of pkg/k8s/pods. *)
Inductive Label : Type := OktetoSyncLabel | OktetoDevLabel.

(** What a [select] of [WaitUntilExitOrInterrupt] receives. *)
Inductive Signal : Type :=
| SigRunning (e : option error)   (* err := <-up.Running *)
| SigErrChan (e : error)          (* err := <-up.ErrChan *)
| SigDisconnect.                  (* <-up.Disconnect *)

(** ** Events: the calls the supervisor makes, in program order.
    [EvGo e] is an effect performed by a goroutine spawned at that point:
    it is ordered after the spawn and not otherwise. *)
Inductive Event : Type :=
| EvSaveState
| EvRestoreTerminal (st : TermState)
| EvWithCancel (c : CtxId)
| EvMakeChannels
| EvGetLocal
| EvSyncthingNew
| EvDeploymentsGet (name ns : string)
| EvAskYesNo (question : string)
| EvGevDevSandbox
| EvProgressStart (msg : string)
| EvProgressStop
| EvSecretsCreate
| EvVolumesCreate (name : string)
| EvDevModeOn (create : bool)
| EvServicesCreate
| EvGetDevPod (l : Label)
| EvNewPortForwardManager (k : Which) (c : option CtxId)
| EvForwarderAdd (k : Which) (local remote : nat)
| EvForwarderStart (k : Which) (pod ns : string)
| EvPrintln (msg : string)
| EvDisplayContext
| EvSyRun
| EvSyMonitor
| EvWaitForPing
| EvWaitForCompletion
| EvOverrideChanges
| EvUpdateConfig (ty : string)      (* the Type of the engine at the call *)
| EvRestart
| EvExec (argv : list string)
| EvRecv (s : Signal)
| EvLogYellow (msg : string)
| EvLogYellowErr (e : error)
| EvIsConnected
| EvCancel (c : CtxId)
| EvWGWait
| EvCloseDone
| EvForwarderStop (k : Which)
| EvExitSend (e : option error)
| EvSignalNotify
| EvGo (e : Event).

(** ** The monad of supervisor code *)

Inductive Res (A : Type) : Type :=
| Done (a : A) (u : UpContext)   (* returned *)
| Panic                          (* nil dereference: the process dies *)
| Blocked (u : UpContext)        (* waits for ever on a channel *)
| OutOfScript.                   (* the oracle has no more answers *)
Arguments Done {A} a u.
Arguments Panic {A}.
Arguments Blocked {A} u.
Arguments OutOfScript {A}.

Definition M (A : Type) : Type := UpContext -> list Event * Res A.

Definition ret {A} (a : A) : M A := fun u => ([], Done a u).

Definition bind {A B} (m : M A) (f : A -> M B) : M B := fun u =>
  match m u with
  | (t, Done a u') => let (t', r) := f a u' in (t ++ t', r)
  | (t, Panic) => (t, Panic)
  | (t, Blocked u') => (t, Blocked u')
  | (t, OutOfScript) => (t, OutOfScript)
  end.

(** The outcome [x] after the events [t]. *)
Definition prepend {A} (t : list Event) (x : list Event * Res A) : list Event * Res A :=
  (t ++ fst x, snd x).

Declare Scope up_scope.
Delimit Scope up_scope with up.
Notation "x <- m ;; k" := (bind m (fun x => k))
  (at level 61, m at next level, right associativity) : up_scope.
Notation "m ;; k" := (bind m (fun _ => k))
  (at level 61, right associativity) : up_scope.
Local Open Scope up_scope.

Definition emit (e : Event) : M unit := fun u => ([e], Done tt u).
Definition get : M UpContext := fun u => ([], Done u u).
Definition panic {A} : M A := fun _ => ([], Panic).
Definition blocked {A} : M A := fun u => ([], Blocked u).
Definition outOfScript {A} : M A := fun _ => ([], OutOfScript).

(** [go body]: spawn a goroutine.  Its effects are tagged [EvGo]; a panic
    inside it kills the process; when it blocks for ever the spawner goes
    on with what the goroutine wrote so far, and learns nothing ([None]).
    The body is run at the spawn, on the struct as it is then: one of the
    interleavings of the program.  The place of an [EvGo] event among the
    later events of the spawner is therefore not a fact about the source,
    and the protocols below read the events of the supervisor's own
    goroutine only. *)
Definition go {A} (body : M A) : M (option A) := fun u =>
  match body u with
  | (t, Done a u') => (map EvGo t, Done (Some a) u')
  | (t, Panic) => (map EvGo t, Panic)
  | (t, Blocked u') => (map EvGo t, Done None u')
  | (t, OutOfScript) => (map EvGo t, OutOfScript)
  end.

(** The value a computation returned, when it returned. *)
Definition returned {A} (r : Res A) : option A :=
  match r with Done a _ => Some a | _ => None end.

(** Field updates of [UpContext]. *)
Definition with_Context (u : UpContext) (c : CtxId) : UpContext :=
  {| Context := Some c; Cancel := Some c; WG := WG u; dev := dev u;
     DevPod := DevPod u; SyncPod := SyncPod u; Container := Container u;
     DevForwarder := DevForwarder u; SyncForwarder := SyncForwarder u;
     Channels := Channels u; Exit := Exit u; Sy := Sy u;
     ctxCounter := S (ctxCounter u) |}.

Definition with_Channels (u : UpContext) : UpContext :=
  {| Context := Context u; Cancel := Cancel u; WG := WG u; dev := dev u;
     DevPod := DevPod u; SyncPod := SyncPod u; Container := Container u;
     DevForwarder := DevForwarder u; SyncForwarder := SyncForwarder u;
     Channels := true; Exit := Exit u; Sy := Sy u;
     ctxCounter := ctxCounter u |}.

Definition with_dev (u : UpContext) (d : Dev) : UpContext :=
  {| Context := Context u; Cancel := Cancel u; WG := WG u; dev := d;
     DevPod := DevPod u; SyncPod := SyncPod u; Container := Container u;
     DevForwarder := DevForwarder u; SyncForwarder := SyncForwarder u;
     Channels := Channels u; Exit := Exit u; Sy := Sy u;
     ctxCounter := ctxCounter u |}.

Definition with_DevPod (u : UpContext) (p : string) : UpContext :=
  {| Context := Context u; Cancel := Cancel u; WG := WG u; dev := dev u;
     DevPod := p; SyncPod := SyncPod u; Container := Container u;
     DevForwarder := DevForwarder u; SyncForwarder := SyncForwarder u;
     Channels := Channels u; Exit := Exit u; Sy := Sy u;
     ctxCounter := ctxCounter u |}.

Definition with_SyncPod (u : UpContext) (p : string) : UpContext :=
  {| Context := Context u; Cancel := Cancel u; WG := WG u; dev := dev u;
     DevPod := DevPod u; SyncPod := p; Container := Container u;
     DevForwarder := DevForwarder u; SyncForwarder := SyncForwarder u;
     Channels := Channels u; Exit := Exit u; Sy := Sy u;
     ctxCounter := ctxCounter u |}.

Definition with_Container (u : UpContext) (c : string) : UpContext :=
  {| Context := Context u; Cancel := Cancel u; WG := WG u; dev := dev u;
     DevPod := DevPod u; SyncPod := SyncPod u; Container := c;
     DevForwarder := DevForwarder u; SyncForwarder := SyncForwarder u;
     Channels := Channels u; Exit := Exit u; Sy := Sy u;
     ctxCounter := ctxCounter u |}.

Definition with_DevForwarder (u : UpContext) (m : PortForwardManager) : UpContext :=
  {| Context := Context u; Cancel := Cancel u; WG := WG u; dev := dev u;
     DevPod := DevPod u; SyncPod := SyncPod u; Container := Container u;
     DevForwarder := Some m; SyncForwarder := SyncForwarder u;
     Channels := Channels u; Exit := Exit u; Sy := Sy u;
     ctxCounter := ctxCounter u |}.

Definition with_SyncForwarder (u : UpContext) (m : PortForwardManager) : UpContext :=
  {| Context := Context u; Cancel := Cancel u; WG := WG u; dev := dev u;
     DevPod := DevPod u; SyncPod := SyncPod u; Container := Container u;
     DevForwarder := DevForwarder u; SyncForwarder := Some m;
     Channels := Channels u; Exit := Exit u; Sy := Sy u;
     ctxCounter := ctxCounter u |}.

Definition with_Sy (u : UpContext) (s : option Syncthing) : UpContext :=
  {| Context := Context u; Cancel := Cancel u; WG := WG u; dev := dev u;
     DevPod := DevPod u; SyncPod := SyncPod u; Container := Container u;
     DevForwarder := DevForwarder u; SyncForwarder := SyncForwarder u;
     Channels := Channels u; Exit := Exit u; Sy := s;
     ctxCounter := ctxCounter u |}.

Definition with_Exit (u : UpContext) (e : option (option error)) : UpContext :=
  {| Context := Context u; Cancel := Cancel u; WG := WG u; dev := dev u;
     DevPod := DevPod u; SyncPod := SyncPod u; Container := Container u;
     DevForwarder := DevForwarder u; SyncForwarder := SyncForwarder u;
     Channels := Channels u; Exit := e; Sy := Sy u;
     ctxCounter := ctxCounter u |}.

Definition modify (f : UpContext -> UpContext) : M unit := fun u => ([], Done tt (f u)).

(** [x.f()] on a pointer that may be nil. *)
Definition deref {A} (p : option A) : M A :=
  match p with
  | Some a => ret a
  | None => panic
  end.

(** ** Collaborators

    The packages cmd/up.go imports.  Their pure helpers and constants are
    parameters of the development; what their effectful calls answer comes
    from the oracle. *)
Class Packages : Type := {
  Deployment : Type;                          (* appsv1.Deployment *)
  IsNotFound : error -> bool;                 (* errors.IsNotFound *)
  IsDevModeOn : Deployment -> bool;           (* deployments.IsDevModeOn *)
  GevDevSandbox : Dev -> Deployment;          (* deployments.GevDevSandbox *)
  GetVolumeDataName : Dev -> nat -> string;   (* volumes.GetVolumeDataName *)
  ClusterPort : nat;                          (* syncthing.ClusterPort *)
  GUIPort : nat                               (* syncthing.GUIPort *)
}.

(** The timed [select] of [shutdown]: two cases, each ready from some
    instant on ([None]: never); the case that is ready first is taken, [tie]
    picks when both become ready at once.  [None]: the select never
    returns. *)
Definition select2 {A} (t1 : option nat) (a1 : A) (t2 : option nat) (a2 : A)
    (tie : bool) : option (nat * A) :=
  match t1, t2 with
  | None, None => None
  | Some x, None => Some (x, a1)
  | None, Some y => Some (y, a2)
  | Some x, Some y =>
      if Nat.ltb x y then Some (x, a1)
      else if Nat.ltb y x then Some (y, a2)
      else if tie then Some (x, a1) else Some (y, a2)
  end.

(** How [shutdown] left its [select]. *)
Inductive ShutdownExit : Type := TasksDone | WatchdogFired.

(** What the world answers to one call of [shutdown]: after how many
    milliseconds the wait-group drains ([None]: never). *)
Record ShutdownWorld : Type := {
  sw_drain : option nat;
  sw_tie : bool
}.

Section Supervisor.

Context {P : Packages}.

(** What the world answers during one iteration of the loop of
    [Activate]. *)
Record World : Type := {
  w_GetLocal : result string;               (* the namespace of k8Client.GetLocal *)
  w_SyncthingNew : result Syncthing;
  w_DeploymentsGet : result Deployment;
  w_askYesNo : bool;
  w_SecretsCreate : option error;
  w_VolumesCreate : nat -> option error;    (* by call number *)
  w_DevModeOn : result string;              (* c.Name *)
  w_ServicesCreate : option error;
  w_GetDevPod : Label -> result string;     (* p.Name *)
  w_DevForwarderAdd : nat -> nat -> option error;
  w_SyRun : option error;
  w_SyncForwarderAdd : nat -> nat -> option error;
  w_WaitForPing : option error;
  w_WaitForCompletion : nat -> option error; (* by call number *)
  w_OverrideChanges : option error;
  w_UpdateConfig : option error;
  w_Restart : option error;
  w_signals : list Signal;                  (* what the selects of the wait receive, in order;
                                               [SigRunning e]: runCommand returned [e] *)
  w_IsConnected : bool;
  w_shutdown : ShutdownWorld
}.

(** The loop of devMode over [up.Dev.Volumes], from index [i]. *)
Fixpoint createDataVolumes (w : World) (d : Dev) (i : nat) (vs : list string)
    : M (option error) :=
  match vs with
  | [] => ret None
  | _ :: vs' =>
      emit (EvVolumesCreate (GetVolumeDataName d i)) ;;
      match w_VolumesCreate w (S i) with
      | Some err => ret (Some err)
      | None => createDataVolumes w d (S i) vs'
      end
  end.

(** devMode, from [secrets.Create] on (lines 252-293). *)
Definition devMode_apply (w : World) (d : Deployment) (create : bool)
    : M (option error) :=
  emit EvSecretsCreate ;;
  match w_SecretsCreate w with
  | Some err => ret (Some err)
  | None =>
  u <- get ;;
  emit (EvVolumesCreate (Name (dev u))) ;;
  match w_VolumesCreate w 0 with
  | Some err => ret (Some err)
  | None =>
  r <- createDataVolumes w (dev u) 0 (Volumes (dev u)) ;;
  match r with
  | Some err => ret (Some err)
  | None =>
  emit (EvDevModeOn create) ;;
  match w_DevModeOn w with
  | Err err => ret (Some err)
  | Ok c =>
  modify (fun u => with_Container u c) ;;
  r <- (if create then emit EvServicesCreate ;; ret (w_ServicesCreate w)
        else ret None) ;;
  match r with
  | Some err => ret (Some err)
  | None =>
  emit (EvGetDevPod OktetoSyncLabel) ;;
  match w_GetDevPod w OktetoSyncLabel with
  | Err err => ret (Some err)
  | Ok p =>
  modify (fun u => with_SyncPod u p) ;;
  emit (EvGetDevPod OktetoDevLabel) ;;
  match w_GetDevPod w OktetoDevLabel with
  | Err err => ret (Some err)
  | Ok p =>
  modify (fun u => with_DevPod u p) ;;
  ret None
  end end end end end end end.

(** devMode, from the progress bar on (lines 244-293); the deferred
    [progress.stop()] runs on every return. *)
Definition devMode_activate (w : World) (isRetry : bool) (d : Deployment)
    (create : bool) : M (option error) :=
  emit (EvProgressStart "Activating your Okteto Environment...") ;;
  r <- (if isRetry && negb (IsDevModeOn d)
        then ret (Some (Errorf "Your Okteto Environment has been deactivated"))
        else devMode_apply w d create) ;;
  emit EvProgressStop ;;
  ret r.

Definition sandboxQuestion (d : Dev) : string :=
  "Deployment '" ++ Name d ++ "' doesn't exist. Do you want to create a new one? [y/n]: ".

Definition notFoundMessage (d : Dev) : string :=
  "deployment " ++ Name d ++ " not found [current context: " ++ Namespace d ++ "]".

(** UpContext.devMode *)
Definition devMode (w : World) (isRetry : bool) : M (option error) :=
  emit EvGetLocal ;;
  match w_GetLocal w with
  | Err err => ret (Some err)
  | Ok namespace =>
  u <- get ;;
  (if String.eqb (Namespace (dev u)) EmptyString
   then modify (fun u => with_dev u (set_Namespace (dev u) namespace))
   else ret tt) ;;
  emit EvSyncthingNew ;;
  match w_SyncthingNew w with
  | Err err => modify (fun u => with_Sy u None) ;; ret (Some err)
  | Ok sy =>
  modify (fun u => with_Sy u (Some sy)) ;;
  u <- get ;;
  emit (EvDeploymentsGet (Name (dev u)) (Namespace (dev u))) ;;
  match w_DeploymentsGet w with
  | Err err =>
      if negb (IsNotFound err) || isRetry then ret (Some err)
      else
        emit (EvAskYesNo (sandboxQuestion (dev u))) ;;
        if negb (w_askYesNo w)
        then ret (Some (Errorf (notFoundMessage (dev u))))
        else
          emit EvGevDevSandbox ;;
          devMode_activate w isRetry (GevDevSandbox (dev u)) true
  | Ok d => devMode_activate w isRetry d false
  end end end.

(** UpContext.startSync *)
Definition startSync (w : World) : M (option error) :=
  u <- get ;;
  sy <- deref (Sy u) ;;
  emit EvSyRun ;;
  match w_SyRun w with
  | Some err => ret (Some err)
  | None =>
  emit (EvNewPortForwardManager SyncFwd (Context u)) ;;
  modify (fun u => with_SyncForwarder u {| pfmContext := Context u |}) ;;
  emit (EvForwarderAdd SyncFwd (RemotePort sy) ClusterPort) ;;
  match w_SyncForwarderAdd w (RemotePort sy) ClusterPort with
  | Some err => ret (Some err)
  | None =>
  emit (EvForwarderAdd SyncFwd (RemoteGUIPort sy) GUIPort) ;;
  match w_SyncForwarderAdd w (RemoteGUIPort sy) GUIPort with
  | Some err => ret (Some err)
  | None =>
  emit (EvForwarderStart SyncFwd (SyncPod u) (Namespace (dev u))) ;;
  go (emit EvSyMonitor) ;;
  emit EvWaitForPing ;;
  match w_WaitForPing w with
  | Some err => ret (Some err)
  | None =>
  emit EvWaitForCompletion ;;
  match w_WaitForCompletion w 0 with
  | Some err => ret (Some err)
  | None =>
  emit EvOverrideChanges ;;
  match w_OverrideChanges w with
  | Some err => ret (Some err)
  | None =>
  emit EvWaitForCompletion ;;
  match w_WaitForCompletion w 1 with
  | Some err => ret (Some err)
  | None =>
  modify (fun u => with_Sy u (Some (set_Type sy "sendreceive"))) ;;
  u2 <- get ;;
  sy2 <- deref (Sy u2) ;;
  emit (EvUpdateConfig (Type_ sy2)) ;;
  match w_UpdateConfig w with
  | Some err => ret (Some err)
  | None =>
  emit EvRestart ;;
  ret (w_Restart w)
  end end end end end end end end.

Definition reapCommand : list string :=
  ["sh"; "-c"; "trap '' TERM && kill -- -1 && sleep 0.1 & kill -s KILL -- -1 >/dev/null 2>&1"].

(** UpContext.runCommand: the two [exec.Exec] calls.  The error the second
    one returns is the [SigRunning] of the oracle. *)
Definition runCommand : M unit :=
  u <- get ;;
  emit (EvExec reapCommand) ;;
  emit (EvExec (Command (dev u))).

(** UpContext.WaitUntilExitOrInterrupt: one [select] per element of the
    schedule; with no signal left every channel stays empty. *)
Fixpoint WaitUntilExitOrInterrupt (signals : list Signal) : M (option error) :=
  match signals with
  | [] => blocked
  | s :: rest =>
      emit (EvRecv s) ;;
      match s with
      | SigRunning err =>
          emit (EvPrintln EmptyString) ;;
          match err with
          | Some _ => ret (Some ErrCommandFailed)
          | None => ret None
          end
      | SigErrChan err =>
          emit (EvLogYellowErr err) ;;
          WaitUntilExitOrInterrupt rest
      | SigDisconnect => ret (Some ErrLostConnection)
      end
  end.

(** Calls through fields that may be nil. *)
Definition call_Cancel (c : option CtxId) : M unit :=
  id <- deref c ;; emit (EvCancel id).

(** [WG.Wait()] returns at the instant the group drains. *)
Definition WG_Wait (wg : option WaitGroup) (drain : option nat) : M nat :=
  _ <- deref wg ;;
  emit EvWGWait ;;
  match drain with
  | Some t => ret t
  | None => blocked
  end.

Definition Forwarder_Stop (k : Which) (m : option PortForwardManager) : M unit :=
  _ <- deref m ;; emit (EvForwarderStop k).

(** time.After(1 * time.Second), in milliseconds. *)
Definition watchdog : nat := 1000.

(** UpContext.shutdown.  The value is how the [select] was left and how
    many milliseconds after the call. *)
Definition shutdown (sw : ShutdownWorld) : M (ShutdownExit * nat) :=
  u <- get ;;
  match Cancel u with
  | Some _ => call_Cancel (Cancel u)
  | None => ret tt
  end ;;
  done <- go (t <- match WG u with
                   | Some _ => WG_Wait (WG u) (sw_drain sw)
                   | None => ret 0
                   end ;;
              emit EvCloseDone ;;
              ret t) ;;
  go (u <- get ;;
      match DevForwarder u with
      | Some _ => Forwarder_Stop DevFwd (DevForwarder u)
      | None => ret tt
      end ;;
      match SyncForwarder u with
      | Some _ => Forwarder_Stop SyncFwd (SyncForwarder u)
      | None => ret tt
      end) ;;
  match select2 done TasksDone (Some watchdog) WatchdogFired (sw_tie sw) with
  | Some (t, how) => ret (how, t)
  | None => blocked
  end.

(** [up.Exit <- err] on the channel of capacity 1. *)
Definition exitSend (err : option error) : M unit :=
  u <- get ;;
  match Exit u with
  | None => emit (EvExitSend err) ;; modify (fun u => with_Exit u (Some err))
  | Some _ => blocked
  end.

(** The loop of Activate over [up.Dev.Forward]. *)
Fixpoint addForwards (w : World) (fs : list Forward) : M (option error) :=
  match fs with
  | [] => ret None
  | f :: fs' =>
      emit (EvForwarderAdd DevFwd (Local f) (Remote f)) ;;
      match w_DevForwarderAdd w (Local f) (Remote f) with
      | Some err => ret (Some err)
      | None => addForwards w fs'
      end
  end.

(** How one pass through the body of the [for] of Activate ends. *)
Inductive LoopCtl : Type :=
| Continue (retry : bool)
| Return.

Definition newline : string := String (Ascii.ascii_of_nat 10) EmptyString.

Definition reconnectBanner : string :=
  (newline ++ "Connection lost to your Okteto Environment, reconnecting..." ++ newline)%string.

(** The exit selection of Activate (lines 179-188). *)
Definition exitSelection (w : World) (prevError : option error) (retry : bool)
    : M LoopCtl :=
  reconnect <-
    match prevError with
    | Some e =>
        if error_eqb e ErrLostConnection then ret true
        else if error_eqb e ErrCommandFailed
             then u <- get ;; _ <- deref (Sy u) ;; emit EvIsConnected ;;
                  ret (negb (w_IsConnected w))
             else ret false
    | None => ret false
    end ;;
  if (reconnect : bool)
  then emit (EvLogYellow reconnectBanner) ;;
       shutdown (w_shutdown w) ;;
       ret (Continue retry)
  else exitSend prevError ;; ret Return.

(** The body of the [for] of Activate from the ready banner on
    (lines 165-188): the Running state and what follows it. *)
Definition Activate_run (w : World) (state : TermState) (retry : bool)
    : M LoopCtl :=
  emit (EvPrintln " ✓  Files synchronized") ;;
  emit EvDisplayContext ;;
  go runCommand ;;
  prevError <- WaitUntilExitOrInterrupt (w_signals w) ;;
  emit (EvRestoreTerminal state) ;;
  exitSelection w prevError retry.

(** The body of the [for] of Activate from the synchronization on
    (lines 157-188). *)
Definition Activate_sync (w : World) (state : TermState) (retry : bool)
    : M LoopCtl :=
  emit (EvProgressStart "Synchronizing your files...") ;;
  err <- startSync w ;;
  emit EvProgressStop ;;
  match err with
  | Some e => exitSend (Some e) ;; ret Return
  | None => Activate_run w state retry
  end.

(** The body of the [for] of Activate (lines 134-188). *)
Definition Activate_body (w : World) (state : TermState) (retry : bool)
    : M LoopCtl :=
  u <- get ;;
  emit (EvWithCancel (ctxCounter u)) ;;
  modify (fun u => with_Context u (ctxCounter u)) ;;
  emit EvMakeChannels ;;
  modify with_Channels ;;
  err <- devMode w retry ;;
  match err with
  | Some e => exitSend (Some e) ;; ret Return
  | None =>
  let retry := true in
  u <- get ;;
  emit (EvNewPortForwardManager DevFwd (Context u)) ;;
  modify (fun u => with_DevForwarder u {| pfmContext := Context u |}) ;;
  err <- addForwards w (Forwards (dev u)) ;;
  match err with
  | Some e => exitSend (Some e) ;; ret Return
  | None =>
  emit (EvForwarderStart DevFwd (DevPod u) (Namespace (dev u))) ;;
  emit (EvPrintln " ✓  Okteto Environment activated") ;;
  Activate_sync w state retry
  end end.

(** The [for] of Activate: one [World] per iteration. *)
Fixpoint Activate_loop (state : TermState) (retry : bool) (ws : list World)
    : M unit :=
  match ws with
  | [] => outOfScript
  | w :: ws' =>
      c <- Activate_body w state retry ;;
      match c with
      | Continue retry' => Activate_loop state retry' ws'
      | Return => ret tt
      end
  end.

(** What the world answers to one run of Activate. *)
Record Script : Type := {
  s_SaveState : result TermState;
  s_worlds : list World
}.

(** UpContext.Activate *)
Definition Activate (sc : Script) : M unit :=
  emit EvSaveState ;;
  match s_SaveState sc with
  | Err err => exitSend (Some err)
  | Ok state => Activate_loop state false (s_worlds sc)
  end.

(** Which case the [select] of RunUp takes.  [StopFirst k now]: the
    interrupt is received when the Activate goroutine has performed [k] of
    its effects and the struct reads [now]. *)
Inductive TopSelect : Type :=
| StopFirst (k : nat) (now : UpContext)
| ExitFirst.

Record TopWorld : Type := {
  t_select : TopSelect;
  t_shutdown : ShutdownWorld
}.

(** The struct RunUp builds. *)
Definition newUpContext (d : Dev) : UpContext :=
  {| Context := None; Cancel := None; WG := Some MkWaitGroup; dev := d;
     DevPod := EmptyString; SyncPod := EmptyString; Container := EmptyString;
     DevForwarder := None; SyncForwarder := None;
     Channels := false; Exit := None; Sy := None; ctxCounter := 0 |}.

(** The Activate goroutine as seen by a RunUp that is interrupted. *)
Definition interruptedActivate (sc : Script) (k : nat) (now : UpContext) : M unit :=
  fun u => (map EvGo (firstn k (fst (Activate sc u))), Done tt now).

(** RunUp between the [defer] and the return (lines 106-120). *)
Definition RunUp_select (sc : Script) (top : TopWorld) : M (option error) :=
  emit EvSignalNotify ;;
  match t_select top with
  | StopFirst k now =>
      interruptedActivate sc k now ;;
      emit (EvPrintln EmptyString) ;;
      ret None
  | ExitFirst =>
      go (Activate sc) ;;
      u <- get ;;
      match Exit u with
      | None => blocked
      | Some err =>
          modify (fun u => with_Exit u None) ;;
          match err with
          | None => ret None
          | Some e => ret (Some e)
          end
      end
  end.

(** RunUp: the deferred shutdown runs when the function returns. *)
Definition RunUp (d : Dev) (sc : Script) (top : TopWorld)
    : list Event * Res (option error) :=
  (r <- RunUp_select sc top ;;
   shutdown (t_shutdown top) ;;
   ret r) (newUpContext d).

End Supervisor.

(** ** Reading traces *)

(** Every event a computation performs, from any state, satisfies [p]. *)
Definition emits_only {A} (p : Event -> Prop) (m : M A) : Prop :=
  forall u, Forall p (fst (m u)).

(** A computation returns from [u], performing only events that satisfy
    [ev], with a value and a state that satisfy [Q]. *)
Definition wp {A} (m : M A) (ev : Event -> Prop) (Q : A -> UpContext -> Prop)
    (u : UpContext) : Prop :=
  exists t a u', m u = (t, Done a u') /\ Forall ev t /\ Q a u'.

(** The events of shutdown, read off the struct. *)
Definition cancelEvents (u : UpContext) : list Event :=
  match Cancel u with
  | Some c => [EvCancel c]
  | None => []
  end.

Definition waiterEvents (sw : ShutdownWorld) (u : UpContext) : list Event :=
  match WG u, sw_drain sw with
  | None, _ => [EvGo EvCloseDone]
  | Some _, Some _ => [EvGo EvWGWait; EvGo EvCloseDone]
  | Some _, None => [EvGo EvWGWait]
  end.

Definition stopperEvents (u : UpContext) : list Event :=
  match DevForwarder u with
  | Some _ => [EvGo (EvForwarderStop DevFwd)]
  | None => []
  end ++
  match SyncForwarder u with
  | Some _ => [EvGo (EvForwarderStop SyncFwd)]
  | None => []
  end.

(** The events of one call of shutdown. *)
Definition shutdownEvents (sw : ShutdownWorld) (u : UpContext) : list Event :=
  cancelEvents u ++ waiterEvents sw u ++ stopperEvents u.

(** The instant at which the [done] channel of shutdown is closed. *)
Definition doneAt (sw : ShutdownWorld) (u : UpContext) : option nat :=
  match WG u with
  | None => Some 0
  | Some _ => sw_drain sw
  end.

(** The y/n question of devMode. *)
Definition isPrompt (e : Event) : bool :=
  match e with
  | EvAskYesNo _ => true
  | _ => false
  end.

(** Making a sandbox workload: the template, its creation in the cluster
    and its service. *)
Definition isSandbox (e : Event) : bool :=
  match e with
  | EvGevDevSandbox | EvDevModeOn true | EvServicesCreate => true
  | _ => false
  end.

(** The calls that write to the cluster. *)
Definition isMutation (e : Event) : bool :=
  match e with
  | EvSecretsCreate | EvVolumesCreate _ | EvDevModeOn _ | EvServicesCreate => true
  | _ => false
  end.

(** The signals that end the wait. *)
Definition isExitCause (s : Signal) : bool :=
  match s with
  | SigRunning _ | SigDisconnect => true
  | SigErrChan _ => false
  end.

Definition isExitRecv (e : Event) : bool :=
  match e with
  | EvRecv s => isExitCause s
  | _ => false
  end.

(** The calls of shutdown. *)
Definition isShutdownCall (e : Event) : bool :=
  match e with
  | EvCancel _ | EvGo EvWGWait | EvGo EvCloseDone | EvGo (EvForwarderStop _) => true
  | _ => false
  end.

(** The terminal discipline, read off a trace that follows the one
    [EvSaveState].  [pending]: the wait has been left and the terminal is
    not yet restored.  While pending only the newline of the wait may come
    before the restore; the restore is to [saved]; nothing saves again. *)
Fixpoint terminalScan (saved : TermState) (pending : bool) (t : list Event)
    : option bool :=
  match t with
  | [] => Some pending
  | e :: t' =>
      match e with
      | EvSaveState => None
      | EvRestoreTerminal st =>
          if pending && Nat.eqb st saved then terminalScan saved false t' else None
      | EvRecv s =>
          if pending then None
          else terminalScan saved (isExitCause s) t'
      | EvPrintln _ => terminalScan saved pending t'
      | _ => if pending then None else terminalScan saved false t'
      end
  end.

(** A computation whose trace, from any state, keeps the terminal
    discipline and leaves no restore pending. *)
Definition disciplined {A} (saved : TermState) (m : M A) : Prop :=
  forall u, terminalScan saved false (fst (m u)) = Some false.

(** Events that neither save nor restore the terminal nor receive from a
    channel of the wait. *)
Definition isQuiet (e : Event) : bool :=
  match e with
  | EvSaveState | EvRestoreTerminal _ | EvRecv _ => false
  | _ => true
  end.

Definition isRestore (e : Event) : bool :=
  match e with
  | EvRestoreTerminal _ => true
  | _ => false
  end.

(** The events up to the Running state. *)
Definition isSetup (e : Event) : bool :=
  match e with
  | EvDisplayContext | EvExitSend _ => false
  | e => isQuiet e && negb (isShutdownCall e)
  end.

(** The events of the Running state up to the wait. *)
Definition runningEvents (u : UpContext) : list Event :=
  [EvPrintln " ✓  Files synchronized"; EvDisplayContext;
   EvGo (EvExec reapCommand); EvGo (EvExec (Command (dev u)))].

(** What the wait does with values of the errors channel: each is
    received and logged. *)
Definition errLogs (es : list error) : list Event :=
  flat_map (fun e => [EvRecv (SigErrChan e); EvLogYellowErr e]) es.

(** The struct at the call of devMode in an iteration that starts from
    [u] (lines 134-137). *)
Definition atDevMode (u : UpContext) : UpContext :=
  with_Channels (with_Context u (ctxCounter u)).

Section Readings.

Context {P : Packages}.

(** The [Dev] devMode works with: the namespace of the cluster
    credentials fills an empty one (lines 220-222). *)
Definition effectiveDev (d : Dev) (namespace : string) : Dev :=
  if String.eqb (Namespace d) EmptyString then set_Namespace d namespace else d.

(** The wait returns [v] on a schedule, from any state and without
    touching it. *)
Definition waitReturns (signals : list Signal) (v : option error) : Prop :=
  forall u, snd (WaitUntilExitOrInterrupt signals u) = Done v u.

(** The condition of line 180 on what the wait returned. *)
Definition reconnects (w : World) (prevError : option error) : Prop :=
  prevError = Some ErrLostConnection \/
  (prevError = Some ErrCommandFailed /\ w_IsConnected w = false).

(** What Activate left on the [Exit] channel. *)
Definition exitDelivered (d : Dev) (sc : Script) : option (option error) :=
  match snd (Activate sc (newUpContext d)) with
  | Done _ u | Blocked u => Exit u
  | _ => None
  end.

(** The sync bring-up as the specification words it: the steps in order,
    each with the error the world answers to it ([None] also for the steps
    that return no error). *)
Definition syncPlan (w : World) (sy : Syncthing) (u : UpContext)
    : list (Event * option error) :=
  [ (EvSyRun, w_SyRun w);
    (EvNewPortForwardManager SyncFwd (Context u), None);
    (EvForwarderAdd SyncFwd (RemotePort sy) ClusterPort,
     w_SyncForwarderAdd w (RemotePort sy) ClusterPort);
    (EvForwarderAdd SyncFwd (RemoteGUIPort sy) GUIPort,
     w_SyncForwarderAdd w (RemoteGUIPort sy) GUIPort);
    (EvForwarderStart SyncFwd (SyncPod u) (Namespace (dev u)), None);
    (EvGo EvSyMonitor, None);
    (EvWaitForPing, w_WaitForPing w);
    (EvWaitForCompletion, w_WaitForCompletion w 0);
    (EvOverrideChanges, w_OverrideChanges w);
    (EvWaitForCompletion, w_WaitForCompletion w 1);
    (EvUpdateConfig "sendreceive", w_UpdateConfig w);
    (EvRestart, w_Restart w) ].

End Readings.

(** Performing a plan: each step starts when the one before it has
    answered without error; the first error ends the plan and is its
    result. *)
Fixpoint runPlan (plan : list (Event * option error)) : list Event * option error :=
  match plan with
  | [] => ([], None)
  | (e, Some err) :: _ => ([e], Some err)
  | (e, None) :: rest => let (t, r) := runPlan rest in (e :: t, r)
  end.

(** How many steps of a plan answer without error before the first one
    that fails. *)
Fixpoint okPrefix (plan : list (Event * option error)) : nat :=
  match plan with
  | (_, None) :: rest => S (okPrefix rest)
  | _ => 0
  end.

(** ** A concrete world, for examples *)

Definition demoNotFound : error := ErrExternal 404.

Definition demoPackages : Packages :=
  {| Deployment := bool;
     IsNotFound := fun e => error_eqb e demoNotFound;
     IsDevModeOn := fun d => d;
     GevDevSandbox := fun _ => false;
     GetVolumeDataName := fun d i => (Name d ++ "-data")%string;
     ClusterPort := 2200;
     GUIPort := 838 |}.

Definition demoDev : Dev :=
  {| Name := "web"; Namespace := EmptyString; Image := "node:16";
     DevContainer := EmptyString; Volumes := ["/data"];
     Forwards := [{| Local := 808; Remote := 80 |}];
     Command := ["sh"] |}.

Definition demoSy : Syncthing :=
  {| RemotePort := 2210; RemoteGUIPort := 848; Type_ := "sendonly" |}.

(** Everything succeeds; the workload exists and is in dev mode; the remote
    command exits cleanly. *)
Definition happyWorld : @World demoPackages :=
  @Build_World demoPackages
    (Ok "default")                 (* w_GetLocal *)
    (Ok demoSy)                    (* w_SyncthingNew *)
    (Ok true)                      (* w_DeploymentsGet *)
    false                          (* w_askYesNo *)
    None                           (* w_SecretsCreate *)
    (fun _ => None)                (* w_VolumesCreate *)
    (Ok "dev")                     (* w_DevModeOn *)
    None                           (* w_ServicesCreate *)
    (fun l => match l with
              | OktetoSyncLabel => Ok "web-sync"
              | OktetoDevLabel => Ok "web-dev"
              end)                 (* w_GetDevPod *)
    (fun _ _ => None)              (* w_DevForwarderAdd *)
    None                           (* w_SyRun *)
    (fun _ _ => None)              (* w_SyncForwarderAdd *)
    None                           (* w_WaitForPing *)
    (fun _ => None)                (* w_WaitForCompletion *)
    None                           (* w_OverrideChanges *)
    None                           (* w_UpdateConfig *)
    None                           (* w_Restart *)
    [SigRunning None]              (* w_signals *)
    true                           (* w_IsConnected *)
    {| sw_drain := Some 10; sw_tie := true |}.

(** [w] with another wait schedule and sync-engine health. *)
Definition with_signals (w : @World demoPackages) (s : list Signal) (connected : bool)
    : @World demoPackages :=
  @Build_World demoPackages
    (w_GetLocal w) (w_SyncthingNew w) (w_DeploymentsGet w) (w_askYesNo w)
    (w_SecretsCreate w) (w_VolumesCreate w) (w_DevModeOn w) (w_ServicesCreate w)
    (w_GetDevPod w) (w_DevForwarderAdd w) (w_SyRun w) (w_SyncForwarderAdd w)
    (w_WaitForPing w) (w_WaitForCompletion w) (w_OverrideChanges w)
    (w_UpdateConfig w) (w_Restart w) s connected (w_shutdown w).

(** [w] with another answer of deployments.Get and of the user. *)
Definition with_workload (w : @World demoPackages) (d : result bool) (answer : bool)
    : @World demoPackages :=
  @Build_World demoPackages
    (w_GetLocal w) (w_SyncthingNew w) d answer
    (w_SecretsCreate w) (w_VolumesCreate w) (w_DevModeOn w) (w_ServicesCreate w)
    (w_GetDevPod w) (w_DevForwarderAdd w) (w_SyRun w) (w_SyncForwarderAdd w)
    (w_WaitForPing w) (w_WaitForCompletion w) (w_OverrideChanges w)
    (w_UpdateConfig w) (w_Restart w) (w_signals w) (w_IsConnected w) (w_shutdown w).

(** [w] with another answer of the sync bring-up: the restart fails. *)
Definition with_Restart (w : @World demoPackages) (e : option error)
    : @World demoPackages :=
  @Build_World demoPackages
    (w_GetLocal w) (w_SyncthingNew w) (w_DeploymentsGet w) (w_askYesNo w)
    (w_SecretsCreate w) (w_VolumesCreate w) (w_DevModeOn w) (w_ServicesCreate w)
    (w_GetDevPod w) (w_DevForwarderAdd w) (w_SyRun w) (w_SyncForwarderAdd w)
    (w_WaitForPing w) (w_WaitForCompletion w) (w_OverrideChanges w)
    (w_UpdateConfig w) e (w_signals w) (w_IsConnected w) (w_shutdown w).

(** The dev manager refuses every forward. *)
Definition refusingWorld : @World demoPackages :=
  @Build_World demoPackages
    (w_GetLocal happyWorld) (w_SyncthingNew happyWorld) (w_DeploymentsGet happyWorld)
    (w_askYesNo happyWorld) (w_SecretsCreate happyWorld) (w_VolumesCreate happyWorld)
    (w_DevModeOn happyWorld) (w_ServicesCreate happyWorld) (w_GetDevPod happyWorld)
    (fun _ _ => Some (ErrExternal 5)) (w_SyRun happyWorld)
    (w_SyncForwarderAdd happyWorld) (w_WaitForPing happyWorld)
    (w_WaitForCompletion happyWorld) (w_OverrideChanges happyWorld)
    (w_UpdateConfig happyWorld) (w_Restart happyWorld) (w_signals happyWorld)
    (w_IsConnected happyWorld) (w_shutdown happyWorld).


(** The connection is lost while the command runs. *)
Definition reconnectWorld : @World demoPackages :=
  with_signals happyWorld [SigErrChan (ErrExternal 1); SigDisconnect] true.

(** The workload is absent and the user answers no. *)
Definition absentWorld : @World demoPackages :=
  with_workload happyWorld (Err demoNotFound) false.

(** The workload is there and not in dev mode. *)
Definition offWorld : @World demoPackages :=
  with_workload happyWorld (Ok false) false.

(** The restart of the sync engine fails. *)
Definition failingSync : @World demoPackages :=
  with_Restart happyWorld (Some (ErrExternal 9)).

(** The terminal state cannot be saved. *)
Definition noTerminal : @Script demoPackages :=
  {| s_SaveState := Err (ErrExternal 3); s_worlds := [] |}.

(** A wait-group that never drains. *)
Definition neverDrains : ShutdownWorld := {| sw_drain := None; sw_tie := false |}.

Definition demoTop : TopWorld :=
  {| t_select := ExitFirst; t_shutdown := {| sw_drain := None; sw_tie := false |} |}.

Definition demoScript (ws : list (@World demoPackages)) : @Script demoPackages :=
  {| s_SaveState := Ok 7; s_worlds := ws |}.

(** ** Scanning traces

    A protocol on the events of a trace is a partial transition function
    on a scanner state: [None] is a violation. *)
Section Scanning.

Variable S : Type.
Variable step : S -> Event -> option S.

Fixpoint scan (s : S) (t : list Event) : option S :=
  match t with
  | [] => Some s
  | e :: t' =>
      match step s e with
      | Some s' => scan s' t'
      | None => None
      end
  end.

(** From the scanner state [s] and the struct [u], the computation [m]
    keeps the protocol and does not panic; when it returns [Q] holds, when
    it blocks [B], when the script ends [O] - of the scanner state reached
    and of the struct left. *)
Definition sat {A} (m : M A) (Q : A -> S -> UpContext -> Prop)
    (B : S -> UpContext -> Prop) (O : S -> Prop) (s : S) (u : UpContext) : Prop :=
  match scan s (fst (m u)) with
  | None => False
  | Some s' =>
      match snd (m u) with
      | Done a u' => Q a s' u'
      | Blocked u' => B s' u'
      | Panic => False
      | OutOfScript => O s'
      end
  end.

End Scanning.

Arguments scan {S} step s t.
Arguments sat {S} step {A} m Q B O s u.

(** The post on the [Exit] channel. *)
Definition isPost (e : Event) : bool :=
  match e with
  | EvExitSend _ => true
  | _ => false
  end.

(** Protocol of the [Exit] channel: one post at most, and nothing after
    it.  The state is the value posted, if any: what the buffer of the
    channel holds. *)
Definition postStep (posted : option (option error)) (e : Event)
    : option (option (option error)) :=
  match posted, e with
  | Some _, _ => None
  | None, EvExitSend v => Some (Some v)
  | None, _ => Some None
  end.

(** Protocol of the progress bar: start and stop alternate, and the bar is
    stopped whenever something is printed or asked, the terminal is
    restored, the wait receives, a scope is cancelled or the result is
    posted.  The state tells whether the bar is running. *)
Definition spinnerStep (running : bool) (e : Event) : option bool :=
  match e with
  | EvProgressStart _ => if running then None else Some true
  | EvProgressStop => if running then Some false else None
  | EvAskYesNo _ | EvPrintln _ | EvDisplayContext | EvRecv _ | EvLogYellow _
  | EvLogYellowErr _ | EvRestoreTerminal _ | EvCancel _ | EvExitSend _ =>
      if running then None else Some false
  | _ => Some running
  end.

Definition optnat_eqb (a b : option nat) : bool :=
  match a, b with
  | Some x, Some y => Nat.eqb x y
  | None, None => true
  | _, _ => false
  end.

(** The calls of the supervisor's own goroutine that are given
    [up.Context]. *)
Definition takesContext (e : Event) : bool :=
  match e with
  | EvVolumesCreate _ | EvGetDevPod _ | EvSyRun | EvWaitForPing
  | EvWaitForCompletion | EvOverrideChanges | EvRestart => true
  | _ => false
  end.

(** Protocol of the scopes: each [context.WithCancel] makes the next
    fresh scope, which becomes the current one and is live; a cancel is of
    the current scope, which is live no more; a forwarder manager is built
    on the current scope, and only while it is live; a call that is given
    [up.Context] is made only while the current scope is live.  The state
    is the number of scopes made, the current scope and whether it is
    live. *)
Definition scopeStep (s : nat * option CtxId * bool) (e : Event)
    : option (nat * option CtxId * bool) :=
  let '(next, cur, live) := s in
  match e with
  | EvWithCancel c => if Nat.eqb c next then Some (S next, Some c, true) else None
  | EvNewPortForwardManager _ c => if optnat_eqb c cur && live then Some s else None
  | EvCancel c => if optnat_eqb (Some c) cur then Some (next, cur, false) else None
  | _ => if takesContext e && negb live then None else Some s
  end.

Section Consent.
Context {P : Packages}.

(** Protocol of the sandbox.  The state: iterations started; whether the
    user was asked already; whether the event before was the question and
    the user answered yes; whether a sandbox was made in this iteration;
    the world of this iteration, which holds the answer of the user, and
    the worlds of the iterations to come. *)
Record Consent : Type := {
  iterations : nat;
  asked : bool;
  agreed : bool;
  sandboxed : bool;
  current : option World;
  later : list World
}.

(** The question is asked once at most, in the first iteration; a sandbox
    is made only right after the question, and only when the answer was
    yes; the workload is created in the cluster ([DevModeOn] with create)
    exactly when a sandbox was made in this iteration, and the service
    only then. *)
Definition consentStep (s : Consent) (e : Event) : option Consent :=
  match e with
  | EvWithCancel _ =>
      match later s with
      | w :: rest =>
          Some {| iterations := S (iterations s); asked := asked s;
                  agreed := false; sandboxed := false;
                  current := Some w; later := rest |}
      | [] => None
      end
  | EvAskYesNo _ =>
      match current s with
      | Some w =>
          if Nat.eqb (iterations s) 1 && negb (asked s)
          then Some {| iterations := iterations s; asked := true;
                       agreed := w_askYesNo w; sandboxed := sandboxed s;
                       current := current s; later := later s |}
          else None
      | None => None
      end
  | EvGevDevSandbox =>
      if agreed s
      then Some {| iterations := iterations s; asked := asked s;
                   agreed := false; sandboxed := true;
                   current := current s; later := later s |}
      else None
  | EvDevModeOn create =>
      if Bool.eqb create (sandboxed s)
      then Some {| iterations := iterations s; asked := asked s;
                   agreed := false; sandboxed := sandboxed s;
                   current := current s; later := later s |}
      else None
  | EvServicesCreate =>
      if sandboxed s
      then Some {| iterations := iterations s; asked := asked s;
                   agreed := false; sandboxed := sandboxed s;
                   current := current s; later := later s |}
      else None
  | _ =>
      Some {| iterations := iterations s; asked := asked s;
              agreed := false; sandboxed := sandboxed s;
              current := current s; later := later s |}
  end.

End Consent.

(** Where a port-forward manager stands: not made in this iteration; made
    and still to be given the ports [pending], in that order; refused a
    port; started. *)
Inductive FwdPhase : Type :=
| NoManager
| Adding (pending : list (nat * nat))
| Refused
| Started.

Section Forwarding.
Context {P : Packages}.

(** The state of the protocol of the managers: the phase of each, the
    world of this iteration, which holds what [Add] answers, and the
    worlds of the iterations to come. *)
Record Forwarding : Type := {
  devPhase : FwdPhase;
  syncPhase : FwdPhase;
  fwdWorld : option World;
  fwdLater : list World
}.

Definition phaseOf (s : Forwarding) (k : Which) : FwdPhase :=
  match k with DevFwd => devPhase s | SyncFwd => syncPhase s end.

Definition setPhase (s : Forwarding) (k : Which) (p : FwdPhase) : Forwarding :=
  match k with
  | DevFwd => {| devPhase := p; syncPhase := syncPhase s;
                 fwdWorld := fwdWorld s; fwdLater := fwdLater s |}
  | SyncFwd => {| devPhase := devPhase s; syncPhase := p;
                  fwdWorld := fwdWorld s; fwdLater := fwdLater s |}
  end.

(** The ports a manager is to be given: the declared forwards for the dev
    manager; the two ports of the sync engine of this iteration for the
    sync manager. *)
Definition portsOf (fs : list Forward) (w : World) (k : Which)
    : option (list (nat * nat)) :=
  match k with
  | DevFwd => Some (map (fun f => (Local f, Remote f)) fs)
  | SyncFwd =>
      match w_SyncthingNew w with
      | Ok sy => Some [(RemotePort sy, ClusterPort); (RemoteGUIPort sy, GUIPort)]
      | Err _ => None
      end
  end.

(** What [Add] answers. *)
Definition addAnswer (w : World) (k : Which) (l r : nat) : option error :=
  match k with
  | DevFwd => w_DevForwarderAdd w l r
  | SyncFwd => w_SyncForwarderAdd w l r
  end.

(** Protocol of the managers, for the declared forwards [fs]: every
    iteration makes its managers anew; a manager is given its ports in
    their order, each one only when the one before was accepted; after a
    refusal it is given no other port and is not started; it is started
    only when all its ports were accepted, and once. *)
Definition forwarderStep (fs : list Forward) (s : Forwarding) (e : Event)
    : option Forwarding :=
  match e with
  | EvWithCancel _ =>
      match fwdLater s with
      | w :: rest =>
          Some {| devPhase := NoManager; syncPhase := NoManager;
                  fwdWorld := Some w; fwdLater := rest |}
      | [] => None
      end
  | EvNewPortForwardManager k _ =>
      match fwdWorld s with
      | Some w =>
          match portsOf fs w k with
          | Some ps => Some (setPhase s k (Adding ps))
          | None => None
          end
      | None => None
      end
  | EvForwarderAdd k l r =>
      match fwdWorld s with
      | Some w =>
          match phaseOf s k with
          | Adding ((l', r') :: rest) =>
              if Nat.eqb l l' && Nat.eqb r r'
              then Some (setPhase s k (match addAnswer w k l r with
                                       | None => Adding rest
                                       | Some _ => Refused
                                       end))
              else None
          | _ => None
          end
      | None => None
      end
  | EvForwarderStart k _ _ =>
      match phaseOf s k with
      | Adding [] => Some (setPhase s k Started)
      | _ => None
      end
  | _ => Some s
  end.

End Forwarding.

(** Protocol of the workload address, for a [Dev] [d]: every fetch of the
    workload is by the name and the namespace of [d], and every forwarder
    is started in the namespace of [d]. *)
Definition addressStep (d : Dev) (s : unit) (e : Event) : option unit :=
  match e with
  | EvDeploymentsGet name ns =>
      if String.eqb name (Name d) && String.eqb ns (Namespace d) then Some s else None
  | EvForwarderStart _ _ ns =>
      if String.eqb ns (Namespace d) then Some s else None
  | _ => Some s
  end.


(** What devMode and startSync leave as it is. *)
Definition sameScope (u u' : UpContext) : Prop :=
  Context u' = Context u /\ Cancel u' = Cancel u /\ ctxCounter u' = ctxCounter u.

(** Protocol of the teardown between iterations, on the calls of the
    supervisor's own goroutine.  The state is [None] before the first
    scope is made, then whether the scope made last is live.  A scope is
    made only when none is live; a cancel is of a live scope, which is live
    no more. *)
Definition teardownStep (s : option bool) (e : Event) : option (option bool) :=
  match e with
  | EvWithCancel _ =>
      match s with
      | Some true => None
      | _ => Some (Some true)
      end
  | EvCancel _ =>
      match s with
      | Some true => Some (Some false)
      | _ => None
      end
  | _ => Some s
  end.

Section Volumes.
Context {P : Packages}.

(** The persistent volumes of a [Dev], in the order of devMode
    (lines 256-264): the one under the name of the [Dev], then one per
    declared volume under the name [GetVolumeDataName] gives to its
    index. *)
Definition volumeNames (d : Dev) : list string :=
  Name d :: map (GetVolumeDataName d) (seq 0 (List.length (Volumes d))).

(** Protocol of the volumes of one call of devMode, for the [Dev] [d] it
    works with.  The state is the number of creations made and the error
    of the last one.  A volume is created only when no creation failed,
    and it is the next one of [volumeNames]; the workload is put in dev
    mode only when all of them were created without error. *)
Definition volumeStep (w : World) (d : Dev) (s : nat * option error) (e : Event)
    : option (nat * option error) :=
  let (made, failed) := s in
  match e with
  | EvVolumesCreate n =>
      match failed, nth_error (volumeNames d) made with
      | None, Some name =>
          if String.eqb n name then Some (S made, w_VolumesCreate w made) else None
      | _, _ => None
      end
  | EvDevModeOn _ =>
      match failed with
      | None => if Nat.eqb made (List.length (volumeNames d)) then Some s else None
      | Some _ => None
      end
  | _ => Some s
  end.

(** The [Dev] a call of devMode works with (lines 216-222). *)
Definition devOf (w : World) (u : UpContext) : Dev :=
  match w_GetLocal w with
  | Ok namespace => effectiveDev (dev u) namespace
  | Err _ => dev u
  end.

End Volumes.


(** The label under which the pod of a manager is looked up. *)
Definition labelOf (k : Which) : Label :=
  match k with DevFwd => OktetoDevLabel | SyncFwd => OktetoSyncLabel end.

Section Pods.
Context {P : Packages}.

(** Protocol of the pods.  The state is the world of the current
    iteration and the worlds of the iterations to come; each
    [context.WithCancel] starts the next iteration.  A manager is started
    on the pod that the lookup of this iteration answers under the label
    of that manager. *)
Definition podsStep (s : option World * list World) (e : Event)
    : option (option World * list World) :=
  match e with
  | EvWithCancel _ =>
      match snd s with
      | w :: rest => Some (Some w, rest)
      | [] => None
      end
  | EvForwarderStart k pod _ =>
      match fst s with
      | Some w =>
          match w_GetDevPod w (labelOf k) with
          | Ok p => if String.eqb pod p then Some s else None
          | Err _ => None
          end
      | None => None
      end
  | _ => Some s
  end.

End Pods.


(** ** The command

    The [RunE] of the cobra command that [Up] builds (lines 63-88). *)

(** The calls of [RunE], in program order; [CmdSupervisor e] is an event
    of RunUp. *)
Inductive CmdEvent : Type :=
| CmdLogDebug (msg : string)
| CmdUpgradeAvailable
| CmdLogYellowVersion (version : string)  (* "Okteto %s is available. To upgrade:" *)
| CmdLogYellowUpgradeCommand              (* "    %s", getUpgradeCommand() *)
| CmdPrintln (msg : string)
| CmdIsInstalled
| CmdDownloadSyncthing
| CmdLoadDev (devPath : string)
| CmdTrackUp (image : string)             (* with the VersionString of the package *)
| CmdSupervisor (e : Event).

(** How a call ends, for a caller that has no struct to look at. *)
Inductive Outcome (A : Type) : Type :=
| Returned (a : A)
| Panicked
| Hung
| ScriptEnded.
Arguments Returned {A} a.
Arguments Panicked {A}.
Arguments Hung {A}.
Arguments ScriptEnded {A}.

Definition outcome {A} (r : Res A) : Outcome A :=
  match r with
  | Done a _ => Returned a
  | Panic => Panicked
  | Blocked _ => Hung
  | OutOfScript => ScriptEnded
  end.

Section Command.
Context {P : Packages}.

(** What the world answers to one run of the command. *)
Record CmdWorld : Type := {
  c_upgradeAvailable : string;            (* upgradeAvailable() *)
  c_IsInstalled : bool;                   (* syncthing.IsInstalled() *)
  c_downloadSyncthing : option error;     (* downloadSyncthing() *)
  c_loadDev : string -> result Dev;       (* loadDev(devPath) *)
  c_script : Script;
  c_top : TopWorld
}.

(** Lines 65-70. *)
Definition upgradeNotice (cw : CmdWorld) : list CmdEvent :=
  CmdUpgradeAvailable ::
  if Nat.ltb 0 (String.length (c_upgradeAvailable cw))
  then [CmdLogYellowVersion (c_upgradeAvailable cw); CmdLogYellowUpgradeCommand;
        CmdPrintln EmptyString]
  else [].

(** Lines 72-77. *)
Definition installSyncthing (cw : CmdWorld) : list CmdEvent * option error :=
  if c_IsInstalled cw
  then ([CmdIsInstalled], None)
  else ([CmdIsInstalled; CmdPrintln "Installing dependencies..."; CmdDownloadSyncthing],
        match c_downloadSyncthing cw with
        | Some _ => Some (Errorf "couldn't download syncthing, please try again")
        | None => None
        end).

(** Lines 83-85: the flag, when given, replaces the namespace of the
    manifest. *)
Definition applyNamespace (namespace : string) (d : Dev) : Dev :=
  if negb (String.eqb namespace EmptyString) then set_Namespace d namespace else d.

(** [RunE], with the values of the two flags. *)
Definition Up_RunE (devPath namespace : string) (cw : CmdWorld)
    : list CmdEvent * Outcome (option error) :=
  let t0 := CmdLogDebug "starting up command" :: upgradeNotice cw in
  match installSyncthing cw with
  | (t1, Some err) => (t0 ++ t1, Returned (Some err))
  | (t1, None) =>
      match c_loadDev cw devPath with
      | Err err => (t0 ++ t1 ++ [CmdLoadDev devPath], Returned (Some err))
      | Ok d =>
          let d := applyNamespace namespace d in
          (t0 ++ t1 ++ [CmdLoadDev devPath; CmdTrackUp (Image d)] ++
           map CmdSupervisor (fst (RunUp d (c_script cw) (c_top cw))),
           outcome (snd (RunUp d (c_script cw) (c_top cw))))
      end
  end.

End Command.

(** The calls of the command that come from RunUp. *)
Definition isSupervisor (ev : CmdEvent) : bool :=
  match ev with
  | CmdSupervisor _ => true
  | _ => false
  end.

(** The calls of the command that read the manifest or report its
    image. *)
Definition isManifest (ev : CmdEvent) : bool :=
  match ev with
  | CmdLoadDev _ | CmdTrackUp _ => true
  | _ => false
  end.

(** An event of the command keeps to the workload [name] in [ns]: a fetch
    of the workload by the supervisor is by that name and namespace, and a
    forwarder is started by it in that namespace. *)
Definition targets (name ns : string) (ev : CmdEvent) : bool :=
  match ev with
  | CmdSupervisor (EvGo (EvDeploymentsGet n m)) => String.eqb n name && String.eqb m ns
  | CmdSupervisor (EvGo (EvForwarderStart _ _ m)) => String.eqb m ns
  | CmdSupervisor (EvDeploymentsGet _ _) | CmdSupervisor (EvForwarderStart _ _ _) => false
  | _ => true
  end.


(** ** printDisplayContext (lines 400-411) *)

(** The lines it prints: the message, the namespace, the name, one line
    per forward - the first one under the heading "Forward:" - and a
    blank line. *)
Inductive DisplayLine : Type :=
| DlSuccess (message : string)
| DlNamespace (namespace : string)
| DlName (name : string)
| DlForward (heading : bool) (local remote : nat)
| DlBlank.

(** [for i := i; i < len(ports); i++], the index expression [ports[i]]
    panicking ([None]) out of range. *)
Fixpoint displayForwards (ports : list Forward) (i fuel : nat)
    : option (list DisplayLine) :=
  match fuel with
  | 0 => Some []
  | S fuel' =>
      if Nat.ltb i (List.length ports)
      then match nth_error ports i with
           | Some f =>
               match displayForwards ports (S i) fuel' with
               | Some ls => Some (DlForward false (Local f) (Remote f) :: ls)
               | None => None
               end
           | None => None
           end
      else Some []
  end.

Definition printDisplayContext (message namespace name : string)
    (ports : list Forward) : option (list DisplayLine) :=
  match
    (if Nat.ltb 0 (List.length ports)
     then match nth_error ports 0 with
          | Some f =>
              match displayForwards ports 1 (List.length ports) with
              | Some ls => Some (DlForward true (Local f) (Remote f) :: ls)
              | None => None
              end
          | None => None
          end
     else Some [])
  with
  | Some ls =>
      Some (DlSuccess message :: DlNamespace namespace :: DlName name :: ls ++ [DlBlank])
  | None => None
  end.


(** ** A concrete command *)

(** A manifest that names its namespace. *)
Definition stagingDev : Dev := set_Namespace demoDev "staging".

(** Syncthing is installed, the manifest loads, the connection is lost
    once and the command then ends. *)
Definition demoCmd : @CmdWorld demoPackages :=
  {| c_upgradeAvailable := "1.2.3";
     c_IsInstalled := true;
     c_downloadSyncthing := None;
     c_loadDev := fun _ => Ok demoDev;
     c_script := demoScript [reconnectWorld; happyWorld];
     c_top := demoTop |}.

(** Syncthing is downloaded, and the terminal state cannot be saved. *)
Definition failingCmd : @CmdWorld demoPackages :=
  {| c_upgradeAvailable := EmptyString;
     c_IsInstalled := false;
     c_downloadSyncthing := None;
     c_loadDev := fun _ => Ok stagingDev;
     c_script := noTerminal;
     c_top := demoTop |}.


(** * Properties *)

Section Properties.

Context {P : Packages}.

(** ** The monad *)

Lemma prepend_nil {A} (x : list Event * Res A) : prepend [] x = x.
Proof. destruct x; reflexivity. Qed.

Lemma prepend_pair {A} t t' (r : Res A) : prepend t (t', r) = (t ++ t', r).
Proof. reflexivity. Qed.

Lemma prepend_prepend {A} t t' (x : list Event * Res A) :
  prepend t (prepend t' x) = prepend (t ++ t') x.
Proof. unfold prepend. cbn. now rewrite app_assoc. Qed.

Lemma bind_done {A B} (m : M A) (f : A -> M B) u t a u' :
  m u = (t, Done a u') ->
  bind m f u = prepend t (f a u').
Proof.
  intros H. unfold bind, prepend. rewrite H. destruct (f a u'); reflexivity.
Qed.

Lemma bind_emit {B} (e : Event) (k : unit -> M B) u :
  bind (emit e) k u = prepend [e] (k tt u).
Proof. now apply bind_done. Qed.

Lemma bind_ret {A B} (a : A) (k : A -> M B) u : bind (ret a) k u = k a u.
Proof. unfold bind, ret. destruct (k a u); reflexivity. Qed.

Lemma bind_get {B} (k : UpContext -> M B) u : bind get k u = k u u.
Proof. unfold bind, get. destruct (k u u); reflexivity. Qed.

Lemma bind_modify {B} (f : UpContext -> UpContext) (k : unit -> M B) u :
  bind (modify f) k u = k tt (f u).
Proof. unfold bind, modify. destruct (k tt (f u)); reflexivity. Qed.

Lemma bind_assoc {A B C} (m : M A) (f : A -> M B) (g : B -> M C) u :
  bind (bind m f) g u = bind m (fun a => bind (f a) g) u.
Proof.
  unfold bind. destruct (m u) as [t [a u'| |u'|]]; try reflexivity.
  destruct (f a u') as [t' [b u''| |u''|]]; try reflexivity.
  destruct (g b u''). now rewrite app_assoc.
Qed.

Ltac run :=
  repeat first
    [ rewrite bind_assoc
    | rewrite bind_emit
    | rewrite bind_get
    | rewrite bind_modify
    | rewrite bind_ret
    | rewrite prepend_prepend ].

(** ** The watchdog *)

Lemma select2_watchdog (d : option nat) (tie : bool) :
  exists how ms,
    select2 d TasksDone (Some watchdog) WatchdogFired tie = Some (ms, how) /\
    ms <= watchdog /\
    (d = None -> how = WatchdogFired /\ ms = watchdog) /\
    (forall t, d = Some t -> t < watchdog -> how = TasksDone /\ ms = t) /\
    (forall t, d = Some t -> watchdog < t -> how = WatchdogFired /\ ms = watchdog).
Proof.
  unfold select2. destruct d as [t|].
  - destruct (Nat.ltb_spec t watchdog) as [Hlt|Hge].
    + exists TasksDone, t. split; [reflexivity|].
      repeat split; try lia; try congruence; inversion H; subst; lia.
    + destruct (Nat.ltb_spec watchdog t) as [Hgt|Hle].
      * exists WatchdogFired, watchdog. split; [reflexivity|].
        repeat split; try lia; try congruence; inversion H; subst; lia.
      * assert (t = watchdog) by lia. subst t.
        destruct tie; [exists TasksDone, watchdog | exists WatchdogFired, watchdog];
          (split; [reflexivity|]);
          repeat split; try lia; try congruence; inversion H; subst; lia.
  - exists WatchdogFired, watchdog. split; [reflexivity|].
    repeat split; try lia; congruence.
Qed.

(** shutdown as a function of the struct and of the drain instant. *)
Lemma shutdown_run (sw : ShutdownWorld) (u : UpContext) :
  shutdown sw u =
    (cancelEvents u ++ waiterEvents sw u ++ stopperEvents u,
     match select2 (doneAt sw u) TasksDone (Some watchdog) WatchdogFired (sw_tie sw) with
     | Some (t, how) => Done (how, t) u
     | None => Blocked u
     end).
Proof.
  unfold shutdown, cancelEvents, waiterEvents, stopperEvents, doneAt.
  rewrite bind_get.
  unfold call_Cancel, WG_Wait, Forwarder_Stop, deref, go, bind, emit, ret, get,
    panic, blocked.
  destruct (Cancel u), (WG u), (sw_drain sw), (DevForwarder u), (SyncForwarder u);
    cbn [map app fst snd];
    match goal with
    | |- context [select2 ?d _ _ _ _] =>
        destruct (select2 d TasksDone (Some watchdog) WatchdogFired (sw_tie sw))
          as [[ms how]|]
    end; reflexivity.
Qed.

Lemma shutdown_returns (sw : ShutdownWorld) (u : UpContext) :
  exists how ms,
    shutdown sw u =
      (cancelEvents u ++ waiterEvents sw u ++ stopperEvents u, Done (how, ms) u) /\
    ms <= watchdog.
Proof.
  rewrite shutdown_run.
  destruct (select2_watchdog (doneAt sw u) (sw_tie sw)) as (how & ms & E & Hle & _).
  rewrite E. eauto.
Qed.

(** ** shutdown *)

(** C4. shutdown always returns, at most one second (the watchdog) after
    it was called, whatever the struct holds and whether or not the
    wait-group ever drains: it cancels the scope first, the wait on the
    group and the stops of the forwarders run in goroutines of their own,
    and when the group never drains the watchdog ends it at one second.  A
    second call returns as well, within the same bound. *)
Theorem C4_shutdown_always_returns (sw sw2 : ShutdownWorld) (u : UpContext) :
  watchdog = 1000 /\
  (exists t how ms,
     shutdown sw u = (t, Done (how, ms) u) /\
     ms <= watchdog /\
     t = cancelEvents u ++ waiterEvents sw u ++ stopperEvents u /\
     (forall c, Cancel u = Some c -> exists t', t = EvCancel c :: t') /\
     (WG u <> None -> sw_drain sw = None -> how = WatchdogFired /\ ms = watchdog) /\
     (forall d, WG u <> None -> sw_drain sw = Some d -> d < watchdog ->
        how = TasksDone /\ ms = d) /\
     (forall d, WG u <> None -> sw_drain sw = Some d -> watchdog < d ->
        how = WatchdogFired /\ ms = watchdog)) /\
  (exists t how ms,
     (shutdown sw ;; shutdown sw2) u = (t, Done (how, ms) u) /\
     ms <= watchdog).
Proof.
  split; [reflexivity|]. split.
  - rewrite shutdown_run.
    destruct (select2_watchdog (doneAt sw u) (sw_tie sw))
      as (how & ms & E & Hle & Hnone & Hlt & Hgt).
    rewrite E. exists (cancelEvents u ++ waiterEvents sw u ++ stopperEvents u), how, ms.
    split; [reflexivity|]. split; [exact Hle|]. split; [reflexivity|].
    unfold doneAt in *.
    split; [|split; [|split]].
    + intros c Hc. unfold cancelEvents. rewrite Hc. cbn. eauto.
    + intros Hwg Hd. destruct (WG u); [|congruence]. now apply Hnone.
    + intros d Hwg Hd Hlt'. destruct (WG u); [|congruence]. now apply (Hlt d).
    + intros d Hwg Hd Hgt'. destruct (WG u); [|congruence]. now apply (Hgt d).
  - destruct (shutdown_returns sw u) as (how1 & ms1 & E1 & _).
    destruct (shutdown_returns sw2 u) as (how2 & ms2 & E2 & Hle2).
    rewrite (bind_done _ _ _ _ _ _ E1), E2, prepend_pair. eauto.
Qed.

(** What RunUp returns is what its [select] statement selected: the
    deferred shutdown returns. *)
Lemma RunUp_returns (d : Dev) (sc : Script) (top : TopWorld) r u1 :
  snd (RunUp_select sc top (newUpContext d)) = Done r u1 ->
  exists t, RunUp d sc top = (t, Done r u1).
Proof.
  intros H. unfold RunUp.
  destruct (RunUp_select sc top (newUpContext d)) as [t0 r0] eqn:E0.
  cbn in H. subst r0.
  rewrite (bind_done _ _ _ _ _ _ E0).
  destruct (shutdown_returns (t_shutdown top) u1) as (how & ms & E & _).
  rewrite (bind_done _ _ _ _ _ _ E). unfold ret. rewrite !prepend_pair. eauto.
Qed.

Lemma RunUp_select_stop (sc : Script) (top : TopWorld) k now u :
  t_select top = StopFirst k now ->
  RunUp_select sc top u =
    (EvSignalNotify :: map EvGo (firstn k (fst (Activate sc u))) ++ [EvPrintln EmptyString],
     Done None now).
Proof.
  intros H. unfold RunUp_select. rewrite H, bind_emit.
  unfold interruptedActivate, bind, emit, ret, prepend. cbn. reflexivity.
Qed.

(** C10. shutdown never dereferences a nil field: from any struct it ends
    without a panic, skipping the cancel when [Cancel] is nil, the wait when
    [WG] is nil and the stop of a forwarder that is nil; the calls it guards
    do panic on nil.  So the deferred shutdown of RunUp returns from the
    struct RunUp has just built, and from whatever struct the interrupt
    finds. *)
Theorem C10_shutdown_nil_safe (sw : ShutdownWorld) (u : UpContext) :
  snd (shutdown sw u) <> Panic /\
  (Cancel u = None -> forall c, ~ In (EvCancel c) (fst (shutdown sw u))) /\
  (WG u = None -> ~ In (EvGo EvWGWait) (fst (shutdown sw u))) /\
  (DevForwarder u = None ->
     ~ In (EvGo (EvForwarderStop DevFwd)) (fst (shutdown sw u))) /\
  (SyncForwarder u = None ->
     ~ In (EvGo (EvForwarderStop SyncFwd)) (fst (shutdown sw u))) /\
  (snd (call_Cancel None u) = Panic /\
   (forall d, snd (WG_Wait None d u) = Panic) /\
   (forall k, snd (Forwarder_Stop k None u) = Panic)) /\
  (forall d, exists how ms,
     shutdown sw (newUpContext d) =
       (waiterEvents sw (newUpContext d), Done (how, ms) (newUpContext d))) /\
  (forall d sc top k now,
     t_select top = StopFirst k now ->
     exists u', snd (RunUp d sc top) = Done None u').
Proof.
  destruct (shutdown_returns sw u) as (how & ms & E & _).
  rewrite E. cbn [fst snd].
  split; [discriminate|].
  split.
  { intros H c Hin. unfold cancelEvents, waiterEvents, stopperEvents in Hin.
    rewrite H in Hin.
    destruct (WG u), (sw_drain sw), (DevForwarder u), (SyncForwarder u);
      cbn in Hin; intuition discriminate. }
  split.
  { intros H Hin. unfold cancelEvents, waiterEvents, stopperEvents in Hin.
    rewrite H in Hin.
    destruct (Cancel u), (sw_drain sw), (DevForwarder u), (SyncForwarder u);
      cbn in Hin; intuition discriminate. }
  split.
  { intros H Hin. unfold cancelEvents, waiterEvents, stopperEvents in Hin.
    rewrite H in Hin.
    destruct (Cancel u), (WG u), (sw_drain sw), (SyncForwarder u);
      cbn in Hin; intuition discriminate. }
  split.
  { intros H Hin. unfold cancelEvents, waiterEvents, stopperEvents in Hin.
    rewrite H in Hin.
    destruct (Cancel u), (WG u), (sw_drain sw), (DevForwarder u);
      cbn in Hin; intuition discriminate. }
  split.
  { repeat split. }
  split.
  { intros d. destruct (shutdown_returns sw (newUpContext d)) as (how' & ms' & E' & _).
    exists how', ms'. rewrite E'. unfold cancelEvents, stopperEvents. cbn.
    now rewrite app_nil_r. }
  intros d sc top k now Hsel.
  assert (Hs : snd (RunUp_select sc top (newUpContext d)) = Done None now)
    by (rewrite (RunUp_select_stop sc top k now _ Hsel); reflexivity).
  destruct (RunUp_returns d sc top None now Hs) as (t' & E').
  rewrite E'. cbn. eauto.
Qed.


(** ** Rules for [emits_only] *)

Lemma emits_only_ret {A} p (a : A) : emits_only p (ret a).
Proof. intros u. constructor. Qed.

Lemma emits_only_get p : emits_only p get.
Proof. intros u. constructor. Qed.

Lemma emits_only_modify p f : emits_only p (modify f).
Proof. intros u. constructor. Qed.

Lemma emits_only_panic {A} p : emits_only p (@panic A).
Proof. intros u. constructor. Qed.

Lemma emits_only_blocked {A} p : emits_only p (@blocked A).
Proof. intros u. constructor. Qed.

Lemma emits_only_outOfScript {A} p : emits_only p (@outOfScript A).
Proof. intros u. constructor. Qed.

Lemma emits_only_emit (p : Event -> Prop) e : p e -> emits_only p (emit e).
Proof. intros H u. cbn. auto. Qed.

Lemma emits_only_bind {A B} p (m : M A) (f : A -> M B) :
  emits_only p m -> (forall a, emits_only p (f a)) -> emits_only p (bind m f).
Proof.
  intros Hm Hf u. unfold bind. specialize (Hm u).
  destruct (m u) as [t [a u'| |u'|]]; cbn in *; auto.
  specialize (Hf a u'). destruct (f a u') as [t' r]. cbn in *.
  apply Forall_app; auto.
Qed.

Lemma emits_only_deref {A} p (x : option A) : emits_only p (deref x).
Proof. destruct x; [apply emits_only_ret | apply emits_only_panic]. Qed.

Lemma emits_only_go {A} (p : Event -> Prop) (body : M A) :
  emits_only (fun e => p (EvGo e)) body -> emits_only p (go body).
Proof.
  intros H u. unfold go. specialize (H u).
  destruct (body u) as [t [a u'| |u'|]]; cbn in *; now apply Forall_map.
Qed.

Lemma emits_only_weaken {A} (p q : Event -> Prop) (m : M A) :
  (forall e, p e -> q e) -> emits_only p m -> emits_only q m.
Proof. intros H Hm u. eapply Forall_impl; [exact H | apply Hm]. Qed.

Ltac eo_step :=
  first
    [ apply emits_only_ret
    | apply emits_only_get
    | apply emits_only_modify
    | apply emits_only_panic
    | apply emits_only_blocked
    | apply emits_only_outOfScript
    | apply emits_only_deref
    | apply emits_only_emit; solve [ reflexivity | intuition discriminate | cbn; auto ]
    | apply emits_only_bind; [ | intros ]
    | match goal with
      | |- emits_only _ (if _ || true then _ else _) => rewrite orb_true_r
      | |- emits_only _ (if _ || false then _ else _) => rewrite orb_false_r
      | |- emits_only _ (if true then _ else _) => cbv iota
      | |- emits_only _ (if false then _ else _) => cbv iota
      | |- emits_only _ (match ?x with _ => _ end) => destruct x
      end ].

Ltac eo := repeat eo_step.

(** ** Rules for [wp] *)

Lemma wp_ret {A} ev (Q : A -> UpContext -> Prop) (a : A) u :
  Q a u -> wp (ret a) ev Q u.
Proof. intros H. exists [], a, u. auto. Qed.

Lemma wp_get ev (Q : UpContext -> UpContext -> Prop) u :
  Q u u -> wp get ev Q u.
Proof. intros H. exists [], u, u. auto. Qed.

Lemma wp_modify ev (Q : unit -> UpContext -> Prop) f u :
  Q tt (f u) -> wp (modify f) ev Q u.
Proof. intros H. exists [], tt, (f u). auto. Qed.

Lemma wp_emit (ev : Event -> Prop) (Q : unit -> UpContext -> Prop) e u :
  ev e -> Q tt u -> wp (emit e) ev Q u.
Proof. intros He H. exists [e], tt, u. auto. Qed.

Lemma wp_bind {A B} ev (Q : B -> UpContext -> Prop) (m : M A) (f : A -> M B) u :
  wp m ev (fun a u' => wp (f a) ev Q u') u -> wp (bind m f) ev Q u.
Proof.
  intros (t & a & u' & E & Ht & t' & b & u'' & E' & Ht' & HQ).
  exists (t ++ t'), b, u''. rewrite (bind_done _ _ _ _ _ _ E), E', prepend_pair.
  repeat split; auto. apply Forall_app; auto.
Qed.

Lemma wp_shutdown (ev : Event -> Prop) (Q : ShutdownExit * nat -> UpContext -> Prop) sw u :
  (forall e, isShutdownCall e = true -> ev e) ->
  (forall r, Q r u) ->
  wp (shutdown sw) ev Q u.
Proof.
  intros Hev HQ. destruct (shutdown_returns sw u) as (how & ms & E & _).
  exists (cancelEvents u ++ waiterEvents sw u ++ stopperEvents u), (how, ms), u.
  repeat split; auto.
  unfold cancelEvents, waiterEvents, stopperEvents.
  destruct (Cancel u), (WG u), (sw_drain sw), (DevForwarder u), (SyncForwarder u);
    cbn; repeat constructor; apply Hev; reflexivity.
Qed.

Lemma wp_createDataVolumes (ev : Event -> Prop) (Q : option error -> UpContext -> Prop)
    w d vs i u :
  (forall n, ev (EvVolumesCreate n)) ->
  (forall r, Q r u) ->
  wp (createDataVolumes w d i vs) ev Q u.
Proof.
  intros Hev HQ. revert i. induction vs as [|v vs IH]; intros i; cbn.
  - now apply wp_ret.
  - apply wp_bind, wp_emit; auto.
    destruct (w_VolumesCreate w (S i)); [now apply wp_ret | apply IH].
Qed.

Lemma wp_addForwards (ev : Event -> Prop) (Q : option error -> UpContext -> Prop)
    w fs u :
  (forall l r, ev (EvForwarderAdd DevFwd l r)) ->
  (forall r, Q r u) ->
  wp (addForwards w fs) ev Q u.
Proof.
  intros Hev HQ. induction fs as [|f fs IH]; cbn.
  - now apply wp_ret.
  - apply wp_bind, wp_emit; auto.
    destruct (w_DevForwarderAdd w (Local f) (Remote f)); [now apply wp_ret | apply IH].
Qed.

Lemma emits_only_createDataVolumes (p : Event -> Prop) w d vs i :
  (forall n, p (EvVolumesCreate n)) ->
  emits_only p (createDataVolumes w d i vs).
Proof.
  intros Hp. revert i. induction vs as [|v vs IH]; intros i; cbn.
  - apply emits_only_ret.
  - apply emits_only_bind; [now apply emits_only_emit|intros _].
    destruct (w_VolumesCreate w (S i)); [apply emits_only_ret | apply IH].
Qed.

Lemma emits_only_addForwards (p : Event -> Prop) w fs :
  (forall l r, p (EvForwarderAdd DevFwd l r)) ->
  emits_only p (addForwards w fs).
Proof.
  intros Hp. induction fs as [|f fs IH]; cbn.
  - apply emits_only_ret.
  - apply emits_only_bind; [now apply emits_only_emit|intros _].
    destruct (w_DevForwarderAdd w (Local f) (Remote f)); [apply emits_only_ret | apply IH].
Qed.

Lemma emits_only_shutdown (p : Event -> Prop) sw :
  (forall e, isShutdownCall e = true -> p e) ->
  emits_only p (shutdown sw).
Proof.
  intros Hp u. destruct (wp_shutdown p (fun _ _ => True) sw u Hp)
    as (t & a & u' & E & Ht & _); auto.
  now rewrite E.
Qed.


(** ** devMode *)

Ltac eo_full :=
  repeat first
    [ apply emits_only_createDataVolumes; intros; cbn; solve [ auto | intuition discriminate ]
    | apply emits_only_addForwards; intros; cbn; solve [ auto | intuition discriminate ]
    | apply emits_only_shutdown;
      let e := fresh "e" in
      intros e; destruct e; cbn; try discriminate;
      solve [ auto
            | match goal with
              | e' : Event |- _ => destruct e'; cbn; solve [ discriminate | auto ]
              end ]
    | eo_step ].

(** devMode up to the answer of deployments.Get. *)
Lemma devMode_to_Get (w : World) (isRetry : bool) (u : UpContext) ns sy :
  w_GetLocal w = Ok ns ->
  w_SyncthingNew w = Ok sy ->
  let d := effectiveDev (dev u) ns in
  let u1 := with_Sy (with_dev u d) (Some sy) in
  devMode w isRetry u =
    prepend [EvGetLocal; EvSyncthingNew; EvDeploymentsGet (Name d) (Namespace d)]
      (match w_DeploymentsGet w with
       | Err err =>
           if negb (IsNotFound err) || isRetry then ret (Some err)
           else
             emit (EvAskYesNo (sandboxQuestion d)) ;;
             if negb (w_askYesNo w)
             then ret (Some (Errorf (notFoundMessage d)))
             else
               emit EvGevDevSandbox ;;
               devMode_activate w isRetry (GevDevSandbox d) true
       | Ok dep => devMode_activate w isRetry dep false
       end u1).
Proof.
  intros Hl Hs d u1. unfold devMode. rewrite Hl, Hs. subst d u1.
  unfold effectiveDev. run.
  destruct (String.eqb (Namespace (dev u)) EmptyString); run; reflexivity.
Qed.

(** On a retry devMode neither asks nor makes a sandbox. *)
Lemma devMode_retry_no_sandbox (w : World) :
  emits_only (fun e => isPrompt e = false /\ isSandbox e = false) (devMode w true).
Proof.
  unfold devMode, devMode_activate, devMode_apply. eo_full.
Qed.

(** On a retry, a workload that is no longer in dev mode ends devMode
    between the start and the stop of the progress bar. *)
Lemma devMode_activate_deactivated (w : World) (d : Deployment) (create : bool) u :
  IsDevModeOn d = false ->
  devMode_activate w true d create u =
    ([EvProgressStart "Activating your Okteto Environment..."; EvProgressStop],
     Done (Some (Errorf "Your Okteto Environment has been deactivated")) u).
Proof.
  intros H. unfold devMode_activate. rewrite H. cbn [andb negb]. run. reflexivity.
Qed.

(** On a first attempt the dev-mode check is skipped: the secret is the
    next call after the progress bar. *)
Lemma devMode_activate_first (w : World) (d : Deployment) (create : bool) u :
  exists t r,
    devMode_activate w false d create u =
      (EvProgressStart "Activating your Okteto Environment..." :: EvSecretsCreate :: t, r).
Proof.
  unfold devMode_activate. cbn [andb]. run. unfold devMode_apply. run.
  match goal with
  | |- context [prepend _ ?x] => destruct x as [t r]
  end.
  rewrite prepend_pair. cbn. eauto.
Qed.


(** ** The loop of Activate *)

Lemma Activate_body_devMode_fails (w : World) state retry u t e u1 :
  devMode w retry (atDevMode u) = (t, Done (Some e) u1) ->
  Exit u1 = None ->
  Activate_body w state retry u =
    ([EvWithCancel (ctxCounter u); EvMakeChannels] ++ t ++ [EvExitSend (Some e)],
     Done Return (with_Exit u1 (Some (Some e)))).
Proof.
  intros H HE. unfold Activate_body. run.
  unfold atDevMode in H. rewrite (bind_done _ _ _ _ _ _ H).
  unfold exitSend. run. rewrite HE. run.
  unfold ret, prepend. cbn. now rewrite app_nil_r.
Qed.

Lemma Activate_loop_Return (w : World) ws state retry u t u' :
  Activate_body w state retry u = (t, Done Return u') ->
  Activate_loop state retry (w :: ws) u = (t, Done tt u').
Proof.
  intros H. cbn [Activate_loop]. rewrite (bind_done _ _ _ _ _ _ H).
  unfold ret, prepend. cbn. now rewrite app_nil_r.
Qed.

Lemma Activate_loop_Continue (w : World) ws state retry retry' u t u' :
  Activate_body w state retry u = (t, Done (Continue retry') u') ->
  Activate_loop state retry (w :: ws) u = prepend t (Activate_loop state retry' ws u').
Proof.
  intros H. cbn [Activate_loop]. now rewrite (bind_done _ _ _ _ _ _ H).
Qed.

(** C9. The workload is absent, it is the first attempt and the user
    answers no: devMode has made four calls (credentials, sync engine, the
    GET of the workload, the question) and returns the "not found" error;
    the supervisor posts that error on [Exit] and returns without another
    iteration; no call that writes to the cluster (secret, volume, dev
    mode, service) is in the trace. *)
Theorem C9_declined_sandbox_no_mutation (w : World) (state : TermState)
    (u : UpContext) (ws : list World) ns sy err :
  w_GetLocal w = Ok ns ->
  w_SyncthingNew w = Ok sy ->
  w_DeploymentsGet w = Err err ->
  IsNotFound err = true ->
  w_askYesNo w = false ->
  let d := effectiveDev (dev u) ns in
  let fatal := Errorf (notFoundMessage d) in
  let calls := [EvGetLocal; EvSyncthingNew; EvDeploymentsGet (Name d) (Namespace d);
                EvAskYesNo (sandboxQuestion d)] in
  devMode w false u = (calls, Done (Some fatal) (with_Sy (with_dev u d) (Some sy))) /\
  existsb isMutation calls = false /\
  (Exit u = None ->
   exists u',
     Activate_loop state false (w :: ws) u =
       ([EvWithCancel (ctxCounter u); EvMakeChannels] ++ calls ++ [EvExitSend (Some fatal)],
        Done tt u') /\
     Exit u' = Some (Some fatal)).
Proof.
  intros Hl Hs Hg Hnf Hask d fatal calls.
  assert (Hdev : forall v, dev v = dev u ->
            devMode w false v = (calls, Done (Some fatal) (with_Sy (with_dev v d) (Some sy)))).
  { intros v Hv. rewrite (devMode_to_Get w false v ns sy Hl Hs), Hg, Hnf, Hv.
    cbn [negb orb]. run. rewrite Hask. cbn [negb]. reflexivity. }
  split; [now apply Hdev|]. split; [reflexivity|].
  intros HE. eexists. split.
  - apply Activate_loop_Return.
    apply Activate_body_devMode_fails; [now apply Hdev | exact HE].
  - reflexivity.
Qed.


(** C5. On a retry, when the fetch of the workload answers NotFound,
    devMode returns that error right after the fetch - no question to the
    user, no sandbox - and the supervisor posts it on [Exit] and returns;
    and in every run of devMode the question to the user and the making of
    a sandbox workload occur on a first attempt only. *)
Theorem C5_retry_not_found_is_fatal (w : World) (state : TermState)
    (u : UpContext) (ws : list World) ns sy err :
  w_GetLocal w = Ok ns ->
  w_SyncthingNew w = Ok sy ->
  w_DeploymentsGet w = Err err ->
  IsNotFound err = true ->
  let d := effectiveDev (dev u) ns in
  let calls := [EvGetLocal; EvSyncthingNew; EvDeploymentsGet (Name d) (Namespace d)] in
  devMode w true u = (calls, Done (Some err) (with_Sy (with_dev u d) (Some sy))) /\
  (Exit u = None ->
   exists u',
     Activate_loop state true (w :: ws) u =
       ([EvWithCancel (ctxCounter u); EvMakeChannels] ++ calls ++ [EvExitSend (Some err)],
        Done tt u') /\
     Exit u' = Some (Some err)) /\
  (forall (w' : World) (isRetry : bool) (u' : UpContext) (e : Event),
     In e (fst (devMode w' isRetry u')) ->
     isPrompt e = true \/ isSandbox e = true ->
     isRetry = false).
Proof.
  intros Hl Hs Hg Hnf d calls.
  assert (Hdev : forall v, dev v = dev u ->
            devMode w true v = (calls, Done (Some err) (with_Sy (with_dev v d) (Some sy)))).
  { intros v Hv. rewrite (devMode_to_Get w true v ns sy Hl Hs), Hg, Hv.
    rewrite orb_true_r. reflexivity. }
  split; [now apply Hdev|]. split.
  - intros HE. eexists. split.
    + apply Activate_loop_Return.
      apply Activate_body_devMode_fails; [now apply Hdev | exact HE].
    + reflexivity.
  - intros w' isRetry u' e Hin He. destruct isRetry; [exfalso|reflexivity].
    pose proof (devMode_retry_no_sandbox w' u') as Hall.
    rewrite Forall_forall in Hall. destruct (Hall e Hin) as [Hp Hsb].
    destruct He; congruence.
Qed.

(** C6. On a retry, when the workload is there but not in dev mode,
    devMode returns the "deactivated" error between the start and the stop
    of the progress bar, before any call that writes to the cluster, and
    the supervisor posts it on [Exit] and returns.  On a first attempt the
    check is not made: with the same workload the secret is created right
    after the progress bar starts. *)
Theorem C6_retry_requires_dev_mode (w : World) (state : TermState)
    (u : UpContext) (ws : list World) ns sy dep :
  w_GetLocal w = Ok ns ->
  w_SyncthingNew w = Ok sy ->
  w_DeploymentsGet w = Ok dep ->
  IsDevModeOn dep = false ->
  let d := effectiveDev (dev u) ns in
  let deactivated := Errorf "Your Okteto Environment has been deactivated" in
  let fetched := [EvGetLocal; EvSyncthingNew; EvDeploymentsGet (Name d) (Namespace d);
                  EvProgressStart "Activating your Okteto Environment..."] in
  devMode w true u =
    (fetched ++ [EvProgressStop],
     Done (Some deactivated) (with_Sy (with_dev u d) (Some sy))) /\
  existsb isMutation (fetched ++ [EvProgressStop]) = false /\
  (Exit u = None ->
   exists u',
     Activate_loop state true (w :: ws) u =
       ([EvWithCancel (ctxCounter u); EvMakeChannels] ++ fetched ++
        [EvProgressStop; EvExitSend (Some deactivated)],
        Done tt u') /\
     Exit u' = Some (Some deactivated)) /\
  (exists t r, devMode w false u = (fetched ++ EvSecretsCreate :: t, r)).
Proof.
  intros Hl Hs Hg Hoff d deactivated fetched.
  assert (Hdev : forall v, dev v = dev u ->
            devMode w true v =
              (fetched ++ [EvProgressStop],
               Done (Some deactivated) (with_Sy (with_dev v d) (Some sy)))).
  { intros v Hv. rewrite (devMode_to_Get w true v ns sy Hl Hs), Hg, Hv.
    rewrite (devMode_activate_deactivated w dep false _ Hoff). reflexivity. }
  split; [now apply Hdev|]. split; [reflexivity|]. split.
  - intros HE. eexists. split.
    + apply Activate_loop_Return.
      rewrite (Activate_body_devMode_fails w state true u _ deactivated _
                 (Hdev (atDevMode u) eq_refl) HE).
      reflexivity.
    + reflexivity.
  - rewrite (devMode_to_Get w false u ns sy Hl Hs), Hg.
    destruct (devMode_activate_first w dep false (with_Sy (with_dev u d) (Some sy)))
      as (t & r & E).
    fold d. rewrite E, prepend_pair. exists t, r. reflexivity.
Qed.


(** ** startSync *)

Lemma bind_go_emit {B} (e : Event) (k : option unit -> M B) u :
  bind (go (emit e)) k u = prepend [EvGo e] (k (Some tt) u).
Proof. now apply bind_done. Qed.

(** startSync performs the plan. *)
Lemma startSync_plan (w : World) (u : UpContext) (sy : Syncthing) :
  Sy u = Some sy ->
  exists u',
    startSync w u =
      (fst (runPlan (syncPlan w sy u)), Done (snd (runPlan (syncPlan w sy u))) u') /\
    Exit u' = Exit u /\
    Sy u' <> None /\
    (snd (runPlan (syncPlan w sy u)) = None ->
     Sy u' = Some (set_Type sy "sendreceive") /\
     SyncForwarder u' = Some {| pfmContext := Context u |}) /\
    Sy u' = Some (if Nat.ltb (okPrefix (syncPlan w sy u)) 10
                  then sy else set_Type sy "sendreceive").
Proof.
  intros HSy. unfold startSync, syncPlan. run. rewrite HSy. unfold deref. run.
  cbn [runPlan].
  repeat match goal with
         | |- context [match ?x with Some _ => _ | None => _ end] =>
             destruct x; run; try rewrite bind_go_emit; run;
             cbn [Sy with_Sy deref]; run
         end.
  all: unfold ret; rewrite ?prepend_pair; cbn [fst snd app].
  all: eexists; (split; [reflexivity|]); cbn; rewrite ?HSy; repeat split; congruence.
Qed.


(** A plan that fails has performed the steps before the failing one,
    which all answered without error, then the failing step, and nothing
    after it. *)
Lemma runPlan_failure (plan : list (Event * option error)) (e : error) :
  snd (runPlan plan) = Some e ->
  exists pre step post,
    plan = pre ++ (step, Some e) :: post /\
    Forall (fun s => snd s = None) pre /\
    fst (runPlan plan) = map fst pre ++ [step].
Proof.
  induction plan as [|[step [err|]] rest IH]; cbn; intros H.
  - discriminate.
  - inversion H; subst. exists [], step, rest. cbn. auto.
  - destruct (runPlan rest) as [t r] eqn:E. cbn in *.
    destruct (IH H) as (pre & step' & post & -> & Hpre & Ht).
    exists ((step, None) :: pre), step', post. cbn. rewrite Ht. auto.
Qed.

(** A plan that succeeds has performed all its steps, in order. *)
Lemma runPlan_success (plan : list (Event * option error)) :
  snd (runPlan plan) = None ->
  fst (runPlan plan) = map fst plan /\ Forall (fun s => snd s = None) plan.
Proof.
  induction plan as [|[step [err|]] rest IH]; cbn; intros H.
  - auto.
  - discriminate.
  - destruct (runPlan rest) as [t r] eqn:E. cbn in *.
    destruct (IH H) as [-> Hall]. auto.
Qed.

(** C7. The sync bring-up performs the steps of the plan in their order:
    launch of the agent, the sync forwarder (made, two ports added,
    started) and the monitor, wait for ping, wait for the first completion,
    override of the remote changes, wait for the second completion, update
    of the configuration (now send-receive), restart.  A step starts only
    when every step before it has answered without error; when all do, all
    twelve calls are made and the mode is send-receive; when one fails,
    startSync returns the error of that step and starts no later step, and
    the supervisor stops the progress bar, posts that error on [Exit] and
    returns without another iteration.  The switch of the mode is between
    the second completion and the update of the configuration: the update
    is called on an engine whose [Type] reads send-receive, and whenever
    startSync ends the engine is in send-receive mode exactly when the ten
    steps up to the second completion all answered without error - a
    failure up to there leaves the mode as it was. *)
Theorem C7_sync_bring_up_order (w : World) (state : TermState) (retry : bool)
    (u : UpContext) (sy : Syncthing) :
  Sy u = Some sy ->
  let plan := syncPlan w sy u in
  map fst plan =
    [EvSyRun;
     EvNewPortForwardManager SyncFwd (Context u);
     EvForwarderAdd SyncFwd (RemotePort sy) ClusterPort;
     EvForwarderAdd SyncFwd (RemoteGUIPort sy) GUIPort;
     EvForwarderStart SyncFwd (SyncPod u) (Namespace (dev u));
     EvGo EvSyMonitor;
     EvWaitForPing; EvWaitForCompletion; EvOverrideChanges; EvWaitForCompletion;
     EvUpdateConfig "sendreceive"; EvRestart] /\
  (exists u',
     startSync w u = (fst (runPlan plan), Done (snd (runPlan plan)) u') /\
     (snd (runPlan plan) = None ->
      fst (runPlan plan) = map fst plan /\
      Forall (fun s => snd s = None) plan /\
      Sy u' = Some (set_Type sy "sendreceive")) /\
     Sy u' = Some (if Nat.ltb (okPrefix plan) 10
                   then sy else set_Type sy "sendreceive") /\
     Type_ (set_Type sy "sendreceive") = "sendreceive") /\
  (forall e,
     snd (runPlan plan) = Some e ->
     (exists pre step post,
        plan = pre ++ (step, Some e) :: post /\
        Forall (fun s => snd s = None) pre /\
        fst (startSync w u) = map fst pre ++ [step]) /\
     (Exit u = None ->
      exists u',
        Activate_sync w state retry u =
          (EvProgressStart "Synchronizing your files..." :: fst (startSync w u) ++
           [EvProgressStop; EvExitSend (Some e)],
           Done Return u') /\
        Exit u' = Some (Some e))).
Proof.
  intros HSy plan.
  destruct (startSync_plan w u sy HSy) as (u' & E & HE & _ & Hok & Hmode).
  fold plan in E, Hok, Hmode.
  split; [reflexivity|]. split.
  - exists u'. split; [exact E|]. split; [|split; [exact Hmode|reflexivity]].
    intros Hnone.
    destruct (runPlan_success plan Hnone) as [Ht Hall].
    destruct (Hok Hnone) as [Hsy _]. auto.
  - intros e He. split.
    + destruct (runPlan_failure plan e He) as (pre & step & post & Hp & Hpre & Ht).
      exists pre, step, post. rewrite E. cbn [fst]. auto.
    + intros HEu. rewrite He in E. rewrite E. cbn [fst].
      exists (with_Exit u' (Some (Some e))). split; [|reflexivity].
      unfold Activate_sync. run. rewrite (bind_done _ _ _ _ _ _ E). run.
      unfold exitSend. run. rewrite HE, HEu. run.
      unfold ret. rewrite !prepend_pair. cbn [app].
      rewrite app_nil_r, <- (app_assoc (fst (runPlan plan))). reflexivity.
Qed.


(** ** WaitUntilExitOrInterrupt *)

Lemma Wait_errors (es : list error) (rest : list Signal) (u : UpContext) :
  WaitUntilExitOrInterrupt (map SigErrChan es ++ rest) u =
    prepend (errLogs es) (WaitUntilExitOrInterrupt rest u).
Proof.
  induction es as [|e es IH]; cbn [map app errLogs flat_map].
  - now rewrite prepend_nil.
  - cbn [WaitUntilExitOrInterrupt]. run. rewrite IH. run. reflexivity.
Qed.

(** The wait leaves the struct as it is, and receives at most one exit
    cause: exactly one when it returns, none when it blocks. *)
Lemma Wait_run (signals : list Signal) (u : UpContext) :
  (exists v, snd (WaitUntilExitOrInterrupt signals u) = Done v u /\
             List.length (filter isExitRecv (fst (WaitUntilExitOrInterrupt signals u))) = 1) \/
  (snd (WaitUntilExitOrInterrupt signals u) = Blocked u /\
   List.length (filter isExitRecv (fst (WaitUntilExitOrInterrupt signals u))) = 0).
Proof.
  induction signals as [|s signals IH]; cbn [WaitUntilExitOrInterrupt].
  - right. auto.
  - run. destruct s as [[e|]|e|]; run.
    + left. exists (Some ErrCommandFailed). auto.
    + left. exists None. auto.
    + destruct IH as [(v & Hv & Hn)|[Hb Hn]]; [left; exists v|right];
        destruct (WaitUntilExitOrInterrupt signals u); cbn in *; auto.
    + left. exists (Some ErrLostConnection). auto.
Qed.

(** C2. Whatever values of the errors channel come first (each is
    received, logged and the wait goes on), the wait returns nil when the
    running channel then delivers nil, CommandFailed when it delivers an
    error, LostConnection when the disconnect channel fires; what the
    schedule holds after that first exit cause is not received.  With
    values of the errors channel only, the wait never returns.  On every
    schedule at most one exit cause is received. *)
Theorem C2_wait_results (es : list error) (rest : list Signal) (u : UpContext)
    (e : error) (signals : list Signal) :
  WaitUntilExitOrInterrupt (map SigErrChan es ++ SigRunning None :: rest) u =
    (errLogs es ++ [EvRecv (SigRunning None); EvPrintln EmptyString], Done None u) /\
  WaitUntilExitOrInterrupt (map SigErrChan es ++ SigRunning (Some e) :: rest) u =
    (errLogs es ++ [EvRecv (SigRunning (Some e)); EvPrintln EmptyString],
     Done (Some ErrCommandFailed) u) /\
  WaitUntilExitOrInterrupt (map SigErrChan es ++ SigDisconnect :: rest) u =
    (errLogs es ++ [EvRecv SigDisconnect], Done (Some ErrLostConnection) u) /\
  WaitUntilExitOrInterrupt (map SigErrChan es) u = (errLogs es, Blocked u) /\
  List.length (filter isExitRecv (fst (WaitUntilExitOrInterrupt signals u))) <= 1 /\
  (returned (snd (WaitUntilExitOrInterrupt signals u)) <> None <->
   List.length (filter isExitRecv (fst (WaitUntilExitOrInterrupt signals u))) = 1).
Proof.
  repeat split.
  - rewrite Wait_errors. cbn [WaitUntilExitOrInterrupt]. run.
    unfold ret. rewrite prepend_pair, app_nil_r, <- ?app_assoc. reflexivity.
  - rewrite Wait_errors. cbn [WaitUntilExitOrInterrupt]. run.
    unfold ret. rewrite prepend_pair, app_nil_r, <- ?app_assoc. reflexivity.
  - rewrite Wait_errors. cbn [WaitUntilExitOrInterrupt]. run.
    unfold ret. rewrite prepend_pair, app_nil_r, <- ?app_assoc. reflexivity.
  - rewrite <- (app_nil_r (map SigErrChan es)), Wait_errors.
    cbn [WaitUntilExitOrInterrupt]. unfold blocked, prepend. cbn.
    now rewrite !app_nil_r.
  - destruct (Wait_run signals u) as [(v & _ & ->)|[_ ->]]; lia.
  - destruct (Wait_run signals u) as [(v & Hv & Hn)|[Hb Hn]]; intros; auto.
    rewrite Hb in H. now cbn in H.
  - destruct (Wait_run signals u) as [(v & Hv & Hn)|[Hb Hn]]; intros.
    + rewrite Hv. discriminate.
    + rewrite Hn in H. discriminate.
Qed.


(** ** RunUp *)

Lemma bind_go {A B} (body : M A) (k : option A -> M B) u :
  bind (go body) k u =
    match body u with
    | (t, Done a u') => prepend (map EvGo t) (k (Some a) u')
    | (t, Panic) => (map EvGo t, Panic)
    | (t, Blocked u') => prepend (map EvGo t) (k None u')
    | (t, OutOfScript) => (map EvGo t, OutOfScript)
    end.
Proof.
  unfold bind, go, prepend.
  destruct (body u) as [t [a u'| |u'|]]; try reflexivity.
  - destruct (k (Some a) u'); reflexivity.
  - destruct (k None u'); reflexivity.
Qed.

Lemma RunUp_select_exit (d : Dev) (sc : Script) (top : TopWorld) :
  t_select top = ExitFirst ->
  match exitDelivered d sc with
  | Some v => exists u1, snd (RunUp_select sc top (newUpContext d)) = Done v u1
  | None => returned (snd (RunUp_select sc top (newUpContext d))) = None
  end.
Proof.
  intros H. unfold RunUp_select, exitDelivered. rewrite H, bind_emit, bind_go.
  destruct (Activate sc (newUpContext d)) as [t [a u1| |u1|]]; cbn [snd fst];
    try reflexivity.
  - run. destruct (Exit u1) as [[e|]|]; run; cbn; eauto.
  - run. destruct (Exit u1) as [[e|]|]; run; cbn; eauto.
Qed.

(** C8. RunUp takes one of the two cases of its [select].  When the
    interrupt is taken, RunUp returns nil, at whatever point the supervisor
    is.  When the [Exit] channel is taken, RunUp returns the value the
    supervisor posted: nil for nil, the error for an error.  With no
    interrupt and nothing posted RunUp does not return. *)
Theorem C8_top_level_select (d : Dev) (sc : Script) (top : TopWorld) :
  (forall k now,
     t_select top = StopFirst k now ->
     exists u', snd (RunUp d sc top) = Done None u') /\
  (t_select top = ExitFirst ->
   exitDelivered d sc = Some None ->
   exists u', snd (RunUp d sc top) = Done None u') /\
  (forall e,
     t_select top = ExitFirst ->
     exitDelivered d sc = Some (Some e) ->
     exists u', snd (RunUp d sc top) = Done (Some e) u') /\
  (t_select top = ExitFirst ->
   exitDelivered d sc = None ->
   returned (snd (RunUp d sc top)) = None).
Proof.
  split; [|split; [|split]].
  - intros k now Hsel.
    assert (Hs : snd (RunUp_select sc top (newUpContext d)) = Done None now)
      by (rewrite (RunUp_select_stop sc top k now _ Hsel); reflexivity).
    destruct (RunUp_returns d sc top None now Hs) as (t' & E').
    rewrite E'. cbn. eauto.
  - intros Hsel Hv. pose proof (RunUp_select_exit d sc top Hsel) as H.
    rewrite Hv in H. destruct H as (u1 & H1).
    destruct (RunUp_returns d sc top _ _ H1) as (t' & E').
    rewrite E'. cbn. eauto.
  - intros e Hsel Hv. pose proof (RunUp_select_exit d sc top Hsel) as H.
    rewrite Hv in H. destruct H as (u1 & H1).
    destruct (RunUp_returns d sc top _ _ H1) as (t' & E').
    rewrite E'. cbn. eauto.
  - intros Hsel Hv. pose proof (RunUp_select_exit d sc top Hsel) as H.
    rewrite Hv in H. unfold RunUp, bind.
    destruct (RunUp_select sc top (newUpContext d)) as [t [a u1| |u1|]];
      cbn in *; try reflexivity; discriminate.
Qed.


(** ** The set-up of an iteration *)

Ltac wp_step :=
  cbv beta;
  first
    [ apply wp_ret
    | apply wp_get
    | apply wp_modify
    | apply wp_emit; [ reflexivity | ]
    | apply wp_bind
    | apply wp_createDataVolumes; [ intros; reflexivity | intros ]
    | apply wp_addForwards; [ intros; reflexivity | intros ]
    | match goal with
      | |- wp (match ?x with _ => _ end) _ _ _ => destruct x
      end ].

(** devMode returns; it leaves the [Exit] channel as it is, and when it
    succeeds the sync engine handle is set. *)
Lemma devMode_wp (w : World) (isRetry : bool) (u : UpContext) :
  wp (devMode w isRetry) (fun e => isSetup e = true)
     (fun err u' => Exit u' = Exit u /\ (err = None -> Sy u' <> None)) u.
Proof.
  unfold devMode, devMode_activate, devMode_apply.
  repeat wp_step; cbn; split; congruence.
Qed.

Lemma startSync_setup (w : World) :
  emits_only (fun e => isSetup e = true) (startSync w).
Proof.
  unfold startSync. eo_full.
Qed.

Lemma startSync_wp (w : World) (u : UpContext) :
  Sy u <> None ->
  wp (startSync w) (fun e => isSetup e = true)
     (fun err u' => Exit u' = Exit u /\ Sy u' <> None) u.
Proof.
  intros HSy. destruct (Sy u) as [sy|] eqn:E; [|congruence].
  destruct (startSync_plan w u sy E) as (u' & Hrun & HE & HS & _).
  eexists _, _, u'. split; [exact Hrun|]. split; [|auto].
  pose proof (startSync_setup w u) as H. now rewrite Hrun in H.
Qed.

Lemma bind_wp {A B} (m : M A) (f : A -> M B) ev Q u :
  wp m ev Q u ->
  exists t a u', bind m f u = prepend t (f a u') /\ Forall ev t /\ Q a u'.
Proof.
  intros (t & a & u' & E & Ht & HQ). exists t, a, u'.
  rewrite (bind_done _ _ _ _ _ _ E). auto.
Qed.

(** An iteration either fails during its set-up, posts the error and
    returns, or reaches the Running state with an empty [Exit] channel and
    a sync engine handle. *)
Lemma Activate_body_cases (w : World) (state : TermState) (retry : bool) (u : UpContext) :
  Exit u = None ->
  (exists t e u',
     Activate_body w state retry u = (t ++ [EvExitSend (Some e)], Done Return u') /\
     Forall (fun e => isSetup e = true) t /\
     Exit u' = Some (Some e)) \/
  (exists t u1,
     Activate_body w state retry u = prepend t (Activate_run w state true u1) /\
     Forall (fun e => isSetup e = true) t /\
     Exit u1 = None /\ Sy u1 <> None).
Proof.
  intros HE. unfold Activate_body. run.
  destruct (bind_wp (devMode w retry)
              (fun err => match err with
                          | Some e => exitSend (Some e) ;; ret Return
                          | None =>
                              let retry := true in
                              u <- get ;;
                              emit (EvNewPortForwardManager DevFwd (Context u)) ;;
                              modify (fun u => with_DevForwarder u {| pfmContext := Context u |}) ;;
                              err <- addForwards w (Forwards (dev u)) ;;
                              match err with
                              | Some e => exitSend (Some e) ;; ret Return
                              | None =>
                                  emit (EvForwarderStart DevFwd (DevPod u) (Namespace (dev u))) ;;
                                  emit (EvPrintln " ✓  Okteto Environment activated") ;;
                                  Activate_sync w state retry
                              end
                          end) _ _ _ (devMode_wp w retry (atDevMode u)))
    as (t1 & err1 & u1 & E1 & Ht1 & HE1 & HS1).
  unfold atDevMode in E1. rewrite E1. clear E1. cbn in HE1. rewrite HE in HE1.
  destruct err1 as [e|].
  { left. exists ([EvWithCancel (ctxCounter u); EvMakeChannels] ++ t1), e,
      (with_Exit u1 (Some (Some e))).
    unfold exitSend. run. rewrite HE1. run.
    unfold ret. rewrite prepend_pair, app_nil_r.
    repeat split. repeat constructor. exact Ht1. }
  specialize (HS1 eq_refl). cbv zeta. run.
  match goal with
  | |- context [bind (addForwards w ?fs) ?k ?v] =>
      destruct (bind_wp (addForwards w fs) k (fun e => isSetup e = true)
                  (fun _ u' => u' = v) v) as (t2 & err2 & u2 & E2 & Ht2 & ->)
  end.
  { apply wp_addForwards; [reflexivity|reflexivity]. }
  rewrite E2. clear E2. run.
  destruct err2 as [e|].
  { left. eexists _, e, _. unfold exitSend. run. cbn [Exit with_DevForwarder].
    rewrite HE1. run. unfold ret. rewrite prepend_pair, app_nil_r.
    split; [reflexivity|]. split; [|reflexivity].
    repeat (apply Forall_app; split); auto; repeat constructor. }
  run. unfold Activate_sync. run.
  match goal with
  | |- context [bind (startSync w) ?k ?v] =>
      destruct (bind_wp (startSync w) k _ _ v (startSync_wp w v HS1))
        as (t3 & err3 & u3 & E3 & Ht3 & HE3 & HS3)
  end.
  rewrite E3. clear E3. run. cbn [Exit with_DevForwarder] in HE3. rewrite HE1 in HE3.
  destruct err3 as [e|].
  { left. eexists _, e, _. unfold exitSend. run. rewrite HE3. run.
    unfold ret. rewrite prepend_pair, app_nil_r.
    split; [reflexivity|]. split; [|reflexivity].
    repeat (apply Forall_app; split); auto; repeat constructor. }
  right. eexists _, u3. split; [reflexivity|]. split; [|auto].
  repeat (apply Forall_app; split); auto; repeat constructor.
Qed.


(** ** The exit selection *)

(** Lines 179-188 from a struct with a sync engine handle and an empty
    [Exit] channel.  [asked]: the sync engine was asked whether it is
    connected, which happens for CommandFailed only. *)
Lemma exitSelection_run (w : World) (prevError : option error) (retry : bool)
    (u : UpContext) :
  Sy u <> None ->
  Exit u = None ->
  let asked := match prevError with
               | Some ErrCommandFailed => [EvIsConnected]
               | _ => []
               end in
  (reconnects w prevError /\
   exitSelection w prevError retry u =
     (asked ++ EvLogYellow reconnectBanner :: shutdownEvents (w_shutdown w) u,
      Done (Continue retry) u)) \/
  (~ reconnects w prevError /\
   exitSelection w prevError retry u =
     (asked ++ [EvExitSend prevError], Done Return (with_Exit u (Some prevError)))).
Proof.
  intros HSy HE asked.
  destruct (Sy u) as [sy|] eqn:ESy; [clear HSy|congruence].
  destruct (shutdown_returns (w_shutdown w) u) as (how & ms & Esh & _).
  fold (shutdownEvents (w_shutdown w) u) in Esh.
  unfold exitSelection, reconnects. subst asked.
  destruct prevError as [[| |m|c]|]; cbn [error_eqb]; run; cbv iota.
  - left. split; [auto|]. run. rewrite (bind_done _ _ _ _ _ _ Esh). unfold ret.
    rewrite !prepend_pair, app_nil_r. reflexivity.
  - rewrite ESy. unfold deref. run.
    destruct (w_IsConnected w); cbn [negb]; cbv iota.
    + right. split; [intros [H|[_ H]]; discriminate|].
      unfold exitSend. run. rewrite HE. run. reflexivity.
    + left. split; [auto|]. run. rewrite (bind_done _ _ _ _ _ _ Esh). unfold ret.
      rewrite !prepend_pair, app_nil_r. reflexivity.
  - right. split; [intros [H|[H _]]; discriminate|].
    unfold exitSend. run. rewrite HE. run. reflexivity.
  - right. split; [intros [H|[H _]]; discriminate|].
    unfold exitSend. run. rewrite HE. run. reflexivity.
  - right. split; [intros [H|[H _]]; discriminate|].
    unfold exitSend. run. rewrite HE. run. reflexivity.
Qed.

(** Lines 165-177: up to the restore of the terminal. *)
Lemma Activate_run_to_restore (w : World) (state : TermState) (retry : bool)
    (u : UpContext) :
  Activate_run w state retry u =
    prepend (runningEvents u)
      (bind (WaitUntilExitOrInterrupt (w_signals w))
         (fun prevError =>
            emit (EvRestoreTerminal state) ;; exitSelection w prevError retry) u).
Proof.
  unfold Activate_run. run. rewrite bind_go. unfold runCommand. run.
  unfold prepend at 2. cbn [fst snd]. unfold prepend at 2. cbn [fst snd].
  unfold ret. cbn [fst snd app map]. run. reflexivity.
Qed.

(** What the wait does depends on the schedule only. *)
Lemma Wait_value (signals : list Signal) :
  (exists v, waitReturns signals v) \/
  (forall u, snd (WaitUntilExitOrInterrupt signals u) = Blocked u).
Proof.
  unfold waitReturns.
  induction signals as [|s signals IH]; cbn [WaitUntilExitOrInterrupt].
  - right. reflexivity.
  - destruct s as [[e|]|e|].
    + left. exists (Some ErrCommandFailed). intros u. run. reflexivity.
    + left. exists None. intros u. run. reflexivity.
    + destruct IH as [(v & Hv)|Hb]; [left; exists v|right]; intros u; run;
        unfold prepend; cbn [snd]; auto.
    + left. exists (Some ErrLostConnection). intros u. run. reflexivity.
Qed.

(** Lines 165-188 from a struct with a sync engine handle and an empty
    [Exit] channel, when the wait returns. *)
Lemma Activate_run_returns (w : World) (state : TermState) (retry : bool)
    (u : UpContext) (prevError : option error) :
  Sy u <> None ->
  Exit u = None ->
  waitReturns (w_signals w) prevError ->
  let asked := match prevError with
               | Some ErrCommandFailed => [EvIsConnected]
               | _ => []
               end in
  exists t0,
    (reconnects w prevError /\
     Activate_run w state retry u =
       (t0 ++ EvRestoreTerminal state :: asked ++
          EvLogYellow reconnectBanner :: shutdownEvents (w_shutdown w) u,
        Done (Continue retry) u)) \/
    (~ reconnects w prevError /\
     Activate_run w state retry u =
       (t0 ++ EvRestoreTerminal state :: asked ++ [EvExitSend prevError],
        Done Return (with_Exit u (Some prevError)))).
Proof.
  intros HSy HE Hw. rewrite Activate_run_to_restore.
  specialize (Hw u).
  destruct (WaitUntilExitOrInterrupt (w_signals w) u) as [tw rw] eqn:Ew.
  cbn in Hw. subst rw. rewrite (bind_done _ _ _ _ _ _ Ew). run.
  exists (runningEvents u ++ tw).
  destruct (exitSelection_run w prevError retry u HSy HE) as [[Hr E]|[Hr E]];
    rewrite E, prepend_pair; [left|right]; (split; [exact Hr|]);
    now rewrite <- !app_assoc.
Qed.


Lemma Activate_run_blocks (w : World) (state : TermState) (retry : bool) (u : UpContext) :
  (forall v, snd (WaitUntilExitOrInterrupt (w_signals w) v) = Blocked v) ->
  returned (snd (Activate_run w state retry u)) = None.
Proof.
  intros Hb. rewrite Activate_run_to_restore. unfold prepend. cbn [snd].
  unfold bind. specialize (Hb u).
  destruct (WaitUntilExitOrInterrupt (w_signals w) u) as [tw rw].
  cbn in Hb. subst rw. reflexivity.
Qed.

(** C1. Take any iteration of the loop that starts with an empty [Exit]
    channel, reaches the Running state and ends.  The wait has returned
    some [prevError], and the iteration ends in [continue] exactly when
    [prevError] is LostConnection, or is CommandFailed while the sync
    engine says it is not connected: then the last thing the iteration did
    is the banner and the shutdown, nothing is posted on [Exit], and the
    loop goes on with the next iteration, as a retry.  In every other case
    (nil included) the last thing the iteration did is to post [prevError]
    on [Exit], and the loop returns without another iteration. *)
Theorem C1_exit_selection (w : World) (state : TermState) (retry : bool)
    (u : UpContext) (ws : list World) (t : list Event) (c : LoopCtl)
    (u' : UpContext) :
  Exit u = None ->
  Activate_body w state retry u = (t, Done c u') ->
  In EvDisplayContext t ->
  exists prevError,
    waitReturns (w_signals w) prevError /\
    (reconnects w prevError <-> c = Continue true) /\
    (~ reconnects w prevError <-> c = Return) /\
    (c = Continue true ->
       Exit u' = None /\
       (exists t0, t = t0 ++ EvLogYellow reconnectBanner ::
                       shutdownEvents (w_shutdown w) u') /\
       Activate_loop state retry (w :: ws) u =
         prepend t (Activate_loop state true ws u')) /\
    (c = Return ->
       Exit u' = Some prevError /\
       (exists t0, t = t0 ++ [EvExitSend prevError]) /\
       Activate_loop state retry (w :: ws) u = (t, Done tt u')).
Proof.
  intros HE Hbody Hin.
  destruct (Activate_body_cases w state retry u HE)
    as [(t0 & e & u0 & E & Hs & _)|(t1 & u1 & E & Hs & HE1 & HS1)].
  { exfalso. rewrite E in Hbody. inversion Hbody; subst.
    apply in_app_or in Hin. destruct Hin as [Hin|[Hin|[]]]; [|discriminate].
    rewrite Forall_forall in Hs. specialize (Hs _ Hin). discriminate. }
  destruct (Wait_value (w_signals w)) as [(v & Hv)|Hb].
  2:{ exfalso. pose proof (Activate_run_blocks w state true u1 Hb) as Hn.
      rewrite E in Hbody. unfold prepend in Hbody. inversion Hbody as [[Ht Hr]].
      rewrite Hr in Hn. discriminate. }
  exists v. split; [exact Hv|].
  destruct (Activate_run_returns w state true u1 v HS1 HE1 Hv)
    as (t0 & [[Hr Er]|[Hr Er]]);
    rewrite E, Er, prepend_pair in Hbody; inversion Hbody; subst; clear Hbody.
  - split; [tauto|]. split; [split; [tauto|discriminate]|].
    split; [|discriminate]. intros _. split; [exact HE1|]. split.
    + exists (t1 ++ t0 ++ EvRestoreTerminal state ::
                match v with Some ErrCommandFailed => [EvIsConnected] | _ => [] end).
      rewrite <- !app_assoc. cbn [app]. reflexivity.
    + apply Activate_loop_Continue. now rewrite E, Er, prepend_pair.
  - split; [split; [tauto|discriminate]|]. split; [tauto|].
    split; [discriminate|]. intros _. split; [reflexivity|]. split.
    + exists (t1 ++ t0 ++ EvRestoreTerminal state ::
                match v with Some ErrCommandFailed => [EvIsConnected] | _ => [] end).
      rewrite <- !app_assoc. cbn [app]. reflexivity.
    + apply Activate_loop_Return. now rewrite E, Er, prepend_pair.
Qed.


(** ** The terminal *)

Lemma terminalScan_app (saved : TermState) (t1 t2 : list Event) (p : bool) :
  terminalScan saved p (t1 ++ t2) =
    match terminalScan saved p t1 with
    | Some q => terminalScan saved q t2
    | None => None
    end.
Proof.
  revert p. induction t1 as [|e t1 IH]; intros p; cbn [app terminalScan].
  - reflexivity.
  - destruct e;
      repeat match goal with
             | |- context [if ?c then _ else _] => destruct c
             end; try reflexivity; apply IH.
Qed.

Lemma terminalScan_quiet (saved : TermState) (t : list Event) :
  Forall (fun e => isQuiet e = true) t ->
  terminalScan saved false t = Some false.
Proof.
  induction 1 as [|e t He Ht IH]; cbn [terminalScan]; [reflexivity|].
  destruct e; try discriminate; exact IH.
Qed.

(** What a trace that passes the scan looks like. *)
Lemma terminalScan_no_save (saved : TermState) (t : list Event) (p q : bool) :
  terminalScan saved p t = Some q -> ~ In EvSaveState t.
Proof.
  revert p. induction t as [|e t IH]; intros p H Hin; [contradiction|].
  cbn [terminalScan] in H.
  destruct Hin as [->|Hin]; [discriminate|].
  destruct e;
    repeat match type of H with
           | context [if ?c then _ else _] => destruct c
           end; try discriminate; now apply (IH _ H).
Qed.

Lemma terminalScan_restores (saved : TermState) (t : list Event) (p q : bool) st :
  terminalScan saved p t = Some q -> In (EvRestoreTerminal st) t -> st = saved.
Proof.
  revert p. induction t as [|e t IH]; intros p H Hin; [contradiction|].
  cbn [terminalScan] in H.
  destruct e; try (destruct Hin as [Hin|Hin]; [discriminate|]);
    repeat match type of H with
           | context [if ?c then _ else _] => destruct c eqn:?
           end; try discriminate; try now apply (IH _ H).
  destruct Hin as [Hin|Hin]; [|now apply (IH _ H)].
  inversion Hin; subst.
  match goal with
  | Hc : _ && Nat.eqb _ _ = true |- _ =>
      apply andb_true_iff in Hc; destruct Hc as [_ Hc];
      now apply Nat.eqb_eq in Hc
  end.
Qed.

Lemma terminalScan_count (saved : TermState) (t : list Event) (p q : bool) :
  terminalScan saved p t = Some q ->
  List.length (filter isRestore t) + (if q then 1 else 0) =
  List.length (filter isExitRecv t) + (if p then 1 else 0).
Proof.
  revert p. induction t as [|e t IH]; intros p H; cbn [terminalScan] in H.
  - inversion H. reflexivity.
  - destruct e; cbn [filter isRestore isExitRecv];
      repeat match type of H with
             | context [if ?c then _ else _] => destruct c eqn:?
             end; try discriminate; try now apply (IH _ H).
    + match goal with
      | Hc : _ && Nat.eqb _ _ = true |- _ =>
          apply andb_true_iff in Hc; destruct Hc as [-> _]
      end.
      specialize (IH _ H). cbn [List.length] in *. cbv iota in *. lia.
    + specialize (IH _ H).
      destruct (isExitCause s); cbn [List.length] in *; cbv iota in *; lia.
Qed.

(** After an exit cause is received, only the newline of the wait comes
    before the restore of the saved state. *)
Lemma terminalScan_pending (saved : TermState) (t : list Event) :
  terminalScan saved true t = Some false ->
  exists nl post,
    t = map EvPrintln nl ++ EvRestoreTerminal saved :: post /\
    terminalScan saved false post = Some false.
Proof.
  induction t as [|e t IH]; cbn [terminalScan]; intros H; [discriminate|].
  destruct e; try discriminate.
  - cbn [andb] in H. destruct (Nat.eqb_spec st saved) as [->|]; [|discriminate].
    exists [], t. auto.
  - destruct (IH H) as (nl & post & -> & Hp). exists (msg :: nl), post. auto.
Qed.

Lemma terminalScan_after_exit (saved : TermState) (pre post : list Event) (s : Signal) p :
  terminalScan saved p (pre ++ EvRecv s :: post) = Some false ->
  isExitCause s = true ->
  exists nl post',
    post = map EvPrintln nl ++ EvRestoreTerminal saved :: post'.
Proof.
  intros H Hs. rewrite terminalScan_app in H.
  destruct (terminalScan saved p pre) as [[|]|]; cbn [terminalScan] in H;
    try discriminate.
  rewrite Hs in H. destruct (terminalScan_pending saved post H) as (nl & post' & -> & _).
  eauto.
Qed.

(** Rules for [disciplined]. *)
Lemma disciplined_quiet {A} (saved : TermState) (m : M A) :
  emits_only (fun e => isQuiet e = true) m -> disciplined saved m.
Proof. intros H u. apply terminalScan_quiet, H. Qed.

Lemma disciplined_bind {A B} (saved : TermState) (m : M A) (f : A -> M B) :
  disciplined saved m -> (forall a, disciplined saved (f a)) ->
  disciplined saved (bind m f).
Proof.
  intros Hm Hf u. unfold bind. specialize (Hm u).
  destruct (m u) as [t [a u'| |u'|]]; cbn [fst] in *; auto.
  specialize (Hf a u'). destruct (f a u') as [t' r]. cbn [fst] in *.
  now rewrite terminalScan_app, Hm.
Qed.

Lemma wait_then_restore {A} (saved : TermState) (signals : list Signal)
    (k : option error -> M A) :
  (forall v, disciplined saved (k v)) ->
  disciplined saved
    (bind (WaitUntilExitOrInterrupt signals)
       (fun v => emit (EvRestoreTerminal saved) ;; k v)).
Proof.
  intros Hk. induction signals as [|s signals IH]; intros u;
    cbn [WaitUntilExitOrInterrupt].
  - reflexivity.
  - run. destruct s as [[e|]|e|]; run.
    + unfold prepend. cbn [fst app terminalScan isExitCause andb].
      rewrite Nat.eqb_refl. apply Hk.
    + unfold prepend. cbn [fst app terminalScan isExitCause andb].
      rewrite Nat.eqb_refl. apply Hk.
    + unfold prepend. cbn [fst app terminalScan isExitCause]. apply IH.
    + unfold prepend. cbn [fst app terminalScan isExitCause andb].
      rewrite Nat.eqb_refl. apply Hk.
Qed.


Lemma isSetup_quiet (e : Event) : isSetup e = true -> isQuiet e = true.
Proof.
  destruct e; cbn; try discriminate; reflexivity.
Qed.

Lemma wp_emits_only {A} (m : M A) ev (Q : UpContext -> A -> UpContext -> Prop) :
  (forall u, wp m ev (Q u) u) -> emits_only ev m.
Proof. intros H u. destruct (H u) as (t & a & u' & E & Ht & _). now rewrite E. Qed.

Lemma devMode_quiet (w : World) (isRetry : bool) :
  emits_only (fun e => isQuiet e = true) (devMode w isRetry).
Proof.
  apply emits_only_weaken with (p := fun e => isSetup e = true);
    [exact isSetup_quiet|].
  apply wp_emits_only with
    (Q := fun u err u' => Exit u' = Exit u /\ (err = None -> Sy u' <> None)).
  apply devMode_wp.
Qed.

Lemma startSync_quiet (w : World) :
  emits_only (fun e => isQuiet e = true) (startSync w).
Proof.
  apply emits_only_weaken with (p := fun e => isSetup e = true);
    [exact isSetup_quiet | apply startSync_setup].
Qed.

Lemma exitSend_quiet (err : option error) :
  emits_only (fun e => isQuiet e = true) (exitSend err).
Proof. unfold exitSend. eo_full. Qed.

Lemma exitSelection_quiet (w : World) (prevError : option error) (retry : bool) :
  emits_only (fun e => isQuiet e = true) (exitSelection w prevError retry).
Proof. unfold exitSelection, exitSend. eo_full. Qed.

Lemma Activate_run_disciplined (w : World) (state : TermState) (retry : bool) :
  disciplined state (Activate_run w state retry).
Proof.
  unfold Activate_run.
  apply disciplined_bind; [apply disciplined_quiet; eo_full|intros _].
  apply disciplined_bind; [apply disciplined_quiet; eo_full|intros _].
  apply disciplined_bind.
  { apply disciplined_quiet, emits_only_go. unfold runCommand. eo_full. }
  intros _. apply wait_then_restore. intros v.
  apply disciplined_quiet, exitSelection_quiet.
Qed.

Lemma Activate_sync_disciplined (w : World) (state : TermState) (retry : bool) :
  disciplined state (Activate_sync w state retry).
Proof.
  unfold Activate_sync.
  apply disciplined_bind; [apply disciplined_quiet; eo_full|intros _].
  apply disciplined_bind; [apply disciplined_quiet, startSync_quiet|intros err].
  apply disciplined_bind; [apply disciplined_quiet; eo_full|intros _].
  destruct err.
  - apply disciplined_quiet. apply emits_only_bind; [apply exitSend_quiet|intros; eo_full].
  - apply Activate_run_disciplined.
Qed.

Lemma Activate_body_disciplined (w : World) (state : TermState) (retry : bool) :
  disciplined state (Activate_body w state retry).
Proof.
  unfold Activate_body.
  apply disciplined_bind; [apply disciplined_quiet; eo_full|intros u0].
  apply disciplined_bind; [apply disciplined_quiet; eo_full|intros _].
  apply disciplined_bind; [apply disciplined_quiet; eo_full|intros _].
  apply disciplined_bind; [apply disciplined_quiet; eo_full|intros _].
  apply disciplined_bind; [apply disciplined_quiet; eo_full|intros _].
  apply disciplined_bind; [apply disciplined_quiet, devMode_quiet|intros err].
  destruct err.
  { apply disciplined_quiet. apply emits_only_bind; [apply exitSend_quiet|intros; eo_full]. }
  cbv zeta.
  apply disciplined_bind; [apply disciplined_quiet; eo_full|intros u1].
  apply disciplined_bind; [apply disciplined_quiet; eo_full|intros _].
  apply disciplined_bind; [apply disciplined_quiet; eo_full|intros _].
  apply disciplined_bind; [apply disciplined_quiet; eo_full|intros err].
  destruct err.
  { apply disciplined_quiet. apply emits_only_bind; [apply exitSend_quiet|intros; eo_full]. }
  apply disciplined_bind; [apply disciplined_quiet; eo_full|intros _].
  apply disciplined_bind; [apply disciplined_quiet; eo_full|intros _].
  apply Activate_sync_disciplined.
Qed.

Lemma Activate_loop_disciplined (state : TermState) (ws : list World) (retry : bool) :
  disciplined state (Activate_loop state retry ws).
Proof.
  revert retry. induction ws as [|w ws IH]; intros retry; cbn [Activate_loop].
  - apply disciplined_quiet. eo_full.
  - apply disciplined_bind; [apply Activate_body_disciplined|intros c].
    destruct c; [apply IH | apply disciplined_quiet; eo_full].
Qed.

(** C3. In every run of Activate the terminal state is saved once, as the
    first thing done, before the loop; nothing in the loop saves again.
    When the save succeeded with [saved]: every time the wait has received
    an exit cause, the next event (after the newline the wait prints) is the
    restore of the terminal to [saved] - so the restore comes before the
    sync engine is asked, before the banner and the shutdown of a
    reconnection, and before the post on [Exit]; every restore is to
    [saved]; and there are as many restores as exits from the wait.  When
    the save failed the loop is not entered. *)
Theorem C3_terminal_discipline (sc : Script) (u : UpContext) :
  exists t,
    fst (Activate sc u) = EvSaveState :: t /\
    ~ In EvSaveState t /\
    (forall saved,
       s_SaveState sc = Ok saved ->
       terminalScan saved false t = Some false /\
       (forall pre s post,
          t = pre ++ EvRecv s :: post ->
          isExitCause s = true ->
          exists nl post', post = map EvPrintln nl ++ EvRestoreTerminal saved :: post') /\
       (forall st, In (EvRestoreTerminal st) t -> st = saved) /\
       List.length (filter isRestore t) = List.length (filter isExitRecv t)) /\
    (forall err,
       s_SaveState sc = Err err ->
       filter isExitRecv t = [] /\ filter isRestore t = []).
Proof.
  unfold Activate. rewrite bind_emit. unfold prepend. cbn [fst app].
  destruct (s_SaveState sc) as [saved|err] eqn:Esave.
  - pose proof (Activate_loop_disciplined saved (s_worlds sc) false u) as Hscan.
    exists (fst (Activate_loop saved false (s_worlds sc) u)).
    split; [reflexivity|]. split; [now apply (terminalScan_no_save _ _ _ _ Hscan)|].
    split; [|discriminate].
    intros saved' Heq. inversion Heq; subst saved'.
    split; [exact Hscan|]. split; [|split].
    + intros pre s post Ht Hs. rewrite Ht in Hscan.
      now apply (terminalScan_after_exit _ _ _ _ _ Hscan).
    + intros st Hin. now apply (terminalScan_restores _ _ _ _ _ Hscan).
    + pose proof (terminalScan_count _ _ _ _ Hscan) as Hc. cbv iota in Hc. lia.
  - exists (fst (exitSend (Some err) u)).
    split; [reflexivity|].
    unfold exitSend. run. destruct (Exit u); run; cbn.
    + split; [tauto|]. split; [discriminate|]. intros e _. auto.
    + split; [intros [H|[]]; discriminate|]. split; [discriminate|].
      intros e _. auto.
Qed.


(** * More properties of the supervisor *)

(** ** Rules for [sat] *)

Section ScanRules.

Variable S : Type.
Variable step : S -> Event -> option S.

Lemma scan_app (s : S) (t1 t2 : list Event) :
  scan step s (t1 ++ t2) =
    match scan step s t1 with
    | Some s' => scan step s' t2
    | None => None
    end.
Proof.
  revert s. induction t1 as [|e t1 IH]; intros s; cbn [app scan]; [reflexivity|].
  destruct (step s e); [apply IH | reflexivity].
Qed.

Lemma scan_stable (s : S) (t : list Event) :
  Forall (fun e => step s e = Some s) t -> scan step s t = Some s.
Proof.
  induction 1 as [|e t He Ht IH]; cbn [scan]; [reflexivity|]. now rewrite He.
Qed.

Lemma sat_ret {A} (a : A) Q B O s u : Q a s u -> sat step (ret a) Q B O s u.
Proof. intros H. exact H. Qed.

Lemma sat_get Q B O s u : Q u s u -> sat step get Q B O s u.
Proof. intros H. exact H. Qed.

Lemma sat_modify f Q B O s u : Q tt s (f u) -> sat step (modify f) Q B O s u.
Proof. intros H. exact H. Qed.

Lemma sat_blocked {A} (Q : A -> S -> UpContext -> Prop) B O s u :
  B s u -> sat step (@blocked A) Q B O s u.
Proof. intros H. exact H. Qed.

Lemma sat_outOfScript {A} (Q : A -> S -> UpContext -> Prop) B (O : S -> Prop) s u :
  O s -> sat step (@outOfScript A) Q B O s u.
Proof. intros H. exact H. Qed.

Lemma sat_emit e s' Q B O s u :
  step s e = Some s' -> Q tt s' u -> sat step (emit e) Q B O s u.
Proof. intros He H. unfold sat, emit. cbn. now rewrite He. Qed.

Lemma sat_bind {A C} (m : M A) (f : A -> M C) Q B O s u :
  sat step m (fun a s' u' => sat step (f a) Q B O s' u') B O s u ->
  sat step (bind m f) Q B O s u.
Proof.
  unfold sat, bind.
  destruct (m u) as [t [a u'| |u'|]]; cbn [fst snd]; auto.
  destruct (scan step s t) as [s'|] eqn:E; [|tauto].
  destruct (f a u') as [t' r]. cbn [fst snd].
  now rewrite scan_app, E.
Qed.

Lemma sat_weaken {A} (m : M A) (Q Q' : A -> S -> UpContext -> Prop)
    (B B' : S -> UpContext -> Prop) (O O' : S -> Prop) s u :
  (forall a s' u', Q a s' u' -> Q' a s' u') ->
  (forall s' u', B s' u' -> B' s' u') ->
  (forall s', O s' -> O' s') ->
  sat step m Q B O s u -> sat step m Q' B' O' s u.
Proof.
  intros HQ HB HO. unfold sat.
  destruct (scan step s (fst (m u))); [|tauto].
  destruct (snd (m u)); auto.
Qed.

(** A computation that returns and whose events leave the scanner state
    as it is. *)
Lemma sat_wp {A} (m : M A) (Q' : A -> UpContext -> Prop) Q B O s u :
  wp m (fun e => step s e = Some s) Q' u ->
  (forall a u', Q' a u' -> Q a s u') ->
  sat step m Q B O s u.
Proof.
  intros (t & a & u' & E & Ht & HQ') HQ. unfold sat. rewrite E. cbn [fst snd].
  rewrite (scan_stable s t Ht). auto.
Qed.

Lemma sat_createDataVolumes (w : World) d vs i Q B O s u :
  (forall n, step s (EvVolumesCreate n) = Some s) ->
  (forall r, Q r s u) ->
  sat step (createDataVolumes w d i vs) Q B O s u.
Proof.
  intros He HQ. apply sat_wp with (Q' := fun _ u' => u' = u).
  - apply wp_createDataVolumes; auto.
  - intros a u' ->. apply HQ.
Qed.

Lemma sat_addForwards (w : World) fs Q B O s u :
  (forall l r, step s (EvForwarderAdd DevFwd l r) = Some s) ->
  (forall r, Q r s u) ->
  sat step (addForwards w fs) Q B O s u.
Proof.
  intros He HQ. apply sat_wp with (Q' := fun _ u' => u' = u).
  - apply wp_addForwards; auto.
  - intros a u' ->. apply HQ.
Qed.

Lemma sat_shutdown sw Q B O s u :
  (forall c, Cancel u = Some c -> step s (EvCancel c) = Some s) ->
  (forall e, step s (EvGo e) = Some s) ->
  (forall r, Q r s u) ->
  sat step (shutdown sw) Q B O s u.
Proof.
  intros Hc Hg HQ. destruct (shutdown_returns sw u) as (how & ms & E & _).
  unfold sat. rewrite E. cbn [fst snd]. rewrite scan_stable; [apply HQ|].
  unfold cancelEvents, waiterEvents, stopperEvents.
  destruct (Cancel u) as [c|] eqn:Ec, (WG u), (sw_drain sw), (DevForwarder u),
    (SyncForwarder u); cbn; repeat constructor; auto.
Qed.

Lemma sat_Wait signals Q B O s u :
  (forall sg, step s (EvRecv sg) = Some s) ->
  (forall msg, step s (EvPrintln msg) = Some s) ->
  (forall e, step s (EvLogYellowErr e) = Some s) ->
  (forall v, Q v s u) ->
  B s u ->
  sat step (WaitUntilExitOrInterrupt signals) Q B O s u.
Proof.
  intros Hr Hp Hl HQ HB.
  induction signals as [|sg signals IH]; cbn [WaitUntilExitOrInterrupt].
  - now apply sat_blocked.
  - apply sat_bind, sat_emit with (s' := s); [apply Hr|].
    destruct sg as [[e|]|e|].
    + apply sat_bind, sat_emit with (s' := s); [apply Hp|]. apply sat_ret, HQ.
    + apply sat_bind, sat_emit with (s' := s); [apply Hp|]. apply sat_ret, HQ.
    + apply sat_bind, sat_emit with (s' := s); [apply Hl|]. exact IH.
    + apply sat_ret, HQ.
Qed.

Lemma sat_go {A} (body : M A) (Q' : A -> UpContext -> Prop) Q B O s u :
  (forall e, step s (EvGo e) = Some s) ->
  wp body (fun _ => True) Q' u ->
  (forall a u', Q' a u' -> Q (Some a) s u') ->
  sat step (go body) Q B O s u.
Proof.
  intros Hg (t & a & u' & E & _ & HQ') HQ. unfold sat, go. rewrite E.
  cbn [fst snd]. rewrite scan_stable; [auto|].
  apply Forall_map. apply Forall_forall. auto.
Qed.

Lemma sat_exitSend err Q B O s u :
  match Exit u with
  | None => exists s', step s (EvExitSend err) = Some s' /\
                       Q tt s' (with_Exit u (Some err))
  | Some _ => B s u
  end ->
  sat step (exitSend err) Q B O s u.
Proof.
  intros H. unfold exitSend. apply sat_bind, sat_get.
  destruct (Exit u).
  - now apply sat_blocked.
  - destruct H as (s' & Hs & HQ). apply sat_bind, sat_emit with (s' := s'); [exact Hs|].
    now apply sat_modify.
Qed.

(** The two goroutines of Activate. *)
Lemma wp_runCommand (u : UpContext) :
  wp runCommand (fun _ => True) (fun _ u' => u' = u) u.
Proof.
  unfold runCommand. apply wp_bind, wp_get.
  apply wp_bind, wp_emit; [exact I|]. apply wp_emit; [exact I|reflexivity].
Qed.

End ScanRules.

Arguments sat_emit {S step} e s' Q B O s u _ _.


Lemma wp_weaken_post {A} ev (Q Q' : A -> UpContext -> Prop) (m : M A) u :
  (forall a u', Q a u' -> Q' a u') -> wp m ev Q u -> wp m ev Q' u.
Proof. intros H (t & a & u' & E & Ht & HQ). exists t, a, u'. auto. Qed.

Lemma wp_events {A} (m : M A) (ev ev' : Event -> Prop) Q u :
  (forall e, ev e -> ev' e) -> wp m ev Q u -> wp m ev' Q u.
Proof.
  intros H (t & a & u' & E & Ht & HQ). exists t, a, u'.
  repeat split; auto. eapply Forall_impl; eauto.
Qed.

Section ScanTactics.

Variable S : Type.
Variable step : S -> Event -> option S.

Lemma sat_deref {A} (x : option A) (a : A) (Q : A -> S -> UpContext -> Prop) B O s u :
  x = Some a -> Q a s u -> sat step (deref x) Q B O s u.
Proof. intros -> H. exact H. Qed.

End ScanTactics.

Section ScanRulesGo.

Variable S : Type.
Variable step : S -> Event -> option S.

Lemma sat_go_emit e s' (Q : option unit -> S -> UpContext -> Prop) B O s u :
  step s (EvGo e) = Some s' -> Q (Some tt) s' u -> sat step (go (emit e)) Q B O s u.
Proof. intros He H. unfold sat, go, emit. cbn. now rewrite He. Qed.

Lemma sat_shutdown_scan sw s' Q B O s u :
  scan step s (shutdownEvents sw u) = Some s' ->
  (forall r, Q r s' u) ->
  sat step (shutdown sw) Q B O s u.
Proof.
  intros Hs HQ. destruct (shutdown_returns sw u) as (how & ms & E & _).
  unfold sat. rewrite E. cbn [fst snd]. unfold shutdownEvents in Hs.
  rewrite Hs. apply HQ.
Qed.

Lemma sat_go_runCommand (Q : option unit -> S -> UpContext -> Prop) B O s u :
  (forall argv, step s (EvGo (EvExec argv)) = Some s) ->
  Q (Some tt) s u ->
  sat step (go runCommand) Q B O s u.
Proof.
  intros He H. unfold sat, go, runCommand, bind, get, emit. cbn.
  now rewrite !He.
Qed.

End ScanRulesGo.


(** One step of symbolic execution through straight-line supervisor
    code. *)
Ltac sat_step :=
  cbv beta zeta iota;
  lazymatch goal with
  | |- sat _ (bind _ _) _ _ _ _ _ => apply sat_bind
  | |- sat _ (ret _) _ _ _ _ _ => apply sat_ret
  | |- sat _ get _ _ _ _ _ => apply sat_get
  | |- sat _ (modify _) _ _ _ _ _ => apply sat_modify
  | |- sat _ (emit _) _ _ _ _ _ => eapply sat_emit; [ reflexivity | ]
  end.

(** ** The [Exit] channel *)

Lemma isSetup_not_post (e : Event) : isSetup e = true -> postStep None e = Some None.
Proof. destruct e; cbn; try discriminate; reflexivity. Qed.

(** From an empty [Exit] channel an iteration ends in [continue] with the
    channel still empty, or returns after one post, its last event; it can
    block in the wait, before any post. *)
Lemma Activate_body_post (w : World) (state : TermState) (retry : bool) (u : UpContext) :
  Exit u = None ->
  sat postStep (Activate_body w state retry)
    (fun c s' u' =>
       s' = Exit u' /\
       match c with
       | Continue r => r = true /\ s' = None
       | Return => s' <> None
       end)
    (fun s' u' => s' = None /\ Exit u' = None) (fun s' => s' = None) None u.
Proof.
  intros HE. unfold Activate_body. repeat sat_step.
  apply sat_wp with
    (Q' := fun err u' => Exit u' = Exit (atDevMode u) /\ (err = None -> Sy u' <> None)).
  { eapply wp_events; [|apply devMode_wp]. exact isSetup_not_post. }
  intros err u1 [HE1 HS1]. cbn in HE1. rewrite HE in HE1.
  destruct err as [e|].
  { sat_step. apply sat_exitSend. rewrite HE1. eexists. split; [reflexivity|].
    sat_step. cbn. split; [reflexivity|discriminate]. }
  specialize (HS1 eq_refl). repeat sat_step.
  apply sat_addForwards; [reflexivity|]. intros err.
  destruct err as [e|].
  { sat_step. apply sat_exitSend. cbn [Exit with_DevForwarder]. rewrite HE1. eexists. split; [reflexivity|].
    sat_step. cbn. split; [reflexivity|discriminate]. }
  repeat sat_step. unfold Activate_sync. repeat sat_step.
  apply sat_wp with
    (Q' := fun err u' => Exit u' = None /\ Sy u' <> None).
  { eapply wp_events; [exact isSetup_not_post|].
    eapply wp_weaken_post; [|apply startSync_wp; exact HS1].
    cbn. intros a u' [H1 H2]. split; [congruence|exact H2]. }
  intros err u2 [HE2 HS2]. repeat sat_step.
  destruct err as [e|].
  { sat_step. apply sat_exitSend. rewrite HE2. eexists. split; [reflexivity|].
    sat_step. cbn. split; [reflexivity|discriminate]. }
  unfold Activate_run. repeat sat_step.
  apply sat_go with (Q' := fun _ u' => u' = u2);
    [reflexivity | apply wp_runCommand |]. intros _ u' ->.
  sat_step. apply sat_Wait; try reflexivity; [|split; [reflexivity|exact HE2]].
  intros prevError. repeat sat_step.
  unfold exitSelection. sat_step.
  apply sat_weaken with
    (Q := fun (_ : bool) s' u' => s' = None /\ u' = u2)
    (B := fun s' u' => s' = None /\ Exit u' = None) (O := fun s' => s' = None); auto.
  - intros reconnect s' u' [-> ->]. destruct reconnect.
    + repeat sat_step. apply sat_shutdown; try reflexivity.
      intros r. repeat sat_step. cbn. auto.
    + sat_step. apply sat_exitSend. rewrite HE2. eexists. split; [reflexivity|].
      sat_step. cbn. split; [reflexivity|discriminate].
  - destruct prevError as [[| |m|c]|]; cbn [error_eqb]; try (sat_step; auto).
    destruct (Sy u2) as [sy|] eqn:ESy; [|congruence].
    repeat sat_step. eapply sat_deref; [exact ESy|]. repeat sat_step. auto.
Qed.

Lemma Activate_loop_post (state : TermState) (ws : list World) (retry : bool)
    (u : UpContext) :
  Exit u = None ->
  sat postStep (Activate_loop state retry ws)
    (fun _ s' u' => s' = Exit u' /\ s' <> None)
    (fun s' u' => s' = None /\ Exit u' = None) (fun s' => s' = None) None u.
Proof.
  revert retry u. induction ws as [|w ws IH]; intros retry u HE;
    cbn [Activate_loop].
  - now apply sat_outOfScript.
  - apply sat_bind.
    eapply sat_weaken; [| | |apply Activate_body_post; exact HE]; cbv beta; auto.
    intros c s' u' [Hs Hc]. destruct c as [r|].
    + destruct Hc as [_ ->]. apply IH. congruence.
    + apply sat_ret. auto.
Qed.

Lemma Activate_post (sc : Script) (u : UpContext) :
  Exit u = None ->
  sat postStep (Activate sc)
    (fun _ s' u' => s' = Exit u' /\ s' <> None)
    (fun s' u' => s' = None /\ Exit u' = None) (fun s' => s' = None) None u.
Proof.
  intros HE. unfold Activate. sat_step. sat_step.
  destruct (s_SaveState sc) as [state|err].
  - now apply Activate_loop_post.
  - apply sat_exitSend. rewrite HE. eexists. split; [reflexivity|].
    cbn. split; [reflexivity|discriminate].
Qed.

(** What a trace that keeps the protocol of the [Exit] channel looks
    like. *)
Lemma scan_post_none (t : list Event) :
  scan postStep None t = Some None -> Forall (fun e => isPost e = false) t.
Proof.
  induction t as [|e t IH]; cbn [scan]; intros H; [constructor|].
  destruct e; cbn in H; try (constructor; [reflexivity | now apply IH]).
  destruct t; discriminate.
Qed.

Lemma scan_post_some (t : list Event) (v : option error) (s : option (option error)) :
  scan postStep None t = Some s -> s = Some v ->
  exists t0, t = t0 ++ [EvExitSend v] /\ Forall (fun e => isPost e = false) t0.
Proof.
  induction t as [|e t IH]; cbn [scan]; intros H Hs; [congruence|].
  destruct e; cbn in H;
    try (destruct (IH H Hs) as (t0 & -> & Ht0);
         eexists (_ :: t0); split; [reflexivity | constructor; [reflexivity | exact Ht0]]).
  destruct t; cbn in H; [|discriminate].
  inversion H; subst. inversion H1; subst. exists []. split; [reflexivity|constructor].
Qed.

(** X1. The supervisor never dereferences a nil sync engine handle:
    Activate, started with an empty [Exit] channel, does not panic on any
    script, and RunUp does not panic on any script and whichever case its
    [select] takes. *)
Theorem Activate_never_panics (d : Dev) (sc : Script) (top : TopWorld) (u : UpContext) :
  (Exit u = None -> snd (Activate sc u) <> Panic) /\
  snd (RunUp d sc top) <> Panic.
Proof.
  assert (HA : forall v, Exit v = None -> snd (Activate sc v) <> Panic).
  { intros v HE Hp. pose proof (Activate_post sc v HE) as H. unfold sat in H.
    rewrite Hp in H. destruct (scan postStep None (fst (Activate sc v))); exact H. }
  split; [apply HA|].
  destruct (t_select top) as [k now|] eqn:Hsel.
  - assert (Hs : snd (RunUp_select sc top (newUpContext d)) = Done None now)
      by (rewrite (RunUp_select_stop sc top k now _ Hsel); reflexivity).
    destruct (RunUp_returns d sc top None now Hs) as (t & E). rewrite E. discriminate.
  - destruct (snd (RunUp_select sc top (newUpContext d))) as [r u1| |u1|] eqn:Es.
    + destruct (RunUp_returns d sc top r u1 Es) as (t & E). rewrite E. discriminate.
    + exfalso. unfold RunUp_select in Es. rewrite Hsel, bind_emit, bind_go in Es.
      specialize (HA (newUpContext d) eq_refl).
      destruct (Activate sc (newUpContext d)) as [tA [a uA| |uA|]];
        cbn [snd prepend] in *; try discriminate; try congruence.
      * rewrite bind_get in Es. destruct (Exit uA) as [[e|]|]; discriminate.
      * rewrite bind_get in Es. destruct (Exit uA) as [[e|]|]; discriminate.
    + unfold RunUp, bind.
      destruct (RunUp_select sc top (newUpContext d)) as [t0 r0]. cbn in Es. subst r0.
      discriminate.
    + unfold RunUp, bind.
      destruct (RunUp_select sc top (newUpContext d)) as [t0 r0]. cbn in Es. subst r0.
      discriminate.
Qed.

(** X2. The [Exit] channel, of capacity one, is enough: from an empty
    channel, a run of Activate that returns has posted exactly once, as its
    last event, and the channel holds what it posted; a run that blocks (in
    the wait) or whose script ends has posted nothing.  So the send on
    [Exit] never blocks. *)
Theorem Activate_posts_once (sc : Script) (u : UpContext) :
  Exit u = None ->
  match snd (Activate sc u) with
  | Done _ u' =>
      exists t0 v,
        fst (Activate sc u) = t0 ++ [EvExitSend v] /\
        Forall (fun e => isPost e = false) t0 /\
        Exit u' = Some v
  | Blocked _ | OutOfScript => Forall (fun e => isPost e = false) (fst (Activate sc u))
  | Panic => False
  end.
Proof.
  intros HE. pose proof (Activate_post sc u HE) as H. unfold sat in H.
  destruct (scan postStep None (fst (Activate sc u))) as [s|] eqn:Hscan; [|contradiction].
  destruct (snd (Activate sc u)) as [a u'| |u'|].
  - destruct H as [Hs Hne]. destruct s as [v|]; [|congruence].
    destruct (scan_post_some _ v _ Hscan eq_refl) as (t0 & Ht & Ht0).
    exists t0, v. auto.
  - exact H.
  - destruct H as [-> _]. now apply scan_post_none.
  - subst s. now apply scan_post_none.
Qed.


(** Symbolic execution through supervisor code, case by case on what the
    world answers. *)
Ltac sat_auto :=
  repeat first
    [ sat_step
    | lazymatch goal with
      | |- sat _ (createDataVolumes _ _ _ _) _ _ _ _ _ =>
          apply sat_createDataVolumes; [ intros; reflexivity | intros ? ]
      | |- sat _ (addForwards _ _) _ _ _ _ _ =>
          apply sat_addForwards; [ intros; reflexivity | intros ? ]
      | |- sat _ (go (emit _)) _ _ _ _ ?u =>
          apply sat_go with (Q' := fun _ u' => u' = u);
          [ intros; reflexivity
          | apply wp_emit; [ exact I | reflexivity ]
          | intros ? ? -> ]
      | |- sat _ (deref _) _ _ _ _ _ => eapply sat_deref; [ first [ eassumption | reflexivity ] | ]
      | |- sat _ (exitSend _) _ _ _ _ _ => apply sat_exitSend
      | |- sat _ (match ?x with _ => _ end) _ _ _ _ _ => destruct x eqn:?
      end ].

(** The send on [Exit]: blocked on a full buffer, or the post. *)
Ltac post_here :=
  lazymatch goal with
  | |- match Exit ?v with _ => _ end =>
      destruct (Exit v); [ reflexivity | eexists; split; [ reflexivity | ] ]
  end.

Ltac sat_exec solver :=
  cbv beta zeta iota;
  lazymatch goal with
  | |- sat _ (bind _ _) _ _ _ _ _ => apply sat_bind
  | |- sat _ (ret _) _ _ _ _ _ => apply sat_ret
  | |- sat _ get _ _ _ _ _ => apply sat_get
  | |- sat _ (modify _) _ _ _ _ _ => apply sat_modify
  | |- sat _ (emit _) _ _ _ _ _ => eapply sat_emit; [ solver | ]
  | |- sat _ (createDataVolumes _ _ _ _) _ _ _ _ _ =>
      apply sat_createDataVolumes; [ intros; reflexivity | intros ? ]
  | |- sat _ (addForwards _ _) _ _ _ _ _ =>
      apply sat_addForwards; [ intros; reflexivity | intros ? ]
  | |- sat _ (go (emit _)) _ _ _ _ ?u =>
      apply sat_go with (Q' := fun _ u' => u' = u);
      [ intros; reflexivity
      | apply wp_emit; [ exact I | reflexivity ]
      | intros ? ? -> ]
  | |- sat _ (deref _) _ _ _ _ _ => eapply sat_deref; [ first [ eassumption | reflexivity ] | ]
  | |- sat _ (exitSend _) _ _ _ _ _ => apply sat_exitSend
  | |- sat _ (match ?x with _ => _ end) _ _ _ _ _ => destruct x eqn:?
  end.

(** ** The progress bar *)

Lemma devMode_spinner (w : World) (isRetry : bool) (u : UpContext) B O :
  sat spinnerStep (devMode w isRetry)
    (fun err s' u' => s' = false /\ (err = None -> Sy u' <> None)) B O false u.
Proof.
  unfold devMode, devMode_activate, devMode_apply.
  sat_auto; cbn; split; congruence.
Qed.

Lemma startSync_spinner (w : World) (u : UpContext) B O :
  Sy u <> None ->
  sat spinnerStep (startSync w)
    (fun _ s' u' => s' = true /\ Sy u' <> None /\ Exit u' = Exit u) B O true u.
Proof.
  intros HSy. destruct (Sy u) as [sy|] eqn:ESy; [clear HSy|congruence].
  unfold startSync. sat_auto; cbn; rewrite ?ESy; repeat split; congruence.
Qed.

Lemma Activate_body_spinner (w : World) (state : TermState) (retry : bool) (u : UpContext) :
  sat spinnerStep (Activate_body w state retry)
    (fun _ s' _ => s' = false) (fun s' _ => s' = false) (fun s' => s' = false) false u.
Proof.
  unfold Activate_body. sat_auto.
  eapply sat_weaken; [| | |apply devMode_spinner with (B := fun s' _ => s' = false)
                                  (O := fun s' => s' = false)]; cbv beta; auto.
  intros err s' u1 [-> HS1]. destruct err as [e|].
  { sat_auto. post_here. sat_auto. reflexivity. }
  specialize (HS1 eq_refl). sat_auto.
  { post_here. sat_auto. reflexivity. }
  unfold Activate_sync. sat_auto.
  eapply sat_weaken;
    [| | |apply startSync_spinner with (B := fun s' _ => s' = false)
            (O := fun s' => s' = false); exact HS1]; cbv beta; auto.
  intros err s' u2 (-> & HS2 & _). sat_step. sat_step. destruct err as [e|].
  { sat_auto. post_here. sat_auto. reflexivity. }
  unfold Activate_run. sat_auto.
  apply sat_go with (Q' := fun _ u' => u' = u2);
    [reflexivity | apply wp_runCommand |]. intros _ u' ->.
  sat_step. apply sat_Wait; try reflexivity.
  intros prevError. sat_auto.
  unfold exitSelection. sat_step.
  apply sat_weaken with
    (Q := fun (_ : bool) s' u' => s' = false /\ u' = u2)
    (B := fun s' _ => s' = false) (O := fun s' => s' = false); auto.
  - intros reconnect s' u' [-> ->]. destruct reconnect.
    + sat_auto. apply sat_shutdown; reflexivity.
    + sat_auto. post_here. sat_auto. reflexivity.
  - destruct prevError as [[| |m|c]|]; cbn [error_eqb]; try (sat_step; auto).
    destruct (Sy u2) as [sy|] eqn:ESy; [|congruence].
    sat_auto. auto.
Qed.

(** X3. The progress bar and the terminal never overlap: in every run of
    Activate the bar is started only when stopped and stopped only when
    running, and it is stopped whenever the user is asked, a line is
    printed, the wait receives, the terminal is restored, a scope is
    cancelled or the result is posted - and when the run ends, blocks or
    the script ends. *)
Theorem Activate_stops_progress_bar (sc : Script) (u : UpContext) :
  scan spinnerStep false (fst (Activate sc u)) = Some false.
Proof.
  assert (Hloop : forall state ws retry v,
            sat spinnerStep (Activate_loop state retry ws)
              (fun _ s' _ => s' = false) (fun s' _ => s' = false)
              (fun s' => s' = false) false v).
  { intros state ws. induction ws as [|w ws IH]; intros retry v; cbn [Activate_loop].
    - now apply sat_outOfScript.
    - apply sat_bind.
      eapply sat_weaken; [| | |apply Activate_body_spinner]; cbv beta; auto.
      intros c s' u' ->. destruct c as [r|]; [apply IH | now apply sat_ret]. }
  assert (H : sat spinnerStep (Activate sc)
                (fun _ s' _ => s' = false) (fun s' _ => s' = false)
                (fun s' => s' = false) false u).
  { unfold Activate. sat_step. sat_step.
    destruct (s_SaveState sc) as [state|err]; [apply Hloop|].
    apply sat_exitSend. destruct (Exit u); [reflexivity|].
    eexists. split; reflexivity. }
  unfold sat in H.
  destruct (scan spinnerStep false (fst (Activate sc u))) as [s|]; [|contradiction].
  destruct (snd (Activate sc u)); try contradiction; congruence.
Qed.


(** ** The scopes *)

Ltac scope_solve :=
  cbn;
  repeat match goal with
         | H : Context _ = _ |- _ => rewrite H
         | H : Cancel _ = _ |- _ => rewrite H
         | H : ctxCounter _ = _ |- _ => rewrite H
         end;
  cbn; rewrite ?Nat.eqb_refl; reflexivity.

Ltac scope_step :=
  cbv beta zeta iota;
  lazymatch goal with
  | |- sat _ (bind _ _) _ _ _ _ _ => apply sat_bind
  | |- sat _ (ret _) _ _ _ _ _ => apply sat_ret
  | |- sat _ get _ _ _ _ _ => apply sat_get
  | |- sat _ (modify _) _ _ _ _ _ => apply sat_modify
  | |- sat _ (emit _) _ _ _ _ _ => eapply sat_emit; [ scope_solve | ]
  | |- sat _ (createDataVolumes _ _ _ _) _ _ _ _ _ =>
      apply sat_createDataVolumes; [ intros; reflexivity | intros ? ]
  | |- sat _ (addForwards _ _) _ _ _ _ _ =>
      apply sat_addForwards; [ intros; reflexivity | intros ? ]
  | |- sat _ (go (emit _)) _ _ _ _ ?u =>
      apply sat_go with (Q' := fun _ u' => u' = u);
      [ intros; reflexivity
      | apply wp_emit; [ exact I | reflexivity ]
      | intros ? ? -> ]
  | |- sat _ (deref _) _ _ _ _ _ => eapply sat_deref; [ first [ eassumption | reflexivity ] | ]
  | |- sat _ (exitSend _) _ _ _ _ _ => apply sat_exitSend
  | |- sat _ (match ?x with _ => _ end) _ _ _ _ _ => destruct x eqn:?
  end.

Lemma devMode_scope (w : World) (isRetry : bool) (u : UpContext) n c B O :
  sat scopeStep (devMode w isRetry)
    (fun err s' u' => s' = (n, c, true) /\ sameScope u u' /\
                      (err = None -> Sy u' <> None))
    B O (n, c, true) u.
Proof.
  unfold devMode, devMode_activate, devMode_apply, sameScope.
  repeat scope_step; cbn; repeat split; congruence.
Qed.

Lemma startSync_scope (w : World) (u : UpContext) n c B O :
  Sy u <> None ->
  Context u = Some c ->
  sat scopeStep (startSync w)
    (fun _ s' u' => s' = (n, Some c, true) /\ sameScope u u' /\ Sy u' <> None)
    B O (n, Some c, true) u.
Proof.
  intros HSy HC. destruct (Sy u) as [sy|] eqn:ESy; [clear HSy|congruence].
  unfold startSync, sameScope.
  repeat scope_step; cbn; rewrite ?ESy; repeat split; congruence.
Qed.

Lemma shutdown_scope (sw : ShutdownWorld) (u : UpContext) n c l :
  Cancel u = Some c ->
  scan scopeStep (n, Some c, l) (shutdownEvents sw u) = Some (n, Some c, false).
Proof.
  intros Hc. unfold shutdownEvents, cancelEvents, waiterEvents, stopperEvents.
  rewrite Hc.
  destruct (WG u), (sw_drain sw), (DevForwarder u), (SyncForwarder u);
    cbn; rewrite Nat.eqb_refl; reflexivity.
Qed.

Lemma Activate_body_scope (w : World) (state : TermState) (retry : bool)
    (u : UpContext) l :
  sat scopeStep (Activate_body w state retry)
    (fun _ s' u' => exists l', s' = (ctxCounter u', Cancel u', l') /\
                               Context u' = Cancel u')
    (fun _ _ => True) (fun _ => True) (ctxCounter u, Cancel u, l) u.
Proof.
  unfold Activate_body. repeat scope_step.
  set (c := ctxCounter u).
  eapply sat_weaken;
    [| | |apply devMode_scope with (B := fun _ _ => True) (O := fun _ => True)];
    cbv beta; auto.
  intros err s' u1 (-> & (HC1 & HK1 & HN1) & HS1). cbn in HC1, HK1, HN1. fold c in HC1, HK1, HN1.
  destruct err as [e|].
  { repeat scope_step. destruct (Exit u1); [exact I|].
    eexists. split; [reflexivity|]. scope_step. cbn. rewrite HN1, HK1, HC1. eauto. }
  specialize (HS1 eq_refl). repeat scope_step.
  { destruct (Exit _); [exact I|].
    eexists. split; [reflexivity|]. scope_step. cbn. rewrite HN1, HK1, HC1. eauto. }
  unfold Activate_sync. repeat scope_step.
  eapply sat_weaken;
    [| | |apply startSync_scope with (B := fun _ _ => True) (O := fun _ => True) (c := c);
          [exact HS1 | exact HC1]];
    cbv beta; auto.
  intros err s' u2 (-> & (HC2 & HK2 & HN2) & HS2).
  cbn in HC2, HK2, HN2. rewrite HC1 in HC2. rewrite HK1 in HK2. rewrite HN1 in HN2.
  scope_step. scope_step. destruct err as [e|].
  { repeat scope_step. destruct (Exit u2); [exact I|].
    eexists. split; [reflexivity|]. scope_step. cbn. rewrite HN2, HK2, HC2. eauto. }
  unfold Activate_run. repeat scope_step.
  apply sat_go with (Q' := fun _ u' => u' = u2);
    [reflexivity | apply wp_runCommand |]. intros _ u' ->.
  scope_step. apply sat_Wait; try reflexivity; try exact I.
  intros prevError. repeat scope_step.
  unfold exitSelection. scope_step.
  apply sat_weaken with
    (Q := fun (_ : bool) s' u' => s' = (S c, Some c, true) /\ u' = u2)
    (B := fun _ _ => True) (O := fun _ => True); auto.
  - intros reconnect s' u' [-> ->]. destruct reconnect.
    + repeat scope_step.
      apply sat_shutdown_scan with (s' := (S c, Some c, false)).
      * now apply shutdown_scope.
      * intros res. scope_step. rewrite HN2, HK2, HC2. eauto.
    + repeat scope_step. destruct (Exit u2); [exact I|].
      eexists. split; [reflexivity|]. scope_step. cbn. rewrite HN2, HK2, HC2. eauto.
  - destruct prevError as [[| |m|e]|]; cbn [error_eqb]; try (scope_step; auto).
    destruct (Sy u2) as [sy|] eqn:ESy; [|congruence].
    repeat scope_step. auto.
Qed.

(** X4. Every iteration of Activate works under a scope of its own that
    is still live: each [context.WithCancel] makes a scope that was never
    made before; both port-forward managers of the iteration are built on
    that scope, before it is cancelled; every call of the iteration that
    is given [up.Context] - the creation of the volumes, the lookup of the
    pods, the run of the sync engine and its waits, override and restart -
    is made before the scope is cancelled; and the shutdown before a
    reconnection cancels that scope, the current one.  So no iteration
    works under the scope of an earlier one, which was cancelled. *)
Theorem Activate_scopes (sc : Script) (u : UpContext) (live : bool) :
  exists s',
    scan scopeStep (ctxCounter u, Cancel u, live) (fst (Activate sc u)) = Some s'.
Proof.
  assert (Hloop : forall state ws retry v l,
            sat scopeStep (Activate_loop state retry ws)
              (fun _ _ _ => True) (fun _ _ => True) (fun _ => True)
              (ctxCounter v, Cancel v, l) v).
  { intros state ws. induction ws as [|w ws IH]; intros retry v l; cbn [Activate_loop].
    - now apply sat_outOfScript.
    - apply sat_bind.
      eapply sat_weaken; [| | |apply Activate_body_scope]; cbv beta; auto.
      intros c s' u' (l' & -> & _). destruct c as [r|]; [apply IH | now apply sat_ret]. }
  assert (H : sat scopeStep (Activate sc)
                (fun _ _ _ => True) (fun _ _ => True) (fun _ => True)
                (ctxCounter u, Cancel u, live) u).
  { unfold Activate. scope_step. scope_step.
    destruct (s_SaveState sc) as [state|err]; [apply Hloop|].
    apply sat_exitSend. destruct (Exit u); [exact I|].
    eexists. split; [reflexivity|exact I]. }
  unfold sat in H.
  destruct (scan scopeStep (ctxCounter u, Cancel u, live) (fst (Activate sc u))) as [s|];
    [eauto|contradiction].
Qed.




Ltac consent_solve :=
  cbn [consentStep iterations asked agreed sandboxed current later
       Nat.eqb andb negb Bool.eqb];
  reflexivity.

Ltac consent_auto := repeat sat_exec consent_solve.

Ltac consent_answer E :=
  cbn [consentStep iterations asked agreed sandboxed current later
       Nat.eqb andb negb Bool.eqb];
  rewrite ?E; reflexivity.

(** ** The sandbox *)

Lemma devMode_consent (w : World) (isRetry : bool) (u : UpContext) it a rest B O :
  (isRetry = false -> it = 0 /\ a = false) ->
  sat consentStep (devMode w isRetry)
    (fun err s' u' => later s' = rest /\
                      (err = None -> agreed s' = false /\ Sy u' <> None))
    B O {| iterations := S it; asked := a; agreed := false; sandboxed := false;
           current := Some w; later := rest |} u.
Proof.
  intros Hfirst. unfold devMode, devMode_activate, devMode_apply.
  destruct (w_askYesNo w) eqn:Eask; cbn [negb]; destruct isRetry.
  - repeat sat_exec ltac:(consent_answer Eask);
      try match goal with
          | H : _ || true = false |- _ => rewrite orb_true_r in H; discriminate
          end;
      cbn; (split; [reflexivity|]); intros; try split; congruence.
  - destruct (Hfirst eq_refl) as [-> ->].
    repeat sat_exec ltac:(consent_answer Eask);
      cbn; (split; [reflexivity|]); intros; try split; congruence.
  - repeat sat_exec ltac:(consent_answer Eask);
      try match goal with
          | H : _ || true = false |- _ => rewrite orb_true_r in H; discriminate
          end;
      cbn; (split; [reflexivity|]); intros; try split; congruence.
  - destruct (Hfirst eq_refl) as [-> ->].
    repeat sat_exec ltac:(consent_answer Eask);
      cbn; (split; [reflexivity|]); intros; try split; congruence.
Qed.

Lemma startSync_consent (w : World) (u : UpContext) (s : Consent) B O :
  Sy u <> None ->
  agreed s = false ->
  sat consentStep (startSync w)
    (fun _ s' u' => later s' = later s /\ agreed s' = false /\ Sy u' <> None)
    B O s u.
Proof.
  intros HSy Hja. destruct (Sy u) as [sy|] eqn:ESy; [clear HSy|congruence].
  destruct s as [it a ja sb cur rest]. cbn in Hja. subst ja.
  unfold startSync. consent_auto; cbn; rewrite ?ESy; repeat split; congruence.
Qed.

Lemma Activate_body_consent (w : World) (state : TermState) (retry : bool)
    (u : UpContext) (s : Consent) (rest : list World) :
  later s = w :: rest ->
  (retry = false -> iterations s = 0 /\ asked s = false) ->
  sat consentStep (Activate_body w state retry)
    (fun c s' _ => match c with
                   | Continue r => r = true /\ later s' = rest
                   | Return => True
                   end)
    (fun _ _ => True) (fun _ => True) s u.
Proof.
  intros Hlater Hfirst. destruct s as [it a ja sb cur lt]. cbn in Hfirst, Hlater.
  subst lt. unfold Activate_body. consent_auto.
  eapply sat_weaken;
    [| | |apply devMode_consent with (B := fun _ _ => True) (O := fun _ => True)
            (rest := rest); exact Hfirst];
    cbv beta; auto.
  intros err s1 u1 [Hl1 H1]. destruct s1 as [it1 a1 ja1 sb1 cur1 lt1].
  cbn in Hl1. subst lt1. destruct err as [e|].
  { consent_auto. destruct (Exit u1); [exact I|].
    eexists. split; [reflexivity|]. consent_auto. exact I. }
  destruct (H1 eq_refl) as [Hja1 HS1]. cbn in Hja1. subst ja1. consent_auto.
  { destruct (Exit _); [exact I|].
    eexists. split; [reflexivity|]. consent_auto. exact I. }
  unfold Activate_sync. consent_auto.
  eapply sat_weaken;
    [| | |apply startSync_consent with (B := fun _ _ => True) (O := fun _ => True);
          [exact HS1 | reflexivity]];
    cbv beta; auto.
  intros err s2 u2 (Hl2 & Hja2 & HS2). destruct s2 as [it2 a2 ja2 sb2 cur2 lt2].
  cbn in Hja2, Hl2. subst ja2 lt2.
  sat_exec consent_solve. sat_exec consent_solve. destruct err as [e|].
  { consent_auto. destruct (Exit u2); [exact I|].
    eexists. split; [reflexivity|]. consent_auto. exact I. }
  unfold Activate_run. consent_auto.
  apply sat_go with (Q' := fun _ u' => u' = u2);
    [reflexivity | apply wp_runCommand |]. intros _ u' ->.
  sat_exec consent_solve. apply sat_Wait; try reflexivity; try exact I.
  intros prevError. consent_auto.
  unfold exitSelection. sat_exec consent_solve.
  apply sat_weaken with
    (Q := fun (_ : bool) s' u' => later s' = rest /\ agreed s' = false /\ u' = u2)
    (B := fun _ _ => True) (O := fun _ => True); auto.
  - intros reconnect s' u' (Hl & Hja & ->). destruct s' as [it3 a3 ja3 sb3 cur3 lt3].
    cbn in Hja, Hl. subst ja3 lt3. destruct reconnect.
    + consent_auto. apply sat_shutdown; try reflexivity.
      intros res. sat_exec consent_solve. split; reflexivity.
    + consent_auto. destruct (Exit u2); [exact I|].
      eexists. split; [reflexivity|]. consent_auto. exact I.
  - destruct prevError as [[| |m|e]|]; cbn [error_eqb]; try (sat_exec consent_solve; auto).
    destruct (Sy u2) as [sy|] eqn:ESy; [|congruence].
    consent_auto. auto.
Qed.

(** X5. A workload is created in the cluster only with the consent of the
    user: in every run of Activate the question is asked at most once, and
    only in the first iteration; a sandbox workload is made only right
    after the question and only when the user answered yes to it;
    [DevModeOn] is called with [create] exactly in an iteration whose
    sandbox was made, and the service is created only in such an
    iteration.  No reconnection asks again or creates a workload, and a
    no is never followed by a sandbox. *)
Theorem Activate_sandbox_by_consent (sc : Script) (u : UpContext) :
  exists s',
    scan consentStep
      {| iterations := 0; asked := false; agreed := false; sandboxed := false;
         current := None; later := s_worlds sc |}
      (fst (Activate sc u)) = Some s'.
Proof.
  assert (Hloop : forall state ws retry v s,
            later s = ws ->
            (retry = false -> iterations s = 0 /\ asked s = false) ->
            sat consentStep (Activate_loop state retry ws)
              (fun _ _ _ => True) (fun _ _ => True) (fun _ => True) s v).
  { intros state ws. induction ws as [|w ws IH]; intros retry v s Hl Hs;
      cbn [Activate_loop].
    - now apply sat_outOfScript.
    - apply sat_bind.
      eapply sat_weaken;
        [| | |apply Activate_body_consent with (rest := ws); [exact Hl | exact Hs]];
        cbv beta; auto.
      intros c s' u' Hc. destruct c as [r|]; [|now apply sat_ret].
      destruct Hc as [-> Hl']. apply IH; [exact Hl'|discriminate]. }
  assert (H : sat consentStep (Activate sc)
                (fun _ _ _ => True) (fun _ _ => True) (fun _ => True)
                {| iterations := 0; asked := false; agreed := false; sandboxed := false;
                   current := None; later := s_worlds sc |} u).
  { unfold Activate. sat_exec consent_solve. sat_exec consent_solve.
    destruct (s_SaveState sc) as [state|err]; [apply Hloop; auto|].
    apply sat_exitSend. destruct (Exit u); [exact I|].
    eexists. split; [reflexivity|exact I]. }
  unfold sat in H.
  destruct (scan consentStep _ (fst (Activate sc u))) as [s|]; [eauto|contradiction].
Qed.


(** ** The port-forward managers *)

Ltac fwd_solve :=
  cbn [forwarderStep phaseOf setPhase portsOf addAnswer devPhase syncPhase
       fwdWorld fwdLater map];
  repeat match goal with
         | H : w_SyncthingNew _ = _ |- _ => rewrite H
         | H : w_SyncForwarderAdd _ _ _ = _ |- _ => rewrite H
         | H : w_DevForwarderAdd _ _ _ = _ |- _ => rewrite H
         | H : fwdLater _ = _ |- _ => rewrite H
         end;
  rewrite ?Nat.eqb_refl;
  cbn [forwarderStep phaseOf setPhase portsOf addAnswer devPhase syncPhase
       fwdWorld fwdLater map andb];
  reflexivity.

Ltac fwd_auto := repeat sat_exec fwd_solve.

Lemma devMode_forwarders (w : World) (isRetry : bool) (u : UpContext)
    (fs : list Forward) (s : Forwarding) B O :
  sat (forwarderStep fs) (devMode w isRetry)
    (fun err s' u' =>
       s' = s /\ Forwards (dev u') = Forwards (dev u) /\
       (err = None -> exists sy, Sy u' = Some sy /\ w_SyncthingNew w = Ok sy))
    B O s u.
Proof.
  unfold devMode, devMode_activate, devMode_apply.
  fwd_auto; cbn; (split; [reflexivity|]); (split; [reflexivity|]);
    intros H; try discriminate; eexists; split; reflexivity.
Qed.

Lemma addForwards_forwarders (w : World) (fs0 fs : list Forward) (u : UpContext)
    (sp : FwdPhase) (wl : list World) B O :
  sat (forwarderStep fs0) (addForwards w fs)
    (fun err s' u' =>
       u' = u /\
       s' = {| devPhase := match err with None => Adding [] | Some _ => Refused end;
               syncPhase := sp; fwdWorld := Some w; fwdLater := wl |})
    B O
    {| devPhase := Adding (map (fun f => (Local f, Remote f)) fs);
       syncPhase := sp; fwdWorld := Some w; fwdLater := wl |} u.
Proof.
  induction fs as [|f fs IH]; cbn [addForwards].
  - apply sat_ret. split; reflexivity.
  - apply sat_bind.
    destruct (w_DevForwarderAdd w (Local f) (Remote f)) as [e|] eqn:E.
    + eapply sat_emit; [fwd_solve|]. apply sat_ret. split; reflexivity.
    + eapply sat_emit; [fwd_solve|]. exact IH.
Qed.

Lemma startSync_forwarders (w : World) (u : UpContext) (fs : list Forward)
    (sy : Syncthing) dp sp wl B O :
  Sy u = Some sy ->
  w_SyncthingNew w = Ok sy ->
  sat (forwarderStep fs) (startSync w)
    (fun _ s' u' => fwdLater s' = wl /\ Sy u' <> None /\
                    Forwards (dev u') = Forwards (dev u))
    B O {| devPhase := dp; syncPhase := sp; fwdWorld := Some w; fwdLater := wl |} u.
Proof.
  intros ESy Hsy. unfold startSync.
  fwd_auto; cbn; rewrite ?ESy; repeat split; congruence.
Qed.

Lemma Activate_body_forwarders (w : World) (state : TermState) (retry : bool)
    (u : UpContext) (fs : list Forward) (s : Forwarding) (rest : list World) :
  fwdLater s = w :: rest ->
  Forwards (dev u) = fs ->
  sat (forwarderStep fs) (Activate_body w state retry)
    (fun c s' u' => match c with
                    | Continue _ => fwdLater s' = rest /\ Forwards (dev u') = fs
                    | Return => True
                    end)
    (fun _ _ => True) (fun _ => True) s u.
Proof.
  intros Hl Hfs. unfold Activate_body. fwd_auto.
  eapply sat_weaken;
    [| | |apply devMode_forwarders with (B := fun _ _ => True) (O := fun _ => True)];
    cbv beta; auto.
  intros err s1 u1 (-> & Hf1 & H1). cbn [dev with_Channels with_Context] in Hf1.
  destruct err as [e|].
  { fwd_auto. destruct (Exit u1); [exact I|].
    eexists. split; [reflexivity|]. fwd_auto. exact I. }
  destruct (H1 eq_refl) as (sy & HS1 & Hsy). clear H1.
  sat_exec fwd_solve. sat_exec fwd_solve. sat_exec fwd_solve. sat_exec fwd_solve.
  sat_exec fwd_solve. sat_exec fwd_solve. sat_exec fwd_solve.
  rewrite Hf1, Hfs.
  eapply sat_weaken;
    [| | |apply addForwards_forwarders with (B := fun _ _ => True) (O := fun _ => True)];
    cbv beta; auto.
  intros err s2 u2 [-> ->]. destruct err as [e|].
  { fwd_auto. destruct (Exit _); [exact I|].
    eexists. split; [reflexivity|]. fwd_auto. exact I. }
  sat_exec fwd_solve. sat_exec fwd_solve. sat_exec fwd_solve. sat_exec fwd_solve.
  unfold Activate_sync. sat_exec fwd_solve. sat_exec fwd_solve. sat_exec fwd_solve.
  eapply sat_weaken;
    [| | |apply startSync_forwarders with (B := fun _ _ => True) (O := fun _ => True)
            (sy := sy) (wl := rest); [exact HS1 | exact Hsy]];
    cbv beta; auto.
  intros err s3 u3 (Hl3 & HS3 & Hf3). cbn [dev with_DevForwarder] in Hf3.
  sat_exec fwd_solve. sat_exec fwd_solve. destruct err as [e|].
  { fwd_auto. destruct (Exit u3); [exact I|].
    eexists. split; [reflexivity|]. fwd_auto. exact I. }
  unfold Activate_run. fwd_auto.
  apply sat_go with (Q' := fun _ u' => u' = u3);
    [reflexivity | apply wp_runCommand |]. intros _ u' ->.
  sat_exec fwd_solve. apply sat_Wait; try reflexivity; try exact I.
  intros prevError. fwd_auto.
  unfold exitSelection. sat_exec fwd_solve.
  apply sat_weaken with
    (Q := fun (_ : bool) s' u' => s' = s3 /\ u' = u3)
    (B := fun _ _ => True) (O := fun _ => True); auto.
  - intros reconnect s' u' [-> ->]. destruct reconnect.
    + fwd_auto. apply sat_shutdown; try reflexivity.
      intros res. sat_exec fwd_solve. split; [exact Hl3|congruence].
    + fwd_auto. destruct (Exit u3); [exact I|].
      eexists. split; [reflexivity|]. fwd_auto. exact I.
  - destruct prevError as [[| |m|e]|]; cbn [error_eqb]; try (sat_exec fwd_solve; auto).
    destruct (Sy u3) as [sy3|] eqn:ESy; [|congruence].
    fwd_auto. auto.
Qed.

(** X6. Activate uses each port-forward manager as the manager requires,
    given what [Add] answers.  Every iteration makes its managers anew.
    The dev manager is given the declared forwards, all of them, in
    declaration order, and the sync manager the two ports of the sync
    engine of that iteration, in their order; a port is added only when
    the one before it was accepted; after a refused port the manager is
    given no other port and is not started; a manager is started only
    when all its ports were accepted, and once. *)
Theorem Activate_forwarder_protocol (sc : Script) (u : UpContext)
    (dp sp : FwdPhase) :
  exists s',
    scan (forwarderStep (Forwards (dev u)))
      {| devPhase := dp; syncPhase := sp; fwdWorld := None; fwdLater := s_worlds sc |}
      (fst (Activate sc u)) = Some s'.
Proof.
  assert (Hloop : forall state ws retry v s,
            fwdLater s = ws ->
            Forwards (dev v) = Forwards (dev u) ->
            sat (forwarderStep (Forwards (dev u))) (Activate_loop state retry ws)
              (fun _ _ _ => True) (fun _ _ => True) (fun _ => True) s v).
  { intros state ws. induction ws as [|w ws IH]; intros retry v s Hl Hf;
      cbn [Activate_loop].
    - now apply sat_outOfScript.
    - apply sat_bind.
      eapply sat_weaken;
        [| | |apply Activate_body_forwarders with (rest := ws); [exact Hl | exact Hf]];
        cbv beta; auto.
      intros c s' u' Hc. destruct c as [r|]; [|now apply sat_ret].
      destruct Hc as [Hl' Hf']. now apply IH. }
  assert (H : sat (forwarderStep (Forwards (dev u))) (Activate sc)
                (fun _ _ _ => True) (fun _ _ => True) (fun _ => True)
                {| devPhase := dp; syncPhase := sp; fwdWorld := None;
                   fwdLater := s_worlds sc |} u).
  { unfold Activate. sat_exec fwd_solve. sat_exec fwd_solve.
    destruct (s_SaveState sc) as [state|err]; [now apply Hloop|].
    apply sat_exitSend. destruct (Exit u); [exact I|].
    eexists. split; [reflexivity|exact I]. }
  unfold sat in H.
  destruct (scan (forwarderStep (Forwards (dev u))) _ (fst (Activate sc u))) as [s|];
    [eauto|contradiction].
Qed.


(** ** The address of the workload *)

Ltac addr_solve :=
  cbn;
  repeat match goal with
         | H : dev _ = _ |- _ => rewrite H
         end;
  rewrite ?String.eqb_refl; reflexivity.

Lemma devMode_address (w : World) (isRetry : bool) (u : UpContext) (d : Dev) B O :
  dev u = d ->
  Namespace d <> EmptyString ->
  sat (addressStep d) (devMode w isRetry)
    (fun err _ u' => dev u' = d /\ (err = None -> Sy u' <> None)) B O tt u.
Proof.
  intros Hd Hns. unfold devMode, devMode_activate, devMode_apply.
  sat_exec addr_solve. sat_exec addr_solve. sat_exec addr_solve.
  { sat_exec addr_solve. sat_exec addr_solve. sat_exec addr_solve.
    rewrite Hd. destruct (String.eqb_spec (Namespace d) EmptyString) as [E|_];
      [contradiction|].
    repeat sat_exec addr_solve; cbn; rewrite ?Hd; split; congruence. }
  sat_exec addr_solve. split; [exact Hd|discriminate].
Qed.

Lemma startSync_address (w : World) (u : UpContext) (d : Dev) B O :
  Sy u <> None ->
  dev u = d ->
  sat (addressStep d) (startSync w)
    (fun _ _ u' => dev u' = d /\ Sy u' <> None /\ True) B O tt u.
Proof.
  intros HSy Hd. destruct (Sy u) as [sy|] eqn:ESy; [clear HSy|congruence].
  unfold startSync.
  repeat sat_exec addr_solve; cbn; rewrite ?ESy; repeat split; congruence.
Qed.

Lemma Activate_body_address (w : World) (state : TermState) (retry : bool)
    (u : UpContext) (d : Dev) :
  dev u = d ->
  Namespace d <> EmptyString ->
  sat (addressStep d) (Activate_body w state retry)
    (fun _ _ u' => dev u' = d) (fun _ u' => dev u' = d) (fun _ => True) tt u.
Proof.
  intros Hd Hns. unfold Activate_body. repeat sat_exec addr_solve.
  eapply sat_weaken;
    [| | |apply devMode_address with (B := fun _ u' => dev u' = d) (O := fun _ => True);
          [exact Hd | exact Hns]];
    cbv beta; auto.
  intros err [] u1 [Hd1 HS1]. destruct err as [e|].
  { repeat sat_exec addr_solve. destruct (Exit u1); [exact Hd1|].
    eexists. split; [reflexivity|]. sat_exec addr_solve. exact Hd1. }
  specialize (HS1 eq_refl). repeat sat_exec addr_solve.
  { destruct (Exit _); [exact Hd1|].
    eexists. split; [reflexivity|]. sat_exec addr_solve. exact Hd1. }
  unfold Activate_sync. repeat sat_exec addr_solve.
  eapply sat_weaken;
    [| | |apply startSync_address with (B := fun _ u' => dev u' = d) (O := fun _ => True);
          [exact HS1 | exact Hd1]];
    cbv beta; auto.
  intros err [] u2 (Hd2 & HS2 & _).
  sat_exec addr_solve. sat_exec addr_solve. destruct err as [e|].
  { repeat sat_exec addr_solve. destruct (Exit u2); [exact Hd2|].
    eexists. split; [reflexivity|]. sat_exec addr_solve. exact Hd2. }
  unfold Activate_run. repeat sat_exec addr_solve.
  apply sat_go with (Q' := fun _ u' => u' = u2);
    [reflexivity | apply wp_runCommand |]. intros _ u' ->.
  sat_exec addr_solve. apply sat_Wait; try reflexivity; try exact Hd2.
  intros prevError. repeat sat_exec addr_solve.
  unfold exitSelection. sat_exec addr_solve.
  apply sat_weaken with
    (Q := fun (_ : bool) (_ : unit) u' => u' = u2)
    (B := fun _ u' => dev u' = d) (O := fun _ => True); auto.
  - intros reconnect [] u' ->. destruct reconnect.
    + repeat sat_exec addr_solve. apply sat_shutdown; try reflexivity.
      intros res. sat_exec addr_solve. exact Hd2.
    + repeat sat_exec addr_solve. destruct (Exit u2); [exact Hd2|].
      eexists. split; [reflexivity|]. sat_exec addr_solve. exact Hd2.
  - destruct prevError as [[| |m|e]|]; cbn [error_eqb]; try (sat_exec addr_solve; auto).
    destruct (Sy u2) as [sy|] eqn:ESy; [|congruence].
    repeat sat_exec addr_solve. auto.
Qed.

Lemma Activate_loop_address (state : TermState) (ws : list World) (retry : bool)
    (u : UpContext) (d : Dev) :
  dev u = d ->
  Namespace d <> EmptyString ->
  sat (addressStep d) (Activate_loop state retry ws)
    (fun _ _ u' => dev u' = d) (fun _ u' => dev u' = d) (fun _ => True) tt u.
Proof.
  intros Hd Hns. revert retry u Hd.
  induction ws as [|w ws IH]; intros retry u Hd; cbn [Activate_loop].
  - now apply sat_outOfScript.
  - apply sat_bind.
    eapply sat_weaken; [| | |apply Activate_body_address; [exact Hd | exact Hns]];
      cbv beta; auto.
    intros c [] u' Hu'. destruct c as [r|]; [now apply IH | now apply sat_ret].
Qed.

Lemma Activate_address (sc : Script) (u : UpContext) :
  Namespace (dev u) <> EmptyString ->
  sat (addressStep (dev u)) (Activate sc)
    (fun _ _ u' => dev u' = dev u) (fun _ u' => dev u' = dev u)
    (fun _ => True) tt u.
Proof.
  intros Hns. unfold Activate. sat_step. sat_step.
  destruct (s_SaveState sc) as [state|err];
    [now apply Activate_loop_address|].
  apply sat_exitSend. destruct (Exit u); [reflexivity|].
  eexists. split; reflexivity.
Qed.

(** X7. Once the namespace of the session is set, every iteration works
    on the same workload: when [up.Dev.Namespace] is not empty, Activate
    never changes [up.Dev], every fetch of the workload - on the first
    attempt and on each retry - is by that name and that namespace, and
    every forwarder is started in that namespace, whatever namespace the
    cluster credentials answer meanwhile. *)
Theorem Activate_keeps_address (sc : Script) (u : UpContext) :
  Namespace (dev u) <> EmptyString ->
  scan (addressStep (dev u)) tt (fst (Activate sc u)) = Some tt /\
  match snd (Activate sc u) with
  | Done _ u' | Blocked u' => dev u' = dev u
  | Panic => False
  | OutOfScript => True
  end.
Proof.
  intros Hns. pose proof (Activate_address sc u Hns) as H.
  unfold sat in H.
  destruct (scan (addressStep (dev u)) tt (fst (Activate sc u))) as [[]|];
    [|contradiction].
  split; [reflexivity|]. destruct (snd (Activate sc u)); auto.
Qed.


(** ** The volumes and the forwards of an iteration *)

Lemma nth_error_map_seq {A} (f : nat -> A) (n a i : nat) :
  i < n -> nth_error (map f (seq a n)) i = Some (f (a + i)).
Proof.
  revert a i. induction n as [|n IH]; intros a i Hi; [lia|].
  destruct i as [|i]; cbn [seq map nth_error].
  - now rewrite Nat.add_0_r.
  - rewrite IH by lia. f_equal. f_equal. lia.
Qed.

Lemma createDataVolumes_volumes (w : World) (d : Dev) (vs : list string) (i : nat)
    (u : UpContext) B O :
  i + List.length vs = List.length (Volumes d) ->
  sat (volumeStep w d) (createDataVolumes w d i vs)
    (fun r s' u' =>
       u' = u /\
       match r with
       | None => s' = (List.length (volumeNames d), None)
       | Some e => exists made, s' = (made, Some e)
       end)
    B O (S i, None) u.
Proof.
  revert i. induction vs as [|v vs IH]; intros i Hi; cbn [createDataVolumes].
  - apply sat_ret. split; [reflexivity|]. unfold volumeNames.
    cbn [List.length] in *. rewrite length_map, length_seq. f_equal. f_equal. lia.
  - cbn [List.length] in Hi. apply sat_bind.
    assert (Hn : nth_error (volumeNames d) (S i) = Some (GetVolumeDataName d i)).
    { unfold volumeNames. cbn [nth_error]. rewrite nth_error_map_seq by lia.
      reflexivity. }
    destruct (w_VolumesCreate w (S i)) as [e|] eqn:E.
    + eapply sat_emit.
      * cbn [volumeStep]. rewrite Hn, String.eqb_refl, E. reflexivity.
      * apply sat_ret. split; [reflexivity|]. eexists. reflexivity.
    + eapply sat_emit.
      * cbn [volumeStep]. rewrite Hn, String.eqb_refl, E. reflexivity.
      * apply IH. lia.
Qed.

Ltac vol_solve :=
  cbn [volumeStep volumeNames nth_error];
  repeat match goal with
         | H : dev _ = _ |- _ => rewrite H
         | H : w_VolumesCreate _ _ = _ |- _ => rewrite H
         end;
  rewrite ?String.eqb_refl, ?Nat.eqb_refl; reflexivity.

Lemma devMode_apply_volumes (w : World) (d : Dev) (dpl : Deployment) (create : bool)
    (u : UpContext) B O :
  dev u = d ->
  sat (volumeStep w d) (devMode_apply w dpl create)
    (fun err s' _ =>
       (forall e, snd s' = Some e -> err = Some e) /\
       (err = None -> s' = (List.length (volumeNames d), None)))
    B O (0, None) u.
Proof.
  intros Hd. unfold devMode_apply.
  sat_exec vol_solve. sat_exec vol_solve. sat_exec vol_solve.
  { sat_exec vol_solve. split; [discriminate|discriminate]. }
  sat_exec vol_solve. sat_exec vol_solve. sat_exec vol_solve. sat_exec vol_solve.
  sat_exec vol_solve.
  { sat_exec vol_solve. cbn. split; [intros e0 H; congruence|discriminate]. }
  sat_exec vol_solve. rewrite Hd.
  eapply sat_weaken;
    [| | |apply createDataVolumes_volumes with (B := B) (O := O); reflexivity];
    cbv beta; auto.
  intros r s' u' [-> Hr]. destruct r as [e|].
  { destruct Hr as (made & ->). sat_exec vol_solve. cbn.
    split; [intros e0 H; congruence|discriminate]. }
  subst s'.
  repeat sat_exec vol_solve; cbn;
    (split; [discriminate | first [discriminate | reflexivity]]).
Qed.

Lemma devMode_volumes (w : World) (isRetry : bool) (u : UpContext) B O :
  sat (volumeStep w (devOf w u)) (devMode w isRetry)
    (fun err s' _ =>
       (forall e, snd s' = Some e -> err = Some e) /\
       (err = None -> s' = (List.length (volumeNames (devOf w u)), None)))
    B O (0, None) u.
Proof.
  unfold devMode, devOf, effectiveDev.
  sat_exec vol_solve. sat_exec vol_solve.
  destruct (w_GetLocal w) as [ns|err].
  2: { sat_exec vol_solve. split; discriminate. }
  sat_exec vol_solve. sat_exec vol_solve. sat_exec vol_solve.
  assert (Hact : forall dpl create v,
            dev v = (if String.eqb (Namespace (dev u)) EmptyString
                     then set_Namespace (dev u) ns else dev u) ->
            sat (volumeStep w (if String.eqb (Namespace (dev u)) EmptyString
                               then set_Namespace (dev u) ns else dev u))
              (devMode_activate w isRetry dpl create)
              (fun err s' _ =>
                 (forall e, snd s' = Some e -> err = Some e) /\
                 (err = None ->
                  s' = (List.length
                          (volumeNames (if String.eqb (Namespace (dev u)) EmptyString
                                        then set_Namespace (dev u) ns else dev u)),
                        None)))
              B O (0, None) v).
  { intros dpl create v Hv. unfold devMode_activate.
    sat_exec vol_solve. sat_exec vol_solve. sat_exec vol_solve.
    destruct (isRetry && negb (IsDevModeOn dpl)).
    - repeat sat_exec vol_solve. split; discriminate.
    - eapply sat_weaken;
        [| | |apply devMode_apply_volumes with (B := B) (O := O); exact Hv];
        cbv beta; auto.
      intros err s' u' [H1 H2]. destruct s' as [made failed].
      repeat sat_exec vol_solve. split; assumption. }
  destruct (String.eqb (Namespace (dev u)) EmptyString);
    repeat sat_exec vol_solve;
    try (split; discriminate);
    apply Hact; reflexivity.
Qed.

(** X8. In every call of devMode the persistent volumes are created in
    the order of the source: first the volume under the name of the
    [Dev], then one per entry of [up.Dev.Volumes], in index order and
    under the name [GetVolumeDataName] gives to the index.  A volume is
    created only when every creation before it succeeded; the first
    creation that fails ends devMode with its error; and the workload is
    put in dev mode only after all the volumes were created without
    error - so a devMode that succeeds has created them all. *)
Theorem devMode_volumes_in_order (w : World) (isRetry : bool) (u : UpContext) :
  exists made failed,
    scan (volumeStep w (devOf w u)) (0, None) (fst (devMode w isRetry u)) =
      Some (made, failed) /\
    (forall e, failed = Some e ->
               returned (snd (devMode w isRetry u)) = Some (Some e)) /\
    (returned (snd (devMode w isRetry u)) = Some None ->
     made = S (List.length (Volumes (devOf w u))) /\ failed = None).
Proof.
  pose proof (devMode_volumes w isRetry u (fun _ _ => False) (fun _ => False)) as H.
  unfold sat in H.
  destruct (scan (volumeStep w (devOf w u)) (0, None) (fst (devMode w isRetry u)))
    as [[made failed]|]; [|contradiction].
  exists made, failed. split; [reflexivity|].
  destruct (snd (devMode w isRetry u)) as [err u'| |u'|]; try contradiction.
  destruct H as [H1 H2]. cbn [returned snd] in *. split.
  - intros e He. now rewrite (H1 e He).
  - intros Hn. inversion Hn as [Hn']. specialize (H2 Hn'). inversion H2.
    split; [|reflexivity]. unfold volumeNames. cbn [List.length].
    now rewrite length_map, length_seq.
Qed.

Lemma addForwards_refused (w : World) (fs : list Forward) (k : nat) (f : Forward)
    (e : error) (u : UpContext) :
  nth_error fs k = Some f ->
  w_DevForwarderAdd w (Local f) (Remote f) = Some e ->
  Forall (fun f => w_DevForwarderAdd w (Local f) (Remote f) = None) (firstn k fs) ->
  addForwards w fs u =
    (map (fun f => EvForwarderAdd DevFwd (Local f) (Remote f)) (firstn (S k) fs),
     Done (Some e) u).
Proof.
  revert k. induction fs as [|g fs IH]; intros k Hn He Hpre.
  - destruct k; discriminate.
  - cbn [addForwards]. rewrite bind_emit. destruct k as [|k].
    + cbn in Hn. inversion Hn; subst g. rewrite He. reflexivity.
    + cbn [nth_error] in Hn. cbn [firstn] in Hpre. inversion Hpre as [|? ? Hg Hrest]; subst.
      rewrite Hg, (IH k Hn He Hrest). reflexivity.
Qed.

Lemma addForwards_accepted (w : World) (fs : list Forward) (u : UpContext) :
  Forall (fun f => w_DevForwarderAdd w (Local f) (Remote f) = None) fs ->
  addForwards w fs u =
    (map (fun f => EvForwarderAdd DevFwd (Local f) (Remote f)) fs, Done None u).
Proof.
  induction 1 as [|g fs Hg Hrest IH]; cbn [addForwards]; [reflexivity|].
  rewrite bind_emit, Hg, IH. reflexivity.
Qed.

(** X9. The forwards of an iteration.  After a devMode that succeeded,
    Activate makes the dev manager and adds the forwards of [up.Dev], in
    declaration order.  When the manager refuses one - the first it
    refuses - no forward after it is added, the manager is not started,
    and Activate posts the error of that refusal on [Exit] and returns.
    When it accepts them all, every forward was added once, in order, and
    the manager is then started on the dev pod in the namespace of
    [up.Dev]. *)
Theorem Activate_adds_forwards (w : World) (state : TermState) (retry : bool)
    (u : UpContext) (t1 : list Event) (u1 : UpContext) :
  Exit u = None ->
  devMode w retry (atDevMode u) = (t1, Done None u1) ->
  let fs := Forwards (dev u1) in
  let add := fun f => EvForwarderAdd DevFwd (Local f) (Remote f) in
  let accepted := fun f => w_DevForwarderAdd w (Local f) (Remote f) = None in
  let setup := [EvWithCancel (ctxCounter u); EvMakeChannels] ++ t1 ++
               [EvNewPortForwardManager DevFwd (Context u1)] in
  (forall k f e,
     nth_error fs k = Some f ->
     w_DevForwarderAdd w (Local f) (Remote f) = Some e ->
     Forall accepted (firstn k fs) ->
     exists u',
       Activate_body w state retry u =
         (setup ++ map add (firstn (S k) fs) ++ [EvExitSend (Some e)],
          Done Return u') /\
       Exit u' = Some (Some e)) /\
  (Forall accepted fs ->
   exists rest,
     fst (Activate_body w state retry u) =
       setup ++ map add fs ++
       EvForwarderStart DevFwd (DevPod u1) (Namespace (dev u1)) :: rest).
Proof.
  intros HE Hdev fs add accepted setup.
  assert (HE1 : Exit u1 = None).
  { destruct (devMode_wp w retry (atDevMode u)) as (t & a & u' & E & _ & HEx & _).
    rewrite Hdev in E. inversion E; subst. rewrite HEx. exact HE. }
  split.
  - intros k f e Hn He Hpre.
    exists (with_Exit (with_DevForwarder u1 {| pfmContext := Context u1 |})
              (Some (Some e))).
    split; [|reflexivity].
    unfold Activate_body. run. unfold atDevMode in Hdev.
    rewrite (bind_done _ _ _ _ _ _ Hdev). cbv zeta. run.
    rewrite (bind_done _ _ _ _ _ _
               (addForwards_refused w fs k f e _ Hn He Hpre)).
    unfold exitSend. run. cbn [Exit with_DevForwarder]. rewrite HE1. run.
    unfold ret, prepend, setup. cbn [fst snd].
    rewrite app_nil_r, <- !app_assoc. reflexivity.
  - intros Hall. unfold Activate_body. run. unfold atDevMode in Hdev.
    rewrite (bind_done _ _ _ _ _ _ Hdev). cbv zeta. run.
    rewrite (bind_done _ _ _ _ _ _ (addForwards_accepted w fs _ Hall)). run.
    unfold prepend, setup. cbn [fst snd]. eexists.
    rewrite <- !app_assoc. cbn [app]. reflexivity.
Qed.


(** ** The teardown between iterations *)



Ltac td_solve := cbn [teardownStep]; reflexivity.

Ltac td_step := sat_exec td_solve.

Lemma devMode_teardown (w : World) (isRetry : bool) (u : UpContext) s B O :
  sat teardownStep (devMode w isRetry)
    (fun err s' u' => s' = s /\ Cancel u' = Cancel u /\
                      (err = None -> Sy u' <> None))
    B O s u.
Proof.
  unfold devMode, devMode_activate, devMode_apply.
  repeat td_step; cbn; repeat split; congruence.
Qed.

Lemma startSync_teardown (w : World) (u : UpContext) s B O :
  Sy u <> None ->
  sat teardownStep (startSync w)
    (fun err s' u' => s' = s /\ Cancel u' = Cancel u /\ Sy u' <> None)
    B O s u.
Proof.
  intros HSy. destruct (Sy u) as [sy|] eqn:ESy; [clear HSy|congruence].
  unfold startSync.
  repeat td_step; cbn; rewrite ?ESy; repeat split; congruence.
Qed.

Lemma shutdown_tears_down (sw : ShutdownWorld) (u : UpContext) :
  Cancel u <> None ->
  scan teardownStep (Some true) (shutdownEvents sw u) = Some (Some false).
Proof.
  intros Hc. unfold shutdownEvents, cancelEvents, waiterEvents, stopperEvents.
  destruct (Cancel u); [|congruence].
  destruct (WG u), (sw_drain sw), (DevForwarder u), (SyncForwarder u); reflexivity.
Qed.

Lemma Activate_body_teardown (w : World) (state : TermState) (retry : bool)
    (u : UpContext) s :
  s = None \/ s = Some false ->
  sat teardownStep (Activate_body w state retry)
    (fun c s' _ => match c with
                   | Continue _ => s' = Some false
                   | Return => True
                   end)
    (fun _ _ => True) (fun _ => True) s u.
Proof.
  intros Hs. unfold Activate_body. td_step. td_step. td_step.
  apply sat_emit with (s' := Some true);
    [destruct Hs as [-> | ->]; reflexivity|].
  clear s Hs. repeat td_step.
  eapply sat_weaken;
    [| | |apply devMode_teardown with (B := fun _ _ => True) (O := fun _ => True)];
    cbv beta; auto.
  intros err s' u1 (-> & HK1 & HS1). cbn in HK1.
  destruct err as [e|].
  { repeat td_step. destruct (Exit u1); [exact I|].
    eexists. split; [reflexivity|]. td_step. exact I. }
  specialize (HS1 eq_refl). repeat td_step.
  { destruct (Exit _); [exact I|].
    eexists. split; [reflexivity|]. td_step. exact I. }
  unfold Activate_sync. repeat td_step.
  eapply sat_weaken;
    [| | |apply startSync_teardown with (B := fun _ _ => True) (O := fun _ => True);
          exact HS1];
    cbv beta; auto.
  intros err s' u2 (-> & HK2 & HS2). cbn in HK2. rewrite HK1 in HK2.
  td_step. td_step. destruct err as [e|].
  { repeat td_step. destruct (Exit u2); [exact I|].
    eexists. split; [reflexivity|]. td_step. exact I. }
  unfold Activate_run. repeat td_step.
  apply sat_go_runCommand; [reflexivity|].
  td_step. apply sat_Wait; try reflexivity; try exact I.
  intros prevError. repeat td_step.
  unfold exitSelection. td_step.
  apply sat_weaken with
    (Q := fun (_ : bool) s' u' => s' = Some true /\ u' = u2)
    (B := fun _ _ => True) (O := fun _ => True); auto.
  - intros reconnect s' u' [-> ->]. destruct reconnect.
    + repeat td_step.
      apply sat_shutdown_scan with (s' := Some false).
      * apply shutdown_tears_down; congruence.
      * intros res. td_step. reflexivity.
    + repeat td_step. destruct (Exit u2); [exact I|].
      eexists. split; [reflexivity|]. td_step. exact I.
  - destruct prevError as [[| |m|e]|]; cbn [error_eqb]; try (td_step; auto).
    destruct (Sy u2) as [sy|] eqn:ESy; [|congruence].
    repeat td_step. auto.
Qed.

(** X10. Activate never holds two live scopes: a new
    [context.WithCancel] is reached only at the first iteration, or after
    the supervisor itself cancelled the scope of the iteration before it -
    the cancel of the shutdown that precedes every reconnection, made by
    the supervisor's own goroutine before it loops - and no scope is
    cancelled twice.  (When the goroutines that shutdown spawns run is not
    part of the statement.) *)
Theorem Activate_tears_down_before_retry (sc : Script) (u : UpContext) :
  exists s', scan teardownStep None (fst (Activate sc u)) = Some s'.
Proof.
  assert (Hloop : forall state ws retry v s,
            s = None \/ s = Some false ->
            sat teardownStep (Activate_loop state retry ws)
              (fun _ _ _ => True) (fun _ _ => True) (fun _ => True) s v).
  { intros state ws. induction ws as [|w ws IH]; intros retry v s Hs;
      cbn [Activate_loop].
    - now apply sat_outOfScript.
    - apply sat_bind.
      eapply sat_weaken; [| | |apply Activate_body_teardown; exact Hs];
        cbv beta; auto.
      intros c s' u' Hc. destruct c as [r|]; [apply IH; now right | now apply sat_ret]. }
  assert (H : sat teardownStep (Activate sc)
                (fun _ _ _ => True) (fun _ _ => True) (fun _ => True) None u).
  { unfold Activate. td_step. td_step.
    destruct (s_SaveState sc) as [state|err]; [apply Hloop; now left|].
    apply sat_exitSend. destruct (Exit u); [exact I|].
    eexists. split; [reflexivity|exact I]. }
  unfold sat in H.
  destruct (scan teardownStep None (fst (Activate sc u))) as [s|];
    [eauto|contradiction].
Qed.


(** ** The pods of the managers *)

Ltac pods_solve :=
  cbn [podsStep fst snd labelOf DevPod SyncPod with_DevForwarder with_SyncForwarder];
  repeat match goal with
         | H : w_GetDevPod _ _ = Ok _ |- _ => rewrite H
         end;
  rewrite ?String.eqb_refl; reflexivity.

Lemma devMode_pods (w : World) (isRetry : bool) (u : UpContext) s B O :
  sat podsStep (devMode w isRetry)
    (fun err s' u' => s' = s /\
       (err = None ->
        Sy u' <> None /\
        w_GetDevPod w OktetoDevLabel = Ok (DevPod u') /\
        w_GetDevPod w OktetoSyncLabel = Ok (SyncPod u')))
    B O s u.
Proof.
  unfold devMode, devMode_activate, devMode_apply.
  repeat sat_exec pods_solve; cbn; (split; [reflexivity|]); intros H;
    try discriminate; repeat split; congruence.
Qed.

Lemma startSync_pods (w : World) (u : UpContext) (rest : list World) B O :
  Sy u <> None ->
  w_GetDevPod w OktetoSyncLabel = Ok (SyncPod u) ->
  sat podsStep (startSync w)
    (fun _ s' u' => s' = (Some w, rest) /\ Sy u' <> None)
    B O (Some w, rest) u.
Proof.
  intros HSy Hp. destruct (Sy u) as [sy|] eqn:ESy; [clear HSy|congruence].
  unfold startSync.
  repeat sat_exec pods_solve; cbn; rewrite ?ESy; split; congruence.
Qed.

Lemma Activate_body_pods (w : World) (state : TermState) (retry : bool)
    (u : UpContext) cur rest :
  sat podsStep (Activate_body w state retry)
    (fun _ s' _ => s' = (Some w, rest)) (fun _ _ => True) (fun _ => True)
    (cur, w :: rest) u.
Proof.
  unfold Activate_body. repeat sat_exec pods_solve.
  eapply sat_weaken;
    [| | |apply devMode_pods with (B := fun _ _ => True) (O := fun _ => True)];
    cbv beta; auto.
  intros err s' u1 (-> & H1). destruct err as [e|].
  { repeat sat_exec pods_solve. destruct (Exit u1); [exact I|].
    eexists. split; [reflexivity|]. sat_exec pods_solve. reflexivity. }
  destruct (H1 eq_refl) as (HS1 & HD1 & HY1). clear H1.
  repeat sat_exec pods_solve.
  { destruct (Exit _); [exact I|].
    eexists. split; [reflexivity|]. sat_exec pods_solve. reflexivity. }
  unfold Activate_sync. repeat sat_exec pods_solve.
  eapply sat_weaken;
    [| | |apply startSync_pods with (B := fun _ _ => True) (O := fun _ => True);
          [exact HS1 | exact HY1]];
    cbv beta; auto.
  intros err s' u2 (-> & HS2).
  sat_exec pods_solve. sat_exec pods_solve. destruct err as [e|].
  { repeat sat_exec pods_solve. destruct (Exit u2); [exact I|].
    eexists. split; [reflexivity|]. sat_exec pods_solve. reflexivity. }
  unfold Activate_run. repeat sat_exec pods_solve.
  apply sat_go with (Q' := fun _ u' => u' = u2);
    [reflexivity | apply wp_runCommand |]. intros _ u' ->.
  sat_exec pods_solve. apply sat_Wait; try reflexivity; try exact I.
  intros prevError. repeat sat_exec pods_solve.
  unfold exitSelection. sat_exec pods_solve.
  apply sat_weaken with
    (Q := fun (_ : bool) s' u' => s' = (Some w, rest) /\ u' = u2)
    (B := fun _ _ => True) (O := fun _ => True); auto.
  - intros reconnect s' u' [-> ->]. destruct reconnect.
    + repeat sat_exec pods_solve. apply sat_shutdown; reflexivity.
    + repeat sat_exec pods_solve. destruct (Exit u2); [exact I|].
      eexists. split; [reflexivity|]. sat_exec pods_solve. reflexivity.
  - destruct prevError as [[| |m|e]|]; cbn [error_eqb]; try (sat_exec pods_solve; auto).
    destruct (Sy u2) as [sy|] eqn:ESy; [|congruence].
    repeat sat_exec pods_solve. auto.
Qed.

(** X11. In every iteration of Activate each port-forward manager is
    started on the pod that the lookup of that same iteration answered
    under the label of that manager: the dev manager on the pod found
    under the dev label, the sync manager on the pod found under the sync
    label.  After a reconnection the pods are looked up again; a pod name
    of an earlier iteration is never used, and the two are never
    swapped. *)
Theorem Activate_forwards_to_current_pods (sc : Script) (u : UpContext) :
  exists s', scan podsStep (None, s_worlds sc) (fst (Activate sc u)) = Some s'.
Proof.
  assert (Hloop : forall state ws retry v cur,
            sat podsStep (Activate_loop state retry ws)
              (fun _ _ _ => True) (fun _ _ => True) (fun _ => True) (cur, ws) v).
  { intros state ws. induction ws as [|w ws IH]; intros retry v cur;
      cbn [Activate_loop].
    - now apply sat_outOfScript.
    - apply sat_bind.
      eapply sat_weaken; [| | |apply Activate_body_pods]; cbv beta; auto.
      intros c s' u' ->. destruct c as [r|]; [apply IH | now apply sat_ret]. }
  assert (H : sat podsStep (Activate sc)
                (fun _ _ _ => True) (fun _ _ => True) (fun _ => True)
                (None, s_worlds sc) u).
  { unfold Activate. sat_exec pods_solve. sat_exec pods_solve.
    destruct (s_SaveState sc) as [state|err]; [apply Hloop|].
    apply sat_exitSend. destruct (Exit u); [exact I|].
    eexists. split; [reflexivity|exact I]. }
  unfold sat in H.
  destruct (scan podsStep (None, s_worlds sc) (fst (Activate sc u))) as [s|];
    [eauto|contradiction].
Qed.


(** ** What RunUp returns *)

Lemma RunUp_run (d : Dev) (sc : Script) (top : TopWorld) t0 r u1 :
  RunUp_select sc top (newUpContext d) = (t0, Done r u1) ->
  RunUp d sc top = (t0 ++ shutdownEvents (t_shutdown top) u1, Done r u1).
Proof.
  intros E0. unfold RunUp. rewrite (bind_done _ _ _ _ _ _ E0).
  destruct (shutdown_returns (t_shutdown top) u1) as (how & ms & E & _).
  rewrite (bind_done _ _ _ _ _ _ E). unfold ret, shutdownEvents.
  now rewrite !prepend_pair, app_nil_r.
Qed.

Lemma RunUp_select_exit_run (d : Dev) (sc : Script) (top : TopWorld) r u1 t0 :
  t_select top = ExitFirst ->
  RunUp_select sc top (newUpContext d) = (t0, Done r u1) ->
  exists tA uA,
    Activate sc (newUpContext d) = (tA, Done tt uA) /\
    Exit uA = Some r /\ u1 = with_Exit uA None /\
    t0 = EvSignalNotify :: map EvGo tA.
Proof.
  intros Hsel. unfold RunUp_select. rewrite Hsel, bind_emit, bind_go.
  pose proof (Activate_post sc (newUpContext d) eq_refl) as HA. unfold sat in HA.
  destruct (Activate sc (newUpContext d)) as [tA [[] uA| |uA|]]; cbn [fst snd] in HA;
    destruct (scan postStep None tA) as [s|]; try contradiction.
  - rewrite bind_get. destruct HA as [-> Hne].
    destruct (Exit uA) as [v|] eqn:EE; [|congruence].
    rewrite bind_modify. intros H. exists tA, uA.
    destruct v as [e|]; unfold ret, prepend in H; cbn in H; inversion H; subst;
      rewrite ?app_nil_r; repeat split; auto.
  - rewrite bind_get. destruct HA as [_ ->]. unfold blocked, prepend. discriminate.
  - unfold prepend. discriminate.
Qed.

(** RunUp returns only after the supervisor, or an interrupt. *)
Lemma RunUp_returned (d : Dev) (sc : Script) (top : TopWorld) r u' :
  snd (RunUp d sc top) = Done r u' ->
  exists t0,
    RunUp_select sc top (newUpContext d) = (t0, Done r u') /\
    fst (RunUp d sc top) = t0 ++ shutdownEvents (t_shutdown top) u'.
Proof.
  intros H.
  destruct (RunUp_select sc top (newUpContext d)) as [t0 [r0 u1| |u1|]] eqn:E0;
    try (unfold RunUp, bind in H; rewrite E0 in H; discriminate).
  rewrite (RunUp_run d sc top _ _ _ E0) in *. cbn [fst snd] in H.
  inversion H; subst r0 u1. exists t0. auto.
Qed.

(** What the supervisor did when RunUp took a value from [Exit]. *)
Lemma RunUp_exit_posted (d : Dev) (sc : Script) (top : TopWorld) t0 r u' :
  t_select top = ExitFirst ->
  RunUp_select sc top (newUpContext d) = (t0, Done r u') ->
  exists tA uA,
    Activate sc (newUpContext d) = (tA ++ [EvExitSend r], Done tt uA) /\
    Forall (fun e => isPost e = false) tA /\
    u' = with_Exit uA None /\
    t0 = EvSignalNotify :: map EvGo (tA ++ [EvExitSend r]).
Proof.
  intros Hsel E0.
  destruct (RunUp_select_exit_run d sc top _ _ _ Hsel E0) as (tA & uA & EA & HE & Hu & ->).
  pose proof (Activate_post sc (newUpContext d) eq_refl) as HA. unfold sat in HA.
  rewrite EA in HA. cbn [fst snd] in HA.
  destruct (scan postStep None tA) as [s|] eqn:Hscan; [|contradiction].
  destruct HA as [Hs _]. rewrite HE in Hs.
  destruct (scan_post_some _ r _ Hscan Hs) as (tB & -> & HtB).
  exists tB, uA. repeat split; auto.
Qed.

(** X12. RunUp makes up no error: when it returns an error, the [Exit]
    case of its [select] was taken, the supervisor had returned, the
    error is the one the supervisor posted - its last act and its only
    post - and RunUp has emptied the channel; an interrupt never yields an
    error.  The deferred shutdown then ran, after everything else. *)
Theorem RunUp_error_was_posted (d : Dev) (sc : Script) (top : TopWorld)
    (e : error) (u' : UpContext) :
  snd (RunUp d sc top) = Done (Some e) u' ->
  t_select top = ExitFirst /\
  exists tA uA,
    Activate sc (newUpContext d) = (tA ++ [EvExitSend (Some e)], Done tt uA) /\
    Forall (fun e => isPost e = false) tA /\
    u' = with_Exit uA None /\
    fst (RunUp d sc top) =
      EvSignalNotify :: map EvGo (tA ++ [EvExitSend (Some e)]) ++
      shutdownEvents (t_shutdown top) u'.
Proof.
  intros H. destruct (RunUp_returned d sc top _ _ H) as (t0 & E0 & Ht).
  destruct (t_select top) as [k now|] eqn:Hsel.
  { rewrite (RunUp_select_stop sc top k now _ Hsel) in E0. discriminate. }
  split; [reflexivity|].
  destruct (RunUp_exit_posted d sc top _ _ _ Hsel E0) as (tA & uA & EA & HtA & Hu & ->).
  exists tA, uA. rewrite Ht. repeat split; auto.
Qed.


(** ** The command *)

Lemma shutdownEvents_targets (sw : ShutdownWorld) (u : UpContext) name ns :
  Forall (fun e => targets name ns (CmdSupervisor e) = true) (shutdownEvents sw u).
Proof.
  unfold shutdownEvents, cancelEvents, waiterEvents, stopperEvents.
  destruct (Cancel u), (WG u), (sw_drain sw), (DevForwarder u), (SyncForwarder u);
    cbn; repeat constructor.
Qed.

(** The trace of RunUp: the registration of the signal, the effects of
    the supervisor up to some point, a blank line when interrupted, and
    the deferred shutdown when RunUp returns. *)
Lemma RunUp_trace (d : Dev) (sc : Script) (top : TopWorld) name ns :
  exists k tail,
    fst (RunUp d sc top) =
      EvSignalNotify :: map EvGo (firstn k (fst (Activate sc (newUpContext d)))) ++ tail /\
    Forall (fun e => targets name ns (CmdSupervisor e) = true) tail.
Proof.
  destruct (t_select top) as [k now|] eqn:Hsel.
  - pose proof (RunUp_select_stop sc top k now (newUpContext d) Hsel) as E0.
    rewrite (RunUp_run d sc top _ _ _ E0). cbn [fst].
    exists k, ([EvPrintln EmptyString] ++ shutdownEvents (t_shutdown top) now).
    split; [cbn [app]; now rewrite <- app_assoc|].
    apply Forall_app. split; [repeat constructor|apply shutdownEvents_targets].
  - exists (List.length (fst (Activate sc (newUpContext d)))).
    rewrite firstn_all.
    destruct (RunUp_select sc top (newUpContext d)) as [t0 [r u1| |u1|]] eqn:E0.
    + rewrite (RunUp_run d sc top _ _ _ E0). cbn [fst].
      destruct (RunUp_select_exit_run d sc top _ _ _ Hsel E0)
        as (tA & uA & EA & _ & _ & ->).
      rewrite EA. cbn [fst]. exists (shutdownEvents (t_shutdown top) u1).
      split; [reflexivity|apply shutdownEvents_targets].
    + exists []. split; [|constructor]. unfold RunUp, bind. rewrite E0. cbn [fst].
      unfold RunUp_select in E0. rewrite Hsel, bind_emit, bind_go in E0.
      destruct (Activate sc (newUpContext d)) as [tA [a uA| |uA|]]; cbn [fst];
        try (rewrite bind_get in E0; destruct (Exit uA) as [[e|]|]);
        unfold prepend in E0; cbn in E0; inversion E0; now rewrite ?app_nil_r.
    + exists []. split; [|constructor]. unfold RunUp, bind. rewrite E0. cbn [fst].
      unfold RunUp_select in E0. rewrite Hsel, bind_emit, bind_go in E0.
      destruct (Activate sc (newUpContext d)) as [tA [a uA| |uA|]]; cbn [fst];
        try (rewrite bind_get in E0; destruct (Exit uA) as [[e|]|]);
        unfold prepend in E0; cbn in E0; inversion E0; now rewrite ?app_nil_r.
    + exists []. split; [|constructor]. unfold RunUp, bind. rewrite E0. cbn [fst].
      unfold RunUp_select in E0. rewrite Hsel, bind_emit, bind_go in E0.
      destruct (Activate sc (newUpContext d)) as [tA [a uA| |uA|]]; cbn [fst];
        try (rewrite bind_get in E0; destruct (Exit uA) as [[e|]|]);
        unfold prepend in E0; cbn in E0; inversion E0; now rewrite ?app_nil_r.
Qed.

Lemma scan_address_targets (d : Dev) (t : list Event) :
  scan (addressStep d) tt t = Some tt ->
  Forall (fun e => targets (Name d) (Namespace d) (CmdSupervisor (EvGo e)) = true) t.
Proof.
  induction t as [|e t IH]; cbn [scan]; intros H; [constructor|].
  destruct (addressStep d tt e) as [[]|] eqn:He; [|discriminate].
  constructor; [|now apply IH].
  destruct e; cbn in He |- *; try reflexivity.
  - destruct (String.eqb name (Name d) && String.eqb ns (Namespace d));
      [reflexivity|discriminate].
  - destruct (String.eqb ns (Namespace d)); [reflexivity|discriminate].
Qed.

Lemma RunUp_targets (d : Dev) (sc : Script) (top : TopWorld) :
  Namespace d <> EmptyString ->
  Forall (fun e => targets (Name d) (Namespace d) (CmdSupervisor e) = true)
    (fst (RunUp d sc top)).
Proof.
  intros Hns.
  destruct (RunUp_trace d sc top (Name d) (Namespace d)) as (k & tail & -> & Htail).
  constructor; [reflexivity|]. apply Forall_app. split; [|exact Htail].
  apply Forall_map.
  pose proof (Activate_address sc (newUpContext d) Hns) as H. unfold sat in H.
  cbn [dev newUpContext] in H.
  destruct (scan (addressStep d) tt (fst (Activate sc (newUpContext d)))) as [[]|] eqn:Hs;
    [|contradiction].
  pose proof (scan_address_targets d _ Hs) as HF.
  rewrite <- (firstn_skipn k (fst (Activate sc (newUpContext d)))) in HF.
  apply Forall_app in HF. apply HF.
Qed.

(** X13. The namespace flag of the command wins over the manifest for
    the whole session: when [--namespace] is given, every fetch of the
    workload by the supervisor - in the first iteration and after each
    reconnection - is by the name of the manifest and the namespace of
    the flag, and every forwarder is started in that namespace; without
    the flag, and with a namespace in the manifest, it is the namespace of
    the manifest.  What the cluster credentials answer never replaces
    either. *)
Theorem Up_RunE_namespace (devPath namespace : string) (cw : CmdWorld) (d : Dev) :
  c_loadDev cw devPath = Ok d ->
  (namespace <> EmptyString ->
   Forall (fun ev => targets (Name d) namespace ev = true)
     (fst (Up_RunE devPath namespace cw))) /\
  (namespace = EmptyString -> Namespace d <> EmptyString ->
   Forall (fun ev => targets (Name d) (Namespace d) ev = true)
     (fst (Up_RunE devPath namespace cw))).
Proof.
  intros Hload.
  assert (H : forall d', Name d' = Name d -> Namespace d' <> EmptyString ->
                applyNamespace namespace d = d' ->
                Forall (fun ev => targets (Name d) (Namespace d') ev = true)
                  (fst (Up_RunE devPath namespace cw))).
  { intros d' Hn Hns Hd'. unfold Up_RunE, installSyncthing, upgradeNotice.
    destruct (c_IsInstalled cw), (c_downloadSyncthing cw),
      (Nat.ltb 0 (String.length (c_upgradeAvailable cw)));
      cbn [fst app]; repeat (constructor; [reflexivity|]);
      try constructor;
      rewrite Hload, Hd'; cbn [fst app]; repeat (constructor; [reflexivity|]);
      apply Forall_map; rewrite <- Hn; now apply RunUp_targets. }
  split.
  - intros Hne.
    assert (E : applyNamespace namespace d = set_Namespace d namespace).
    { unfold applyNamespace. destruct (String.eqb_spec namespace EmptyString);
        [contradiction|reflexivity]. }
    apply (H (set_Namespace d namespace)); auto.
  - intros -> Hne. apply (H d); auto.
Qed.


(** X14. Where an error of the command comes from.  When [RunE] returns
    an error, either syncthing was missing and its download failed - the
    error is then the fixed message, the cause being dropped, and neither
    the manifest was read nor the supervisor started - or the manifest
    could not be loaded - the error of the loader is returned as it is
    and the supervisor was not started - or the manifest was loaded and
    the error is the one the supervisor posted on the [Exit] channel. *)
Theorem Up_RunE_error_origin (devPath namespace : string) (cw : CmdWorld) (e : error) :
  snd (Up_RunE devPath namespace cw) = Returned (Some e) ->
  (c_IsInstalled cw = false /\ c_downloadSyncthing cw <> None /\
   e = Errorf "couldn't download syncthing, please try again" /\
   Forall (fun ev => isManifest ev = false /\ isSupervisor ev = false)
     (fst (Up_RunE devPath namespace cw))) \/
  (c_loadDev cw devPath = Err e /\
   Forall (fun ev => isSupervisor ev = false) (fst (Up_RunE devPath namespace cw))) \/
  (exists d, c_loadDev cw devPath = Ok d /\
             In (CmdSupervisor (EvGo (EvExitSend (Some e))))
                (fst (Up_RunE devPath namespace cw))).
Proof.
  unfold Up_RunE, installSyncthing, upgradeNotice.
  assert (Hrun : forall d t,
            outcome (snd (RunUp d (c_script cw) (c_top cw))) = Returned (Some e) ->
            In (CmdSupervisor (EvGo (EvExitSend (Some e))))
               (t ++ map CmdSupervisor (fst (RunUp d (c_script cw) (c_top cw))))).
  { intros d t H. apply in_or_app. right. apply in_map.
    destruct (snd (RunUp d (c_script cw) (c_top cw))) as [r u'| |u'|] eqn:Es;
      try discriminate.
    cbn in H. inversion H; subst r.
    destruct (RunUp_returned d _ _ _ _ Es) as (t0 & E0 & ->).
    destruct (t_select (c_top cw)) as [k now|] eqn:Hsel.
    { rewrite (RunUp_select_stop _ _ k now _ Hsel) in E0. discriminate. }
    destruct (RunUp_exit_posted d _ _ _ _ _ Hsel E0) as (tA & uA & _ & _ & _ & ->).
    apply in_or_app. left. right. rewrite map_app. apply in_or_app. right.
    left. reflexivity. }
  destruct (c_IsInstalled cw) eqn:Ei, (c_downloadSyncthing cw) as [e0|] eqn:Ed;
    cbn [fst snd].
  - destruct (c_loadDev cw devPath) as [d|e1] eqn:El; cbn [fst snd]; intros H.
    + right. right. exists d. split; [reflexivity|].
      rewrite !app_assoc. now apply Hrun.
    + right. left. inversion H; subst e1. split; [reflexivity|].
      destruct (Nat.ltb 0 (String.length (c_upgradeAvailable cw))); repeat constructor.
  - destruct (c_loadDev cw devPath) as [d|e1] eqn:El; cbn [fst snd]; intros H.
    + right. right. exists d. split; [reflexivity|].
      rewrite !app_assoc. now apply Hrun.
    + right. left. inversion H; subst e1. split; [reflexivity|].
      destruct (Nat.ltb 0 (String.length (c_upgradeAvailable cw))); repeat constructor.
  - intros H. left. inversion H. split; [reflexivity|]. split; [discriminate|].
    split; [reflexivity|].
    destruct (Nat.ltb 0 (String.length (c_upgradeAvailable cw))); repeat constructor.
  - destruct (c_loadDev cw devPath) as [d|e1] eqn:El; cbn [fst snd]; intros H.
    + right. right. exists d. split; [reflexivity|].
      rewrite !app_assoc. now apply Hrun.
    + right. left. inversion H; subst e1. split; [reflexivity|].
      destruct (Nat.ltb 0 (String.length (c_upgradeAvailable cw))); repeat constructor.
Qed.


(** ** printDisplayContext *)

Lemma skipn_nth_error {A} (l : list A) (i : nat) (a : A) :
  nth_error l i = Some a -> skipn i l = a :: skipn (S i) l.
Proof.
  revert i. induction l as [|x l IH]; intros [|i] H; cbn in H; try discriminate.
  - now inversion H.
  - cbn [skipn]. now apply IH.
Qed.

Lemma displayForwards_run (ports : list Forward) (fuel i : nat) :
  List.length ports - i <= fuel ->
  displayForwards ports i fuel =
    Some (map (fun f => DlForward false (Local f) (Remote f)) (skipn i ports)).
Proof.
  revert i. induction fuel as [|fuel IH]; intros i Hf; cbn [displayForwards].
  - rewrite skipn_all2 by lia. reflexivity.
  - destruct (Nat.ltb_spec i (List.length ports)) as [Hlt|Hge].
    + destruct (nth_error ports i) as [f|] eqn:En.
      * rewrite IH by lia. now rewrite (skipn_nth_error _ _ _ En).
      * apply nth_error_None in En. lia.
    + rewrite skipn_all2 by lia. reflexivity.
Qed.

(** X15. printDisplayContext never indexes [ports] out of range, with no
    forward, with one or with many; it prints the message, the namespace
    and the name, then every forward exactly once and in declaration
    order, the first one alone under the heading, then a blank line. *)
Theorem printDisplayContext_lines (message namespace name : string)
    (ports : list Forward) :
  printDisplayContext message namespace name ports =
    Some (DlSuccess message :: DlNamespace namespace :: DlName name ::
          match ports with
          | [] => []
          | f :: rest =>
              DlForward true (Local f) (Remote f) ::
              map (fun f => DlForward false (Local f) (Remote f)) rest
          end ++ [DlBlank]).
Proof.
  unfold printDisplayContext. destruct ports as [|f rest]; [reflexivity|].
  cbn [List.length Nat.ltb Nat.leb nth_error].
  rewrite displayForwards_run by (cbn [List.length]; lia). reflexivity.
Qed.


(** ** The default namespace *)

Ltac addr_first_solve H :=
  cbn; rewrite <- ?H; cbn; rewrite ?String.eqb_refl; reflexivity.

Lemma devMode_address_first (w : World) (isRetry : bool) (u : UpContext) (d : Dev)
    ns B O :
  w_GetLocal w = Ok ns ->
  effectiveDev (dev u) ns = d ->
  sat (addressStep d) (devMode w isRetry)
    (fun err _ u' => err = None -> dev u' = d /\ Sy u' <> None) B O tt u.
Proof.
  intros EG H. unfold devMode, devMode_activate, devMode_apply. unfold effectiveDev in H.
  sat_exec addr_solve. sat_exec addr_solve. rewrite EG.
  sat_exec addr_solve. sat_exec addr_solve.
  destruct (String.eqb (Namespace (dev u)) EmptyString);
    repeat sat_exec ltac:(addr_first_solve H);
    intros Hn; try discriminate; rewrite <- H; cbn; split; congruence.
Qed.

Lemma Activate_body_address_first (w : World) (state : TermState) (retry : bool)
    (u : UpContext) (d : Dev) ns :
  w_GetLocal w = Ok ns ->
  effectiveDev (dev u) ns = d ->
  sat (addressStep d) (Activate_body w state retry)
    (fun c _ u' => match c with Continue _ => dev u' = d | Return => True end)
    (fun _ _ => True) (fun _ => True) tt u.
Proof.
  intros EG Hd. unfold Activate_body. repeat sat_exec addr_solve.
  eapply sat_weaken;
    [| | |apply devMode_address_first with (B := fun _ _ => True) (O := fun _ => True)
            (ns := ns); [exact EG | exact Hd]];
    cbv beta; auto.
  intros err [] u1 H1. destruct err as [e|].
  { repeat sat_exec addr_solve. destruct (Exit u1); [exact I|].
    eexists. split; [reflexivity|]. sat_exec addr_solve. exact I. }
  destruct (H1 eq_refl) as [Hd1 HS1]. clear H1. repeat sat_exec addr_solve.
  { destruct (Exit _); [exact I|].
    eexists. split; [reflexivity|]. sat_exec addr_solve. exact I. }
  unfold Activate_sync. repeat sat_exec addr_solve.
  eapply sat_weaken;
    [| | |apply startSync_address with (B := fun _ _ => True) (O := fun _ => True);
          [exact HS1 | exact Hd1]];
    cbv beta; auto.
  intros err [] u2 (Hd2 & HS2 & _).
  sat_exec addr_solve. sat_exec addr_solve. destruct err as [e|].
  { repeat sat_exec addr_solve. destruct (Exit u2); [exact I|].
    eexists. split; [reflexivity|]. sat_exec addr_solve. exact I. }
  unfold Activate_run. repeat sat_exec addr_solve.
  apply sat_go with (Q' := fun _ u' => u' = u2);
    [reflexivity | apply wp_runCommand |]. intros _ u' ->.
  sat_exec addr_solve. apply sat_Wait; try reflexivity; try exact I.
  intros prevError. repeat sat_exec addr_solve.
  unfold exitSelection. sat_exec addr_solve.
  apply sat_weaken with
    (Q := fun (_ : bool) (_ : unit) u' => u' = u2)
    (B := fun _ _ => True) (O := fun _ => True); auto.
  - intros reconnect [] u' ->. destruct reconnect.
    + repeat sat_exec addr_solve. apply sat_shutdown; try reflexivity.
      intros res. sat_exec addr_solve. exact Hd2.
    + repeat sat_exec addr_solve. destruct (Exit u2); [exact I|].
      eexists. split; [reflexivity|]. sat_exec addr_solve. exact I.
  - destruct prevError as [[| |m|e]|]; cbn [error_eqb]; try (sat_exec addr_solve; auto).
    destruct (Sy u2) as [sy|] eqn:ESy; [|congruence].
    repeat sat_exec addr_solve. auto.
Qed.

(** X16. The default namespace sticks.  When the manifest names no
    namespace, the first iteration takes the one of the cluster
    credentials; from then on every fetch of the workload and every start
    of a forwarder, in that iteration and after each reconnection, is in
    that same namespace, whatever the credentials answer in the later
    iterations. *)
Theorem Activate_default_namespace_sticks (sc : Script) (u : UpContext)
    (state : TermState) (w : World) (ws : list World) (ns : string) :
  s_SaveState sc = Ok state ->
  s_worlds sc = w :: ws ->
  Namespace (dev u) = EmptyString ->
  w_GetLocal w = Ok ns ->
  ns <> EmptyString ->
  scan (addressStep (set_Namespace (dev u) ns)) tt (fst (Activate sc u)) = Some tt.
Proof.
  intros Hst Hws Hempty EG Hns.
  assert (H : sat (addressStep (set_Namespace (dev u) ns)) (Activate sc)
                (fun _ _ _ => True) (fun _ _ => True) (fun _ => True) tt u).
  { unfold Activate. sat_step. sat_step. rewrite Hst, Hws. cbn [Activate_loop].
    apply sat_bind.
    eapply sat_weaken;
      [| | |apply Activate_body_address_first with (ns := ns); [exact EG|]];
      cbv beta; auto.
    - intros c [] u' Hu'. destruct c as [r|]; [|now apply sat_ret].
      eapply sat_weaken; [| | |apply Activate_loop_address; [exact Hu' | exact Hns]];
        cbv beta; auto.
    - unfold effectiveDev. now rewrite Hempty. }
  unfold sat in H.
  destruct (scan (addressStep (set_Namespace (dev u) ns)) tt (fst (Activate sc u)))
    as [[]|]; [reflexivity|contradiction].
Qed.

End Properties.

(** * The properties at the concrete world *)

Lemma C1_exit_selection_witness :
  exists prevError,
    waitReturns [SigErrChan (ErrExternal 1); SigDisconnect] prevError /\
    reconnects reconnectWorld prevError.
Proof.
  destruct (@C1_exit_selection demoPackages reconnectWorld 7 false
              (newUpContext demoDev) []
              (fst (Activate_body reconnectWorld 7 false (newUpContext demoDev)))
              (Continue true)
              (match snd (Activate_body reconnectWorld 7 false (newUpContext demoDev)) with
               | Done _ u => u
               | _ => newUpContext demoDev
               end))
    as (prevError & Hw & Hiff & _).
  - reflexivity.
  - vm_compute. reflexivity.
  - vm_compute. repeat first [ left; reflexivity | right ].
  - exists prevError. split; [exact Hw|]. apply Hiff. reflexivity.
Defined.

Lemma C2_wait_results_witness :
  WaitUntilExitOrInterrupt [SigErrChan (ErrExternal 1); SigRunning None; SigDisconnect]
    (newUpContext demoDev) =
    ([EvRecv (SigErrChan (ErrExternal 1)); EvLogYellowErr (ErrExternal 1);
      EvRecv (SigRunning None); EvPrintln EmptyString],
     Done None (newUpContext demoDev)).
Proof.
  exact (proj1 (C2_wait_results [ErrExternal 1] [SigDisconnect] (newUpContext demoDev)
                  (ErrExternal 2) [])).
Defined.

Lemma C3_terminal_discipline_witness :
  exists t,
    fst (Activate (demoScript [reconnectWorld; happyWorld]) (newUpContext demoDev)) =
      EvSaveState :: t /\
    terminalScan 7 false t = Some false /\
    List.length (filter isRestore t) = 2.
Proof.
  destruct (@C3_terminal_discipline demoPackages
              (demoScript [reconnectWorld; happyWorld]) (newUpContext demoDev))
    as (t & Ht & _ & Hok & _).
  destruct (Hok 7 eq_refl) as (Hscan & _ & _ & Hcount).
  exists t. split; [exact Ht|]. split; [exact Hscan|].
  rewrite Hcount. vm_compute in Ht. inversion Ht. reflexivity.
Defined.

Lemma C4_shutdown_always_returns_witness :
  exists t,
    shutdown neverDrains (newUpContext demoDev) =
      (t, Done (WatchdogFired, 1000) (newUpContext demoDev)).
Proof.
  destruct (C4_shutdown_always_returns neverDrains neverDrains (newUpContext demoDev))
    as (Hw & (t & how & ms & E & _ & _ & _ & Hnever & _) & _).
  destruct Hnever as [-> ->]; [discriminate | reflexivity |].
  exists t. rewrite <- Hw. exact E.
Defined.

Lemma C5_retry_not_found_is_fatal_witness :
  returned (snd (devMode absentWorld true (newUpContext demoDev))) =
    Some (Some demoNotFound).
Proof.
  rewrite (proj1 (@C5_retry_not_found_is_fatal demoPackages absentWorld 7
                    (newUpContext demoDev) [] "default" demoSy demoNotFound
                    eq_refl eq_refl eq_refl eq_refl)).
  reflexivity.
Defined.

Lemma C6_retry_requires_dev_mode_witness :
  returned (snd (devMode offWorld true (newUpContext demoDev))) =
    Some (Some (Errorf "Your Okteto Environment has been deactivated")).
Proof.
  rewrite (proj1 (@C6_retry_requires_dev_mode demoPackages offWorld 7
                    (newUpContext demoDev) [] "default" demoSy false
                    eq_refl eq_refl eq_refl eq_refl)).
  reflexivity.
Defined.

Lemma C7_sync_bring_up_order_witness :
  (exists u',
     snd (Activate_sync failingSync 7 true (with_Sy (newUpContext demoDev) (Some demoSy))) =
       Done Return u' /\
     Exit u' = Some (Some (ErrExternal 9))) /\
  (exists u',
     snd (startSync failingSync (with_Sy (newUpContext demoDev) (Some demoSy))) =
       Done (Some (ErrExternal 9)) u' /\
     Sy u' = Some (set_Type demoSy "sendreceive")) /\
  In (EvUpdateConfig "sendreceive")
     (fst (startSync failingSync (with_Sy (newUpContext demoDev) (Some demoSy)))).
Proof.
  destruct (@C7_sync_bring_up_order demoPackages failingSync 7 true
              (with_Sy (newUpContext demoDev) (Some demoSy)) demoSy eq_refl)
    as (_ & (u1 & Erun & _ & Hmode & _) & Hfail).
  split; [|split].
  - destruct (Hfail (ErrExternal 9) eq_refl) as (_ & Hpost).
    destruct (Hpost eq_refl) as (u' & E & HE).
    exists u'. rewrite E. split; [reflexivity | exact HE].
  - exists u1. rewrite Erun. split; [reflexivity | exact Hmode].
  - rewrite Erun. cbn. tauto.
Defined.

Lemma C8_top_level_select_witness :
  exists u', snd (RunUp demoDev noTerminal demoTop) = Done (Some (ErrExternal 3)) u'.
Proof.
  destruct (@C8_top_level_select demoPackages demoDev noTerminal demoTop)
    as (_ & _ & Hexit & _).
  apply (Hexit (ErrExternal 3)); reflexivity.
Defined.

Lemma C9_declined_sandbox_no_mutation_witness :
  existsb isMutation (fst (devMode absentWorld false (newUpContext demoDev))) = false.
Proof.
  rewrite (proj1 (@C9_declined_sandbox_no_mutation demoPackages absentWorld 7
                    (newUpContext demoDev) [] "default" demoSy demoNotFound
                    eq_refl eq_refl eq_refl eq_refl eq_refl)).
  reflexivity.
Defined.

Lemma C10_shutdown_nil_safe_witness :
  snd (shutdown neverDrains (newUpContext demoDev)) <> Panic /\
  ~ In (EvCancel 0) (fst (shutdown neverDrains (newUpContext demoDev))).
Proof.
  destruct (@C10_shutdown_nil_safe demoPackages neverDrains (newUpContext demoDev))
    as (Hsafe & Hcancel & _).
  split; [exact Hsafe | exact (Hcancel eq_refl 0)].
Defined.

Lemma Activate_never_panics_witness :
  Exit (newUpContext demoDev) = None /\
  snd (Activate (demoScript [reconnectWorld; happyWorld]) (newUpContext demoDev)) <> Panic.
Proof.
  split; [reflexivity|].
  apply (proj1 (@Activate_never_panics demoPackages demoDev
                  (demoScript [reconnectWorld; happyWorld]) demoTop
                  (newUpContext demoDev))).
  reflexivity.
Defined.

Lemma Activate_posts_once_witness :
  Exit (newUpContext demoDev) = None /\
  match snd (Activate (demoScript [reconnectWorld; happyWorld]) (newUpContext demoDev)) with
  | Done _ u' =>
      exists t0 v,
        fst (Activate (demoScript [reconnectWorld; happyWorld]) (newUpContext demoDev)) =
          t0 ++ [EvExitSend v] /\
        Forall (fun e => isPost e = false) t0 /\
        Exit u' = Some v
  | Blocked _ | OutOfScript =>
      Forall (fun e => isPost e = false)
        (fst (Activate (demoScript [reconnectWorld; happyWorld]) (newUpContext demoDev)))
  | Panic => False
  end.
Proof.
  split; [reflexivity|].
  apply (@Activate_posts_once demoPackages (demoScript [reconnectWorld; happyWorld])
           (newUpContext demoDev)).
  reflexivity.
Defined.

Lemma Activate_keeps_address_witness :
  Namespace (dev (newUpContext stagingDev)) <> EmptyString /\
  scan (addressStep stagingDev) tt
    (fst (Activate (demoScript [reconnectWorld; happyWorld]) (newUpContext stagingDev))) =
    Some tt.
Proof.
  split; [discriminate|].
  apply (@Activate_keeps_address demoPackages (demoScript [reconnectWorld; happyWorld])
           (newUpContext stagingDev)).
  discriminate.
Defined.

Lemma RunUp_error_was_posted_witness :
  snd (RunUp demoDev noTerminal demoTop) =
    Done (Some (ErrExternal 3)) (newUpContext demoDev) /\
  t_select demoTop = ExitFirst.
Proof.
  split; [reflexivity|].
  apply (@RunUp_error_was_posted demoPackages demoDev noTerminal demoTop (ErrExternal 3)
           (newUpContext demoDev)).
  reflexivity.
Defined.

Lemma Up_RunE_namespace_witness :
  c_loadDev demoCmd "okteto.yml" = Ok demoDev /\
  "staging" <> EmptyString /\
  Forall (fun ev => targets (Name demoDev) "staging" ev = true)
    (fst (Up_RunE "okteto.yml" "staging" demoCmd)).
Proof.
  split; [reflexivity|]. split; [discriminate|].
  apply (proj1 (@Up_RunE_namespace demoPackages "okteto.yml" "staging" demoCmd demoDev
                  eq_refl)).
  discriminate.
Defined.

Lemma Up_RunE_error_origin_witness :
  snd (Up_RunE "okteto.yml" EmptyString failingCmd) = Returned (Some (ErrExternal 3)) /\
  ((c_IsInstalled failingCmd = false /\ c_downloadSyncthing failingCmd <> None /\
    ErrExternal 3 = Errorf "couldn't download syncthing, please try again" /\
    Forall (fun ev => isManifest ev = false /\ isSupervisor ev = false)
      (fst (Up_RunE "okteto.yml" EmptyString failingCmd))) \/
   (c_loadDev failingCmd "okteto.yml" = Err (ErrExternal 3) /\
    Forall (fun ev => isSupervisor ev = false)
      (fst (Up_RunE "okteto.yml" EmptyString failingCmd))) \/
   (exists d, c_loadDev failingCmd "okteto.yml" = Ok d /\
              In (CmdSupervisor (EvGo (EvExitSend (Some (ErrExternal 3)))))
                 (fst (Up_RunE "okteto.yml" EmptyString failingCmd)))).
Proof.
  split; [reflexivity|].
  apply (@Up_RunE_error_origin demoPackages "okteto.yml" EmptyString failingCmd
           (ErrExternal 3)).
  reflexivity.
Defined.

Lemma Activate_default_namespace_sticks_witness :
  Namespace (dev (newUpContext demoDev)) = EmptyString /\
  w_GetLocal reconnectWorld = Ok "default" /\
  scan (addressStep (set_Namespace demoDev "default")) tt
    (fst (Activate (demoScript [reconnectWorld; happyWorld]) (newUpContext demoDev))) =
    Some tt.
Proof.
  split; [reflexivity|]. split; [reflexivity|].
  apply (@Activate_default_namespace_sticks demoPackages
           (demoScript [reconnectWorld; happyWorld]) (newUpContext demoDev)
           7 reconnectWorld [happyWorld] "default");
    try reflexivity.
  discriminate.
Defined.

Lemma Activate_adds_forwards_witness :
  exists u',
    snd (Activate_body refusingWorld 7 false (newUpContext demoDev)) = Done Return u' /\
    Exit u' = Some (Some (ErrExternal 5)).
Proof.
  destruct (@Activate_adds_forwards demoPackages refusingWorld 7 false
              (newUpContext demoDev)
              (fst (devMode refusingWorld false (atDevMode (newUpContext demoDev))))
              (match snd (devMode refusingWorld false (atDevMode (newUpContext demoDev))) with
               | Done _ u' => u'
               | _ => newUpContext demoDev
               end)
              eq_refl eq_refl) as [Hrefused _].
  destruct (Hrefused 0 {| Local := 808; Remote := 80 |} (ErrExternal 5)
              eq_refl eq_refl (Forall_nil _)) as (u' & E & HE).
  exists u'. rewrite E. split; [reflexivity | exact HE].
Defined.
